(** * learning-vulkan: render, copy and read back one solid colour

  A shallow embedding of [main.c] (and of [main.c++], which performs the
  same calls with the same arguments, written with assignments instead of
  designated initialisers).

  The program is one straight line of calls into the Vulkan driver,
  separated by [check]s that end the process.  It is embedded as a
  computation in a small output/exit monad: running it against a
  description of what the driver answers yields the list of calls the
  program made, in order, and the way the process ended. *)

From Stdlib Require Import ZArith List Lia Bool String QArith.
From Equations Require Import Equations.
Import ListNotations.
Local Open Scope string_scope.
Local Open Scope list_scope.
Local Open Scope Z_scope.

Set Implicit Arguments.

(* ================================================================== *)
(** * C integers *)
(* ================================================================== *)

Module CInt.

Definition UINT32_MAX : Z := 2 ^ 32 - 1.
Definition UINT64_MAX : Z := 2 ^ 64 - 1.

Definition is_uint32 (z : Z) : Prop := 0 <= z <= UINT32_MAX.

(** Conversion of a value to [uint32_t]: reduction modulo 2^32. *)
Definition to_uint32 (z : Z) : Z := z mod 2 ^ 32.

(** Conversion of a value to [uint8_t]. *)
Definition to_uint8 (z : Z) : Z := z mod 2 ^ 8.

(** Conversion of a value to a 32-bit two's complement [int]. *)
Definition to_int (z : Z) : Z := (z + 2 ^ 31) mod 2 ^ 32 - 2 ^ 31.

(** [a << n] on [int] operands, on a two's complement machine: the
    mathematical result wrapped into the range of [int]. *)
Definition shl_int (a n : Z) : Z := to_int (Z.shiftl a n).

(** [a >> n] on [uint32_t] operands. *)
Definition shr_uint32 (a n : Z) : Z := Z.shiftr a n.

(** C truth value of an integer used as a condition. *)
Definition truthy (z : Z) : bool := negb (z =? 0).

End CInt.
Import CInt.

(* ================================================================== *)
(** * The parts of <vulkan/vulkan.h> the program uses *)
(* ================================================================== *)

(** The header belongs to the Vulkan SDK, not to this repository.  Bit
  flags are numbers with the values the header gives them; enumerations
  the program only passes along are inductive types. *)

Module Vk.

Definition VkResult := Z.
Definition VK_SUCCESS : VkResult := 0.
Definition VK_ERROR_OUT_OF_HOST_MEMORY : VkResult := -1.
Definition VK_ERROR_DEVICE_LOST : VkResult := -4.

Definition VK_TRUE : Z := 1.
Definition VK_MAX_MEMORY_TYPES : Z := 32.
Definition VK_WHOLE_SIZE : Z := 2 ^ 64 - 1.
Definition VK_REMAINING_MIP_LEVELS : Z := 2 ^ 32 - 1.
Definition VK_REMAINING_ARRAY_LAYERS : Z := 2 ^ 32 - 1.

(* VkMemoryPropertyFlagBits *)
Definition VK_MEMORY_PROPERTY_DEVICE_LOCAL_BIT : Z := 0x1.
Definition VK_MEMORY_PROPERTY_HOST_VISIBLE_BIT : Z := 0x2.
Definition VK_MEMORY_PROPERTY_HOST_COHERENT_BIT : Z := 0x4.
Definition VK_MEMORY_PROPERTY_HOST_CACHED_BIT : Z := 0x8.
Definition VK_MEMORY_PROPERTY_LAZILY_ALLOCATED_BIT : Z := 0x10.

(* VkMemoryHeapFlagBits *)
Definition VK_MEMORY_HEAP_DEVICE_LOCAL_BIT : Z := 0x1.

(* VkQueueFlagBits *)
Definition VK_QUEUE_GRAPHICS_BIT : Z := 0x1.
Definition VK_QUEUE_COMPUTE_BIT : Z := 0x2.
Definition VK_QUEUE_TRANSFER_BIT : Z := 0x4.

(* VkImageUsageFlagBits *)
Definition VK_IMAGE_USAGE_TRANSFER_SRC_BIT : Z := 0x1.
Definition VK_IMAGE_USAGE_TRANSFER_DST_BIT : Z := 0x2.
Definition VK_IMAGE_USAGE_SAMPLED_BIT : Z := 0x4.
Definition VK_IMAGE_USAGE_COLOR_ATTACHMENT_BIT : Z := 0x10.

Definition VK_IMAGE_ASPECT_COLOR_BIT : Z := 0x1.
Definition VK_SAMPLE_COUNT_1_BIT : Z := 0x1.
Definition VK_COMMAND_BUFFER_USAGE_ONE_TIME_SUBMIT_BIT : Z := 0x1.

(* VkPipelineStageFlagBits *)
Definition VK_PIPELINE_STAGE_COLOR_ATTACHMENT_OUTPUT_BIT : Z := 0x400.
Definition VK_PIPELINE_STAGE_TRANSFER_BIT : Z := 0x1000.
Definition VK_PIPELINE_STAGE_HOST_BIT : Z := 0x4000.

(* VkAccessFlagBits *)
Definition VK_ACCESS_COLOR_ATTACHMENT_WRITE_BIT : Z := 0x100.
Definition VK_ACCESS_TRANSFER_READ_BIT : Z := 0x800.
Definition VK_ACCESS_TRANSFER_WRITE_BIT : Z := 0x1000.
Definition VK_ACCESS_HOST_READ_BIT : Z := 0x2000.

Inductive VkFormat := VK_FORMAT_UNDEFINED | VK_FORMAT_R8G8B8A8_UNORM.
Inductive VkImageType := VK_IMAGE_TYPE_1D | VK_IMAGE_TYPE_2D | VK_IMAGE_TYPE_3D.
Inductive VkImageTiling := VK_IMAGE_TILING_OPTIMAL | VK_IMAGE_TILING_LINEAR.
Inductive VkSharingMode := VK_SHARING_MODE_EXCLUSIVE | VK_SHARING_MODE_CONCURRENT.
Inductive VkImageViewType :=
  VK_IMAGE_VIEW_TYPE_1D | VK_IMAGE_VIEW_TYPE_2D | VK_IMAGE_VIEW_TYPE_3D.
Inductive VkAttachmentLoadOp :=
  VK_ATTACHMENT_LOAD_OP_LOAD | VK_ATTACHMENT_LOAD_OP_CLEAR
| VK_ATTACHMENT_LOAD_OP_DONT_CARE.
Inductive VkAttachmentStoreOp :=
  VK_ATTACHMENT_STORE_OP_STORE | VK_ATTACHMENT_STORE_OP_DONT_CARE.
Inductive VkPipelineBindPoint :=
  VK_PIPELINE_BIND_POINT_GRAPHICS | VK_PIPELINE_BIND_POINT_COMPUTE.
Inductive VkSubpassContents :=
  VK_SUBPASS_CONTENTS_INLINE | VK_SUBPASS_CONTENTS_SECONDARY_COMMAND_BUFFERS.
Inductive VkCommandBufferLevel :=
  VK_COMMAND_BUFFER_LEVEL_PRIMARY | VK_COMMAND_BUFFER_LEVEL_SECONDARY.

(** The image layouts.  [VK_IMAGE_LAYOUT_UNDEFINED] has the value 0, so
    it is what a field left out of an initialiser holds. *)
Inductive VkImageLayout :=
| VK_IMAGE_LAYOUT_UNDEFINED
| VK_IMAGE_LAYOUT_GENERAL
| VK_IMAGE_LAYOUT_COLOR_ATTACHMENT_OPTIMAL
| VK_IMAGE_LAYOUT_DEPTH_STENCIL_ATTACHMENT_OPTIMAL
| VK_IMAGE_LAYOUT_DEPTH_STENCIL_READ_ONLY_OPTIMAL
| VK_IMAGE_LAYOUT_SHADER_READ_ONLY_OPTIMAL
| VK_IMAGE_LAYOUT_TRANSFER_SRC_OPTIMAL
| VK_IMAGE_LAYOUT_TRANSFER_DST_OPTIMAL
| VK_IMAGE_LAYOUT_PREINITIALIZED.

Definition VkImageLayout_eqb (a b : VkImageLayout) : bool :=
  match a, b with
  | VK_IMAGE_LAYOUT_UNDEFINED, VK_IMAGE_LAYOUT_UNDEFINED
  | VK_IMAGE_LAYOUT_GENERAL, VK_IMAGE_LAYOUT_GENERAL
  | VK_IMAGE_LAYOUT_COLOR_ATTACHMENT_OPTIMAL, VK_IMAGE_LAYOUT_COLOR_ATTACHMENT_OPTIMAL
  | VK_IMAGE_LAYOUT_DEPTH_STENCIL_ATTACHMENT_OPTIMAL,
    VK_IMAGE_LAYOUT_DEPTH_STENCIL_ATTACHMENT_OPTIMAL
  | VK_IMAGE_LAYOUT_DEPTH_STENCIL_READ_ONLY_OPTIMAL,
    VK_IMAGE_LAYOUT_DEPTH_STENCIL_READ_ONLY_OPTIMAL
  | VK_IMAGE_LAYOUT_SHADER_READ_ONLY_OPTIMAL, VK_IMAGE_LAYOUT_SHADER_READ_ONLY_OPTIMAL
  | VK_IMAGE_LAYOUT_TRANSFER_SRC_OPTIMAL, VK_IMAGE_LAYOUT_TRANSFER_SRC_OPTIMAL
  | VK_IMAGE_LAYOUT_TRANSFER_DST_OPTIMAL, VK_IMAGE_LAYOUT_TRANSFER_DST_OPTIMAL
  | VK_IMAGE_LAYOUT_PREINITIALIZED, VK_IMAGE_LAYOUT_PREINITIALIZED => true
  | _, _ => false
  end.

(** ** Structures filled in by the driver *)

Record VkMemoryType := {
  propertyFlags : Z;
  heapIndex : Z
}.

Record VkMemoryHeap := {
  heap_size : Z;
  heap_flags : Z
}.

(** [memoryTypes] and [memoryHeaps] are arrays of fixed length in C
    ([VK_MAX_MEMORY_TYPES] and [VK_MAX_MEMORY_HEAPS]); the counts say how
    many leading entries the driver filled in. *)
Record VkPhysicalDeviceMemoryProperties := {
  memoryTypeCount : Z;
  memoryTypes : list VkMemoryType;
  memoryHeapCount : Z;
  memoryHeaps : list VkMemoryHeap
}.

Record VkMemoryRequirements := {
  size : Z;
  alignment : Z;
  memoryTypeBits : Z
}.

Record VkPhysicalDeviceProperties := {
  apiVersion : Z;
  driverVersion : Z;
  vendorID : Z;
  deviceID : Z;
  deviceName : string
}.

Record VkQueueFamilyProperties := {
  queueFlags : Z;
  queueCount : Z
}.

End Vk.
Import Vk.

(* ================================================================== *)
(** * Memory-type selection *)
(* ================================================================== *)

(** Array subscript [a[i]].  Every subscript the program evaluates on a
  table the driver filled in lies inside the array; the default is what
  the embedding returns elsewhere. *)
Definition subscript {A} (dflt : A) (a : list A) (i : Z) : A :=
nth (Z.to_nat i) a dflt.

Definition zero_memory_type : VkMemoryType :=
{| propertyFlags := 0; heapIndex := 0 |}.

Section Selection.

(** The global [memory_properties], read but never written by the
    selection. *)
Variable memory_properties : VkPhysicalDeviceMemoryProperties.
Variable reqs : VkMemoryRequirements.
Variable props : Z.

(** [(1 << *type) & reqs.memoryTypeBits]: the shift is done on [int], the
    result converted to [uint32_t] for the [&]. *)
Definition type_is_compatible (type : Z) : bool :=
  truthy (Z.land (to_uint32 (shl_int 1 type)) (memoryTypeBits reqs)).

(** [(memory_properties.memoryTypes[*type].propertyFlags & props) == props] *)
Definition type_has_props (type : Z) : bool :=
  Z.land (propertyFlags (subscript zero_memory_type
                           (memoryTypes memory_properties) type)) props
  =? props.

(** The [for] loop from the point where its condition is evaluated with
    [*type] holding [type].  The result is the returned [int] and the
    value left in [*type].  [++( *type)] cannot wrap: it is only executed
    below [memoryTypeCount]. *)
Equations find_loop (type : Z) : Z * Z
  by wf (Z.to_nat (memoryTypeCount memory_properties - type)) lt :=
find_loop type with Z_lt_dec type (memoryTypeCount memory_properties) := {
  | left _ =>
      if type_is_compatible type then
        if type_has_props type then (0, type)
        else find_loop (type + 1)
      else find_loop (type + 1)
  | right _ => (-1, type) }.
Next Obligation. lia. Qed.
Next Obligation. lia. Qed.

(** [find_appropriate_memory_type(reqs, props, type)], with [prior] the
    value [*type] holds on entry.  The first thing the loop does is
    [*type = 0]. *)
Definition find_appropriate_memory_type (prior : Z) : Z * Z :=
  let type := 0 in
  find_loop type.

End Selection.

(* ================================================================== *)
(** * The structures the program fills in *)
(* ================================================================== *)

(** Each C structure is a record in a module of its name, so that fields
    keep their names.  [sType] is left out: it only repeats which structure
    it is.  Of the members an initialiser leaves out, which C sets to zero,
    the records keep those a later property reads. *)

(** The program's global handle variables.  A handle is opaque to the
    program: it stores what the driver wrote and passes it on, so a call is
    recorded with the variable whose content it passes. *)
Inductive handle :=
| instance | physical_device | device | queue
| read_image | write_image
| read_image_view | write_image_view
| read_image_memory | write_image_memory
| render_pass | framebuffer | fence
| command_buffer | command_pool.

Definition handle_eqb (a b : handle) : bool :=
match a, b with
| instance, instance | physical_device, physical_device | device, device
| queue, queue | read_image, read_image | write_image, write_image
| read_image_view, read_image_view | write_image_view, write_image_view
| read_image_memory, read_image_memory
| write_image_memory, write_image_memory
| render_pass, render_pass | framebuffer, framebuffer | fence, fence
| command_buffer, command_buffer | command_pool, command_pool => true
| _, _ => false
end.

Module VkExtent2D.
Record t := { width : Z; height : Z }.
End VkExtent2D.

Module VkExtent3D.
Record t := { width : Z; height : Z; depth : Z }.
End VkExtent3D.

Module VkOffset2D.
Record t := { x : Z; y : Z }.
End VkOffset2D.

Module VkOffset3D.
Record t := { x : Z; y : Z; z : Z }.
End VkOffset3D.

Module VkRect2D.
Record t := { offset : VkOffset2D.t; extent : VkExtent2D.t }.
End VkRect2D.

Module VkInstanceCreateInfo.
Record t := { enabledLayerCount : Z; ppEnabledLayerNames : list string }.
End VkInstanceCreateInfo.

Module VkDeviceQueueCreateInfo.
Record t := {
  queueFamilyIndex : Z;
  queueCount : Z;
  pQueuePriorities : list Q
}.
End VkDeviceQueueCreateInfo.

Module VkDeviceCreateInfo.
Record t := {
  queueCreateInfoCount : Z;
  pQueueCreateInfos : list VkDeviceQueueCreateInfo.t
}.
End VkDeviceCreateInfo.

Module VkImageCreateInfo.
Record t := {
  format : VkFormat;
  imageType : VkImageType;
  extent : VkExtent3D.t;
  tiling : VkImageTiling;
  usage : Z;
  initialLayout : VkImageLayout;
  mipLevels : Z;
  arrayLayers : Z;
  samples : Z;
  sharingMode : VkSharingMode
}.
End VkImageCreateInfo.

Module VkMemoryAllocateInfo.
Record t := { allocationSize : Z; memoryTypeIndex : Z }.
End VkMemoryAllocateInfo.

Module VkImageSubresourceRange.
Record t := {
  aspectMask : Z;
  baseMipLevel : Z;
  levelCount : Z;
  baseArrayLayer : Z;
  layerCount : Z
}.
End VkImageSubresourceRange.

Module VkImageViewCreateInfo.
Record t := {
  image : handle;
  viewType : VkImageViewType;
  format : VkFormat;
  subresourceRange : VkImageSubresourceRange.t
}.
End VkImageViewCreateInfo.

Module VkAttachmentDescription.
Record t := {
  format : VkFormat;
  samples : Z;
  loadOp : VkAttachmentLoadOp;
  storeOp : VkAttachmentStoreOp;
  initialLayout : VkImageLayout;
  finalLayout : VkImageLayout
}.
End VkAttachmentDescription.

Module VkAttachmentReference.
Record t := { attachment : Z; layout : VkImageLayout }.
End VkAttachmentReference.

Module VkSubpassDescription.
Record t := {
  pipelineBindPoint : VkPipelineBindPoint;
  colorAttachmentCount : Z;
  pColorAttachments : list VkAttachmentReference.t
}.
End VkSubpassDescription.

Module VkRenderPassCreateInfo.
Record t := {
  attachmentCount : Z;
  pAttachments : list VkAttachmentDescription.t;
  subpassCount : Z;
  pSubpasses : list VkSubpassDescription.t;
  dependencyCount : Z
}.
End VkRenderPassCreateInfo.

Module VkFramebufferCreateInfo.
Record t := {
  renderPass : handle;
  attachmentCount : Z;
  pAttachments : list handle;
  width : Z;
  height : Z;
  layers : Z
}.
End VkFramebufferCreateInfo.

Module VkCommandPoolCreateInfo.
Record t := { queueFamilyIndex : Z }.
End VkCommandPoolCreateInfo.

Module VkCommandBufferAllocateInfo.
Record t := {
  commandPool : handle;
  level : VkCommandBufferLevel;
  commandBufferCount : Z
}.
End VkCommandBufferAllocateInfo.

Module VkCommandBufferBeginInfo.
Record t := { flags : Z }.
End VkCommandBufferBeginInfo.

Module VkRenderPassBeginInfo.
Record t := {
  renderPass : handle;
  framebuffer : handle;
  renderArea : VkRect2D.t;
  clearValueCount : Z
}.
End VkRenderPassBeginInfo.

Module VkClearRect.
Record t := { rect : VkRect2D.t; baseArrayLayer : Z; layerCount : Z }.
End VkClearRect.

(** [clearValue] is a union; the program writes its [color.float32]
    member.  The three literals it uses, 1.0 and 0.0, are exact in every
    binary floating-point format, so the components are kept as the
    rationals they denote. *)
Module VkClearAttachment.
Record t := {
  aspectMask : Z;
  colorAttachment : Z;
  clearValue_color_float32 : list Q
}.
End VkClearAttachment.

Module VkImageMemoryBarrier.
Record t := {
  srcAccessMask : Z;
  dstAccessMask : Z;
  oldLayout : VkImageLayout;
  newLayout : VkImageLayout;
  srcQueueFamilyIndex : Z;
  dstQueueFamilyIndex : Z;
  image : handle;
  subresourceRange : VkImageSubresourceRange.t
}.
End VkImageMemoryBarrier.

Module VkImageSubresourceLayers.
Record t := {
  aspectMask : Z;
  mipLevel : Z;
  baseArrayLayer : Z;
  layerCount : Z
}.
End VkImageSubresourceLayers.

Module VkImageCopy.
Record t := {
  srcSubresource : VkImageSubresourceLayers.t;
  srcOffset : VkOffset3D.t;
  dstSubresource : VkImageSubresourceLayers.t;
  dstOffset : VkOffset3D.t;
  extent : VkExtent3D.t
}.
End VkImageCopy.

Module VkFenceCreateInfo.
Record t := { flags : Z }.
End VkFenceCreateInfo.

Module VkSubmitInfo.
Record t := {
  waitSemaphoreCount : Z;
  commandBufferCount : Z;
  pCommandBuffers : list handle;
  signalSemaphoreCount : Z
}.
End VkSubmitInfo.

(* ================================================================== *)
(** * Calls out of the program *)
(* ================================================================== *)

Inductive printf_arg :=
| arg_int (i : Z)          (* an [int], printed with %d or %#x *)
| arg_size_t (n : Z)       (* a [size_t], printed with %zu *)
| arg_str (s : string).    (* a [char *], printed with %s *)

(** Where a query is told to write an array: [NULL] asks for the count
    only. *)
Inductive out_array := NULL | local_array.

(** One constructor per library function the program calls, with the
    arguments of the call.  The [device] and [allocator] arguments are the
    same globals in every call that has them and are not repeated here;
    pointers to structures and arrays are replaced by what they point to. *)
Inductive call :=
| puts (s : string)
| printf (format : string) (args : list printf_arg)
| exit (status : Z)
| vkEnumerateInstanceLayerProperties (pProperties : out_array)
| vkCreateInstance (pCreateInfo : VkInstanceCreateInfo.t) (pInstance : handle)
| vkEnumeratePhysicalDevices (instance : handle) (count : Z)
    (pPhysicalDevices : handle)
| vkGetPhysicalDeviceProperties (physicalDevice : handle)
| vkGetPhysicalDeviceMemoryProperties (physicalDevice : handle)
| vkGetPhysicalDeviceQueueFamilyProperties (physicalDevice : handle)
    (pQueueFamilyProperties : out_array)
| vkCreateDevice (physicalDevice : handle) (pCreateInfo : VkDeviceCreateInfo.t)
    (pDevice : handle)
| vkGetDeviceQueue (queueFamilyIndex queueIndex : Z) (pQueue : handle)
| vkCreateImage (pCreateInfo : VkImageCreateInfo.t) (pImage : handle)
| vkGetImageMemoryRequirements (image : handle)
| vkAllocateMemory (pAllocateInfo : VkMemoryAllocateInfo.t) (pMemory : handle)
| vkBindImageMemory (image memory : handle) (memoryOffset : Z)
| vkCreateImageView (pCreateInfo : VkImageViewCreateInfo.t) (pView : handle)
| vkCreateRenderPass (pCreateInfo : VkRenderPassCreateInfo.t)
    (pRenderPass : handle)
| vkCreateFramebuffer (pCreateInfo : VkFramebufferCreateInfo.t)
    (pFramebuffer : handle)
| vkCreateCommandPool (pCreateInfo : VkCommandPoolCreateInfo.t)
    (pCommandPool : handle)
| vkAllocateCommandBuffers (pAllocateInfo : VkCommandBufferAllocateInfo.t)
    (pCommandBuffers : handle)
| vkBeginCommandBuffer (commandBuffer : handle)
    (pBeginInfo : VkCommandBufferBeginInfo.t)
| vkCmdBeginRenderPass (commandBuffer : handle)
    (pRenderPassBegin : VkRenderPassBeginInfo.t) (contents : VkSubpassContents)
| vkCmdClearAttachments (commandBuffer : handle)
    (attachmentCount : Z) (pAttachments : list VkClearAttachment.t)
    (rectCount : Z) (pRects : list VkClearRect.t)
| vkCmdEndRenderPass (commandBuffer : handle)
| vkCmdPipelineBarrier (commandBuffer : handle)
    (srcStageMask dstStageMask dependencyFlags : Z)
    (memoryBarrierCount bufferMemoryBarrierCount imageMemoryBarrierCount : Z)
    (pImageMemoryBarriers : list VkImageMemoryBarrier.t)
| vkCmdCopyImage (commandBuffer : handle)
    (srcImage : handle) (srcImageLayout : VkImageLayout)
    (dstImage : handle) (dstImageLayout : VkImageLayout)
    (regionCount : Z) (pRegions : list VkImageCopy.t)
| vkEndCommandBuffer (commandBuffer : handle)
| vkCreateFence (pCreateInfo : VkFenceCreateInfo.t) (pFence : handle)
| vkQueueSubmit (queue : handle) (submitCount : Z)
    (pSubmits : list VkSubmitInfo.t) (fence : handle)
| vkWaitForFences (fenceCount : Z) (pFences : list handle) (waitAll : Z)
    (timeout : Z)
| vkMapMemory (memory : handle) (offset size flags : Z).

(** What the world outside the program answers in one run: the status
    each call returns, and what the driver writes through the pointers it
    is handed.  The program makes no two equal calls that return a
    status, so giving the status as a function of the call restricts
    nothing. *)
Record driver := {
  status : call -> VkResult;
  (** the layer names the program finds in its array after the second
      query: those the driver wrote when the two queries succeeded.  The
      program drops the status of both queries; after one that failed it
      reads a count and an array that nobody wrote, which C leaves
      indeterminate, and this field then stands for whatever it reads *)
  layerNames : list string;
  dprops : VkPhysicalDeviceProperties;
  device_memory_properties : VkPhysicalDeviceMemoryProperties;
  qprops : list VkQueueFamilyProperties;
  image_memory_requirements : handle -> VkMemoryRequirements;
  (** the four bytes at the mapped address, read as one [uint32_t] *)
  mapped_word : Z
}.

(* ================================================================== *)
(** * Running to a return or to [exit] *)
(* ================================================================== *)

Inductive outcome (A : Type) :=
| Returned (a : A)
| Exited (status : Z).
Arguments Exited {A} status.

(** A computation is the calls it makes, in order, and how it ends. *)
Definition M (A : Type) : Type := list call * outcome A.

Definition ret {A} (a : A) : M A := ([], Returned a).

Definition bind {A B} (m : M A) (k : A -> M B) : M B :=
match m with
| (t, Returned a) => let (t', o) := k a in (t ++ t', o)
| (t, Exited s) => (t, Exited s)
end.

Declare Scope run_scope.
Delimit Scope run_scope with run.
Notation "x <- c1 ;; c2" := (bind c1 (fun x => c2))
  (at level 61, c1 at next level, right associativity) : run_scope.
Notation "c1 ;; c2" := (bind c1 (fun _ => c2))
  (at level 61, right associativity) : run_scope.
Local Open Scope run_scope.

Definition trace {A} (m : M A) : list call := fst m.
Definition result {A} (m : M A) : outcome A := snd m.

(** A call whose value the program does not use. *)
Definition perform (c : call) : M unit := ([c], Returned tt).

(** [exit(status)] does not return. *)
Definition c_exit {A} (status : Z) : M A := ([exit status], Exited status).

(** [for (uint32_t i = 0; i < count; ++i) body] for a body that does not
    change [count]. *)
Fixpoint for_from (n : nat) (i : Z) (body : Z -> M unit) : M unit :=
match n with
| O => ret tt
| S n' => body i ;; for_from n' (i + 1) body
end.

Definition for_uint32 (count : Z) (body : Z -> M unit) : M unit :=
for_from (Z.to_nat count) 0 body.

Definition NL : string := String (Ascii.ascii_of_nat 10) EmptyString.

(** [a == b] as the [int] C makes of it. *)
Definition c_eq (a b : Z) : Z := if a =? b then 1 else 0.

(** [x ? "Y" : "N"] *)
Definition Y_or_N (x : Z) : string := if truthy x then "Y" else "N".

(** [void check(int condition, const char *description)] *)
Definition check (condition : Z) (description : string) : M unit :=
if negb (truthy condition) then
  perform (printf ("check condition failed: %s" ++ NL)%string
                  [arg_str description]) ;;
  c_exit (-1)
else ret tt.

(** The status with which the process ends, as its parent sees it: the
    low eight bits of the value returned from [main] or given to [exit]. *)
Definition exit_status (o : outcome Z) : Z :=
match o with
| Returned r => Z.land r 255
| Exited s => Z.land s 255
end.

(** [fmt "text"] is the C literal ["text\n"]. *)
Definition fmt (s : string) : string := (s ++ NL)%string.

(* ================================================================== *)
(** * [main] *)
(* ================================================================== *)

Definition instance_layers : list string :=
[ "VK_LAYER_LUNARG_standard_validation";
  "VK_LAYER_LUNARG_parameter_validation";
  "VK_LAYER_LUNARG_core_validation" ].

(** [COUNT(x)] *)
Definition COUNT {A} (x : list A) : Z := Z.of_nat (List.length x).

(** The element count a query writes to [*pCount] for the array it
    describes. *)
Definition count_of {A} (x : list A) : Z := Z.of_nat (List.length x).

Definition zero_queue_family : VkQueueFamilyProperties :=
{| queueFlags := 0; queueCount := 0 |}.

Definition zero_memory_heap : VkMemoryHeap :=
{| heap_size := 0; heap_flags := 0 |}.

Definition extent_400_400 : VkExtent2D.t :=
{| VkExtent2D.width := 400; VkExtent2D.height := 400 |}.

Definition offset_0_0 : VkOffset2D.t :=
{| VkOffset2D.x := 0; VkOffset2D.y := 0 |}.

Definition offset_0_0_0 : VkOffset3D.t :=
{| VkOffset3D.x := 0; VkOffset3D.y := 0; VkOffset3D.z := 0 |}.

(** The first pixel as the program takes it apart. *)
Definition red_of (pixel : Z) : Z := to_uint8 (Z.land pixel 0xff).
Definition green_of (pixel : Z) : Z :=
to_uint8 (Z.land (shr_uint32 pixel 8) 0xff).
Definition blue_of (pixel : Z) : Z :=
to_uint8 (Z.land (shr_uint32 pixel 16) 0xff).
Definition alpha_of (pixel : Z) : Z :=
to_uint8 (Z.land (shr_uint32 pixel 24) 0xff).

(** The end of the last block of [main], from [uint8_t red = ...] on. *)
Definition validate_pixel (pixel : Z) : M unit :=
let red := red_of pixel in
let green := green_of pixel in
let blue := blue_of pixel in
let alpha := alpha_of pixel in
perform (printf (fmt "r = %#x, g = %#x, b = %#x, a = %#x")
           [arg_int red; arg_int green; arg_int blue; arg_int alpha]) ;;
check (c_eq red 0xff) "red == 0xff" ;;
check (c_eq green 0xff) "green == 0xff" ;;
check (c_eq blue 0) "blue == 0" ;;
check (c_eq alpha 0xff) "alpha == 0xff".

Section Main.

Variable d : driver.

(** A call whose [VkResult] the program looks at. *)
Definition invoke (c : call) : M VkResult := ([c], Returned (status d c)).

(** The globals [memory_properties] and [queue_family_index] are written
    once, in the third block of [main], and only read after that. *)
Definition memory_properties : VkPhysicalDeviceMemoryProperties :=
device_memory_properties d.

Definition queue_family_index : Z := 0.

(* Query the instance layers offered by the system *)
Definition query_instance_layers : M unit :=
perform (vkEnumerateInstanceLayerProperties NULL) ;;
let count := count_of (layerNames d) in
perform (vkEnumerateInstanceLayerProperties local_array) ;;
perform (puts "Available layers:") ;;
for_uint32 count (fun i =>
  perform (printf (fmt "%s") [arg_str (subscript "" (layerNames d) i)])) ;;
perform (puts "").

Definition instance_args : VkInstanceCreateInfo.t :=
{| VkInstanceCreateInfo.enabledLayerCount := COUNT instance_layers;
   VkInstanceCreateInfo.ppEnabledLayerNames := instance_layers |}.

(* Create an instance of the Vulkan API *)
Definition create_instance : M unit :=
let args := instance_args in
res <- invoke (vkCreateInstance args instance) ;;
check (c_eq res VK_SUCCESS) "".

Definition print_memory_type (i : Z) : M unit :=
let ty := subscript zero_memory_type (memoryTypes memory_properties) i in
perform (printf (fmt "Memory type #%d") [arg_int (to_int i)]) ;;
perform (printf (fmt "Heap index: %d") [arg_int (to_int (heapIndex ty))]) ;;
perform (printf (fmt "DEVICE_LOCAL: %s")
  [arg_str (Y_or_N (Z.land (propertyFlags ty) VK_MEMORY_PROPERTY_DEVICE_LOCAL_BIT))]) ;;
perform (printf (fmt "HOST_VISIBLE: %s")
  [arg_str (Y_or_N (Z.land (propertyFlags ty) VK_MEMORY_PROPERTY_HOST_VISIBLE_BIT))]) ;;
perform (printf (fmt "HOST_COHERENT: %s")
  [arg_str (Y_or_N (Z.land (propertyFlags ty) VK_MEMORY_PROPERTY_HOST_COHERENT_BIT))]) ;;
perform (printf (fmt "HOST_CACHED: %s")
  [arg_str (Y_or_N (Z.land (propertyFlags ty) VK_MEMORY_PROPERTY_HOST_CACHED_BIT))]) ;;
perform (printf (fmt "LAZILY_ALLOCATED: %s")
  [arg_str (Y_or_N (Z.land (propertyFlags ty) VK_MEMORY_PROPERTY_LAZILY_ALLOCATED_BIT))]) ;;
perform (puts "").

Definition print_memory_heap (i : Z) : M unit :=
let heap := subscript zero_memory_heap (memoryHeaps memory_properties) i in
perform (printf (fmt "Memory heap #%d") [arg_int (to_int i)]) ;;
perform (printf (fmt "Size: %zu") [arg_size_t (heap_size heap)]) ;;
perform (printf (fmt "DEVICE_LOCAL: %s")
  [arg_str (Y_or_N (Z.land (heap_flags heap) VK_MEMORY_HEAP_DEVICE_LOCAL_BIT))]) ;;
perform (puts "").

Definition print_queue_family (i : Z) : M unit :=
let q := subscript zero_queue_family (qprops d) i in
perform (printf (fmt "Queue family #%d:") [arg_int (to_int i)]) ;;
perform (printf (fmt "GRAPHICS_BIT: %s")
  [arg_str (Y_or_N (Z.land (queueFlags q) VK_QUEUE_GRAPHICS_BIT))]) ;;
perform (printf (fmt "COMPUTE_BIT: %s")
  [arg_str (Y_or_N (Z.land (queueFlags q) VK_QUEUE_COMPUTE_BIT))]) ;;
perform (printf (fmt "TRANSFER_BIT: %s")
  [arg_str (Y_or_N (Z.land (queueFlags q) VK_QUEUE_TRANSFER_BIT))]) ;;
perform (puts "").

(** The condition of the [check] on the queue family: the flags of family
    [queue_family_index], masked, passed as [check]'s [int]. *)
Definition queue_family_condition (flags : Z) : Z :=
to_int (Z.land flags (Z.lor VK_QUEUE_GRAPHICS_BIT VK_QUEUE_TRANSFER_BIT)).

(* Find a GPU to render with and grab its properties *)
Definition find_gpu : M unit :=
let count := 1 in
res <- invoke (vkEnumeratePhysicalDevices instance count physical_device) ;;
check (c_eq res VK_SUCCESS) "" ;;
perform (vkGetPhysicalDeviceProperties physical_device) ;;
perform (printf (fmt "API version: %d") [arg_int (to_int (apiVersion (dprops d)))]) ;;
perform (printf (fmt "Driver version: %d")
           [arg_int (to_int (driverVersion (dprops d)))]) ;;
perform (printf (fmt "Vendor ID: %d") [arg_int (to_int (vendorID (dprops d)))]) ;;
perform (printf (fmt "Device ID: %d") [arg_int (to_int (deviceID (dprops d)))]) ;;
perform (printf (fmt "Device name: %s") [arg_str (deviceName (dprops d))]) ;;
perform (puts "") ;;
perform (vkGetPhysicalDeviceMemoryProperties physical_device) ;;
for_uint32 (memoryTypeCount memory_properties) print_memory_type ;;
for_uint32 (memoryHeapCount memory_properties) print_memory_heap ;;
perform (vkGetPhysicalDeviceQueueFamilyProperties physical_device NULL) ;;
let count := count_of (qprops d) in
perform (vkGetPhysicalDeviceQueueFamilyProperties physical_device local_array) ;;
for_uint32 count print_queue_family ;;
(* queue_family_index = 0; *)
check (queue_family_condition
         (queueFlags (subscript zero_queue_family (qprops d) queue_family_index)))
      "".

Definition queue_args : VkDeviceQueueCreateInfo.t :=
{| VkDeviceQueueCreateInfo.queueFamilyIndex := queue_family_index;
   VkDeviceQueueCreateInfo.queueCount := 1;
   VkDeviceQueueCreateInfo.pQueuePriorities := [1%Q] |}.

Definition device_args : VkDeviceCreateInfo.t :=
{| VkDeviceCreateInfo.queueCreateInfoCount := 1;
   VkDeviceCreateInfo.pQueueCreateInfos := [queue_args] |}.

(* Create a connection from the Vulkan API to the GPU *)
Definition create_device : M unit :=
let args := device_args in
res <- invoke (vkCreateDevice physical_device args device) ;;
check (c_eq res VK_SUCCESS) "vkCreateDevice" ;;
perform (vkGetDeviceQueue queue_family_index 0 queue).

Definition write_image_args : VkImageCreateInfo.t :=
{| VkImageCreateInfo.format := VK_FORMAT_R8G8B8A8_UNORM;
   VkImageCreateInfo.imageType := VK_IMAGE_TYPE_2D;
   VkImageCreateInfo.extent :=
     {| VkExtent3D.width := 400; VkExtent3D.height := 400;
        VkExtent3D.depth := 1 |};
   VkImageCreateInfo.tiling := VK_IMAGE_TILING_OPTIMAL;
   VkImageCreateInfo.usage :=
     Z.lor VK_IMAGE_USAGE_COLOR_ATTACHMENT_BIT VK_IMAGE_USAGE_TRANSFER_SRC_BIT;
   VkImageCreateInfo.initialLayout := VK_IMAGE_LAYOUT_UNDEFINED;
   VkImageCreateInfo.mipLevels := 1;
   VkImageCreateInfo.arrayLayers := 1;
   VkImageCreateInfo.samples := VK_SAMPLE_COUNT_1_BIT;
   VkImageCreateInfo.sharingMode := VK_SHARING_MODE_EXCLUSIVE |}.

(* Create the write_image to render to *)
Definition create_write_image : M unit :=
res <- invoke (vkCreateImage write_image_args write_image) ;;
check (c_eq res VK_SUCCESS) "vkCreateImage(write_image)".

Definition color_view_args (image : handle) : VkImageViewCreateInfo.t :=
{| VkImageViewCreateInfo.image := image;
   VkImageViewCreateInfo.viewType := VK_IMAGE_VIEW_TYPE_2D;
   VkImageViewCreateInfo.format := VK_FORMAT_R8G8B8A8_UNORM;
   VkImageViewCreateInfo.subresourceRange :=
     {| VkImageSubresourceRange.aspectMask := VK_IMAGE_ASPECT_COLOR_BIT;
        VkImageSubresourceRange.baseMipLevel := 0;
        VkImageSubresourceRange.levelCount := VK_REMAINING_MIP_LEVELS;
        VkImageSubresourceRange.baseArrayLayer := 0;
        VkImageSubresourceRange.layerCount := 1 |} |}.

Definition allocate_args (reqs : VkMemoryRequirements) (memory_type : Z)
  : VkMemoryAllocateInfo.t :=
{| VkMemoryAllocateInfo.allocationSize := size reqs;
   VkMemoryAllocateInfo.memoryTypeIndex := memory_type |}.

(* Create and bind memory to the write_image *)
Definition bind_write_image_memory : M unit :=
perform (vkGetImageMemoryRequirements write_image) ;;
let reqs := image_memory_requirements d write_image in
let desired_flags := VK_MEMORY_PROPERTY_DEVICE_LOCAL_BIT in
(* [memory_type] is not initialised; selection does not read it *)
let '(res, memory_type) :=
  find_appropriate_memory_type memory_properties reqs desired_flags 0 in
check (c_eq res 0) "find_appropriate_memory_type for write_image" ;;
perform (printf (fmt "Chosen memory type for write_image: %d")
           [arg_int (to_int memory_type)]) ;;
perform (puts "") ;;
let margs := allocate_args reqs memory_type in
res <- invoke (vkAllocateMemory margs write_image_memory) ;;
check (c_eq res VK_SUCCESS) "vkAllocateMemory(write_image)" ;;
res <- invoke (vkBindImageMemory write_image write_image_memory 0) ;;
check (c_eq res VK_SUCCESS) "vkBindImageMemory(write_image)" ;;
res <- invoke (vkCreateImageView (color_view_args write_image) write_image_view) ;;
check (c_eq res VK_SUCCESS) "vkCreateImageView(write_image)".

Definition read_image_args : VkImageCreateInfo.t :=
{| VkImageCreateInfo.format := VK_FORMAT_R8G8B8A8_UNORM;
   VkImageCreateInfo.imageType := VK_IMAGE_TYPE_2D;
   VkImageCreateInfo.extent :=
     {| VkExtent3D.width := 400; VkExtent3D.height := 400;
        VkExtent3D.depth := 1 |};
   VkImageCreateInfo.tiling := VK_IMAGE_TILING_LINEAR;
   VkImageCreateInfo.usage :=
     Z.lor VK_IMAGE_USAGE_TRANSFER_DST_BIT VK_IMAGE_USAGE_SAMPLED_BIT;
   VkImageCreateInfo.initialLayout := VK_IMAGE_LAYOUT_UNDEFINED;
   VkImageCreateInfo.mipLevels := 1;
   VkImageCreateInfo.arrayLayers := 1;
   VkImageCreateInfo.samples := VK_SAMPLE_COUNT_1_BIT;
   VkImageCreateInfo.sharingMode := VK_SHARING_MODE_EXCLUSIVE |}.

(* Create the read_image to copy the render result to *)
Definition create_read_image : M unit :=
res <- invoke (vkCreateImage read_image_args read_image) ;;
check (c_eq res VK_SUCCESS) "vkCreateImage(read_image)".

(* Create and bind memory to the read_image *)
Definition bind_read_image_memory : M unit :=
perform (vkGetImageMemoryRequirements read_image) ;;
let reqs := image_memory_requirements d read_image in
let desired_flags := VK_MEMORY_PROPERTY_HOST_VISIBLE_BIT in
let '(res, memory_type) :=
  find_appropriate_memory_type memory_properties reqs desired_flags 0 in
check (c_eq res 0) "find_appropriate_memory_type for read_image" ;;
perform (printf (fmt "Chosen memory type for write_image: %d")
           [arg_int (to_int memory_type)]) ;;
perform (puts "") ;;
let margs := allocate_args reqs memory_type in
res <- invoke (vkAllocateMemory margs read_image_memory) ;;
check (c_eq res VK_SUCCESS) "vkAllocateMemory(read_image)" ;;
res <- invoke (vkBindImageMemory read_image read_image_memory 0) ;;
check (c_eq res VK_SUCCESS) "vkBindImageMemory(read_image)" ;;
res <- invoke (vkCreateImageView (color_view_args read_image) read_image_view) ;;
check (c_eq res VK_SUCCESS) "vkCreateImageView(read_image)".

Definition color_attachment : VkAttachmentDescription.t :=
{| VkAttachmentDescription.format := VK_FORMAT_R8G8B8A8_UNORM;
   VkAttachmentDescription.samples := 1;
   VkAttachmentDescription.loadOp := VK_ATTACHMENT_LOAD_OP_DONT_CARE;
   VkAttachmentDescription.storeOp := VK_ATTACHMENT_STORE_OP_STORE;
   VkAttachmentDescription.initialLayout := VK_IMAGE_LAYOUT_UNDEFINED;
   VkAttachmentDescription.finalLayout :=
     VK_IMAGE_LAYOUT_COLOR_ATTACHMENT_OPTIMAL |}.

Definition color_attachment_reference : VkAttachmentReference.t :=
{| VkAttachmentReference.layout := VK_IMAGE_LAYOUT_COLOR_ATTACHMENT_OPTIMAL;
   VkAttachmentReference.attachment := 0 |}.

Definition subpass_description : VkSubpassDescription.t :=
{| VkSubpassDescription.pipelineBindPoint := VK_PIPELINE_BIND_POINT_GRAPHICS;
   VkSubpassDescription.colorAttachmentCount := 1;
   VkSubpassDescription.pColorAttachments := [color_attachment_reference] |}.

Definition render_pass_args : VkRenderPassCreateInfo.t :=
{| VkRenderPassCreateInfo.attachmentCount := 1;
   VkRenderPassCreateInfo.pAttachments := [color_attachment];
   VkRenderPassCreateInfo.subpassCount := 1;
   VkRenderPassCreateInfo.pSubpasses := [subpass_description];
   VkRenderPassCreateInfo.dependencyCount := 0 |}.

(* Create the graphics pipeline *)
Definition create_render_pass : M unit :=
let args := render_pass_args in
res <- invoke (vkCreateRenderPass args render_pass) ;;
check (c_eq res VK_SUCCESS) "vkCreateRenderPass".

Definition framebuffer_args : VkFramebufferCreateInfo.t :=
{| VkFramebufferCreateInfo.width := 400;
   VkFramebufferCreateInfo.height := 400;
   VkFramebufferCreateInfo.layers := 1;
   VkFramebufferCreateInfo.attachmentCount := 1;
   VkFramebufferCreateInfo.pAttachments := [write_image_view];
   VkFramebufferCreateInfo.renderPass := render_pass |}.

(* Create a framebuffer to render to *)
Definition create_framebuffer : M unit :=
let args := framebuffer_args in
res <- invoke (vkCreateFramebuffer args framebuffer) ;;
check (c_eq res VK_SUCCESS) "vkFramebufferCreateInfo".

Definition command_pool_args : VkCommandPoolCreateInfo.t :=
{| VkCommandPoolCreateInfo.queueFamilyIndex := queue_family_index |}.

(* Create a command pool in order to create a command buffer *)
Definition create_command_pool : M unit :=
let args := command_pool_args in
res <- invoke (vkCreateCommandPool args command_pool) ;;
check (c_eq res VK_SUCCESS) "vkCommandPoolCreateInfo".

Definition command_buffer_args : VkCommandBufferAllocateInfo.t :=
{| VkCommandBufferAllocateInfo.commandPool := command_pool;
   VkCommandBufferAllocateInfo.level := VK_COMMAND_BUFFER_LEVEL_PRIMARY;
   VkCommandBufferAllocateInfo.commandBufferCount := 1 |}.

(* Create a command buffer from the command pool *)
Definition create_command_buffer : M unit :=
let args := command_buffer_args in
res <- invoke (vkAllocateCommandBuffers args command_buffer) ;;
check (c_eq res VK_SUCCESS) "vkAllocateCommandBuffers".

Definition begin_args : VkCommandBufferBeginInfo.t :=
{| VkCommandBufferBeginInfo.flags :=
     VK_COMMAND_BUFFER_USAGE_ONE_TIME_SUBMIT_BIT |}.

(* Commence recording commands *)
Definition commence_recording : M unit :=
res <- invoke (vkBeginCommandBuffer command_buffer begin_args) ;;
check (c_eq res VK_SUCCESS) "vkBeginCommandBuffer".

Definition render_pass_begin_args : VkRenderPassBeginInfo.t :=
{| VkRenderPassBeginInfo.renderPass := render_pass;
   VkRenderPassBeginInfo.framebuffer := framebuffer;
   VkRenderPassBeginInfo.renderArea :=
     {| VkRect2D.offset := offset_0_0; VkRect2D.extent := extent_400_400 |};
   VkRenderPassBeginInfo.clearValueCount := 0 |}.

(* Begin recording rendering commands *)
Definition begin_rendering : M unit :=
let contents := VK_SUBPASS_CONTENTS_INLINE in
perform (vkCmdBeginRenderPass command_buffer render_pass_begin_args contents).

Definition clear_rect : VkClearRect.t :=
{| VkClearRect.layerCount := 1;
   VkClearRect.baseArrayLayer := 0;
   VkClearRect.rect :=
     {| VkRect2D.offset := offset_0_0; VkRect2D.extent := extent_400_400 |} |}.

Definition clear_args : VkClearAttachment.t :=
{| VkClearAttachment.aspectMask := VK_IMAGE_ASPECT_COLOR_BIT;
   VkClearAttachment.colorAttachment := 0;
   VkClearAttachment.clearValue_color_float32 := [1%Q; 1%Q; 0%Q; 1%Q] |}.

(* Clear the color attachment *)
Definition clear_color_attachment : M unit :=
perform (vkCmdClearAttachments command_buffer 1 [clear_args] 1 [clear_rect]) ;;
perform (vkCmdEndRenderPass command_buffer).

Definition whole_color_range : VkImageSubresourceRange.t :=
{| VkImageSubresourceRange.aspectMask := VK_IMAGE_ASPECT_COLOR_BIT;
   VkImageSubresourceRange.baseMipLevel := 0;
   VkImageSubresourceRange.levelCount := VK_REMAINING_MIP_LEVELS;
   VkImageSubresourceRange.baseArrayLayer := 0;
   VkImageSubresourceRange.layerCount := VK_REMAINING_ARRAY_LAYERS |}.

Definition transfer_barriers : list VkImageMemoryBarrier.t :=
[ {| VkImageMemoryBarrier.srcAccessMask := 0;
     VkImageMemoryBarrier.dstAccessMask := VK_ACCESS_TRANSFER_WRITE_BIT;
     VkImageMemoryBarrier.oldLayout := VK_IMAGE_LAYOUT_UNDEFINED;
     VkImageMemoryBarrier.newLayout := VK_IMAGE_LAYOUT_TRANSFER_DST_OPTIMAL;
     VkImageMemoryBarrier.srcQueueFamilyIndex := queue_family_index;
     VkImageMemoryBarrier.dstQueueFamilyIndex := queue_family_index;
     VkImageMemoryBarrier.image := read_image;
     VkImageMemoryBarrier.subresourceRange := whole_color_range |};
  {| VkImageMemoryBarrier.srcAccessMask := VK_ACCESS_COLOR_ATTACHMENT_WRITE_BIT;
     VkImageMemoryBarrier.dstAccessMask := VK_ACCESS_TRANSFER_READ_BIT;
     VkImageMemoryBarrier.oldLayout := VK_IMAGE_LAYOUT_COLOR_ATTACHMENT_OPTIMAL;
     VkImageMemoryBarrier.newLayout := VK_IMAGE_LAYOUT_TRANSFER_SRC_OPTIMAL;
     VkImageMemoryBarrier.srcQueueFamilyIndex := queue_family_index;
     VkImageMemoryBarrier.dstQueueFamilyIndex := queue_family_index;
     VkImageMemoryBarrier.image := write_image;
     VkImageMemoryBarrier.subresourceRange := whole_color_range |} ].

(* Use pipeline barrier to transition the image layouts *)
Definition transition_for_transfer : M unit :=
let src_stage := VK_PIPELINE_STAGE_COLOR_ATTACHMENT_OUTPUT_BIT in
let dst_stage := VK_PIPELINE_STAGE_TRANSFER_BIT in
let dependencies := 0 in
let generic_memory_barrier_count := 0 in
let buffer_memory_barrier_count := 0 in
let image_memory_barrier_count := 2 in
let image_memory_barriers := transfer_barriers in
perform (vkCmdPipelineBarrier command_buffer src_stage dst_stage dependencies
           generic_memory_barrier_count buffer_memory_barrier_count
           image_memory_barrier_count image_memory_barriers).

Definition color_layer : VkImageSubresourceLayers.t :=
{| VkImageSubresourceLayers.aspectMask := VK_IMAGE_ASPECT_COLOR_BIT;
   VkImageSubresourceLayers.mipLevel := 0;
   VkImageSubresourceLayers.baseArrayLayer := 0;
   VkImageSubresourceLayers.layerCount := 1 |}.

Definition region : VkImageCopy.t :=
{| VkImageCopy.srcSubresource := color_layer;
   VkImageCopy.srcOffset := offset_0_0_0;
   VkImageCopy.dstSubresource := color_layer;
   VkImageCopy.dstOffset := offset_0_0_0;
   VkImageCopy.extent :=
     {| VkExtent3D.width := 400; VkExtent3D.height := 400;
        VkExtent3D.depth := 1 |} |}.

(* Finish the render pass and copy the results to our read_image *)
Definition copy_to_read_image : M unit :=
perform (vkCmdCopyImage command_buffer
           write_image VK_IMAGE_LAYOUT_TRANSFER_SRC_OPTIMAL
           read_image VK_IMAGE_LAYOUT_TRANSFER_DST_OPTIMAL
           1 [region]).

Definition host_barriers : list VkImageMemoryBarrier.t :=
[ {| VkImageMemoryBarrier.srcAccessMask := VK_ACCESS_TRANSFER_WRITE_BIT;
     VkImageMemoryBarrier.dstAccessMask := VK_ACCESS_HOST_READ_BIT;
     VkImageMemoryBarrier.oldLayout := VK_IMAGE_LAYOUT_TRANSFER_DST_OPTIMAL;
     VkImageMemoryBarrier.newLayout := VK_IMAGE_LAYOUT_GENERAL;
     VkImageMemoryBarrier.srcQueueFamilyIndex := queue_family_index;
     VkImageMemoryBarrier.dstQueueFamilyIndex := queue_family_index;
     VkImageMemoryBarrier.image := read_image;
     VkImageMemoryBarrier.subresourceRange := whole_color_range |} ].

(* Use another pipeline barrier to transition the read_image for reading *)
Definition transition_for_reading : M unit :=
let src_stage := VK_PIPELINE_STAGE_TRANSFER_BIT in
let dst_stage := VK_PIPELINE_STAGE_HOST_BIT in
let dependencies := 0 in
let generic_memory_barrier_count := 0 in
let buffer_memory_barrier_count := 0 in
let image_memory_barrier_count := 1 in
let image_memory_barriers := host_barriers in
perform (vkCmdPipelineBarrier command_buffer src_stage dst_stage dependencies
           generic_memory_barrier_count buffer_memory_barrier_count
           image_memory_barrier_count image_memory_barriers).

(* Stop recording commands *)
Definition stop_recording : M unit :=
res <- invoke (vkEndCommandBuffer command_buffer) ;;
check (c_eq res VK_SUCCESS) "vkEndCommandBuffer".

Definition fence_args : VkFenceCreateInfo.t :=
{| VkFenceCreateInfo.flags := 0 |}.

(* Create a fence to signal the completion of GPU work *)
Definition create_fence : M unit :=
res <- invoke (vkCreateFence fence_args fence) ;;
check (c_eq res VK_SUCCESS) "vkCreateFence".

Definition submit_args : VkSubmitInfo.t :=
{| VkSubmitInfo.waitSemaphoreCount := 0;
   VkSubmitInfo.commandBufferCount := 1;
   VkSubmitInfo.pCommandBuffers := [command_buffer];
   VkSubmitInfo.signalSemaphoreCount := 0 |}.

(* Submit command buffer into the queue *)
Definition submit_command_buffer : M unit :=
res <- invoke (vkQueueSubmit queue 1 [submit_args] fence) ;;
check (c_eq res VK_SUCCESS) "vkQueueSubmit".

(* Wait for GPU work to complete *)
Definition wait_for_completion : M unit :=
res <- invoke (vkWaitForFences 1 [fence] VK_TRUE UINT64_MAX) ;;
check (c_eq res VK_SUCCESS) "vkWaitForFence".

(* Read back the results *)
Definition read_back : M unit :=
let offset := 0 in
let size := VK_WHOLE_SIZE in
res <- invoke (vkMapMemory read_image_memory offset size 0) ;;
check (c_eq res VK_SUCCESS) "vkMapMemory" ;;
let pixel := mapped_word d in
validate_pixel pixel.

(** [int main(int argc, char **argv)]; the arguments are not used. *)
Definition main : M Z :=
query_instance_layers ;;
create_instance ;;
find_gpu ;;
create_device ;;
create_write_image ;;
bind_write_image_memory ;;
create_read_image ;;
bind_read_image_memory ;;
create_render_pass ;;
create_framebuffer ;;
create_command_pool ;;
create_command_buffer ;;
commence_recording ;;
begin_rendering ;;
clear_color_attachment ;;
transition_for_transfer ;;
copy_to_read_image ;;
transition_for_reading ;;
stop_recording ;;
create_fence ;;
submit_command_buffer ;;
wait_for_completion ;;
read_back ;;
ret 0.

End Main.

(* ================================================================== *)
(** * What the properties below speak about *)
(* ================================================================== *)

(** ** Memory types *)

(** [flags] has every bit of [required]. *)
Definition flags_superset (flags required : Z) : Prop :=
forall n, 0 <= n -> Z.testbit required n = true -> Z.testbit flags n = true.

(** Memory type [i] of the table is allowed by the mask of the
    requirements and has all the required property flags. *)
Definition suitable (mp : VkPhysicalDeviceMemoryProperties)
  (reqs : VkMemoryRequirements) (props : Z) (i : Z) : Prop :=
Z.testbit (memoryTypeBits reqs) i = true /\
flags_superset (propertyFlags (subscript zero_memory_type (memoryTypes mp) i))
               props.

(** The test the loop body makes on index [j]. *)
Definition accepts (mp : VkPhysicalDeviceMemoryProperties)
  (reqs : VkMemoryRequirements) (props : Z) (j : Z) : bool :=
type_is_compatible reqs j && type_has_props mp props j.

(** A table as the driver hands it out: at most [VK_MAX_MEMORY_TYPES]
    entries in use, in an array of that length. *)
Definition wf_memory_properties (mp : VkPhysicalDeviceMemoryProperties) : Prop :=
0 <= memoryTypeCount mp <= VK_MAX_MEMORY_TYPES /\
Z.of_nat (List.length (memoryTypes mp)) = VK_MAX_MEMORY_TYPES /\
Forall (fun ty => is_uint32 (propertyFlags ty)) (memoryTypes mp).

Definition wf_memory_requirements (reqs : VkMemoryRequirements) : Prop :=
is_uint32 (memoryTypeBits reqs).

(** ** Drivers *)

(** The answers of a driver the program can meet: the tables have the
    shape the header gives them, there is a queue family to look at, and
    what is read as [uint32_t] is one. *)
Definition wf_driver (d : driver) : Prop :=
wf_memory_properties (device_memory_properties d) /\
wf_memory_requirements (image_memory_requirements d write_image) /\
wf_memory_requirements (image_memory_requirements d read_image) /\
qprops d <> [] /\
is_uint32 (queueFlags (subscript zero_queue_family (qprops d) 0)) /\
is_uint32 (mapped_word d).

(** ** Calls of one kind *)

(** The calls that act on the command buffer: begin, the recorded
    commands, end, and submission. *)
Definition is_command_buffer_call (c : call) : bool :=
match c with
| vkBeginCommandBuffer _ _ | vkCmdBeginRenderPass _ _ _
| vkCmdClearAttachments _ _ _ _ _ | vkCmdEndRenderPass _
| vkCmdPipelineBarrier _ _ _ _ _ _ _ _ | vkCmdCopyImage _ _ _ _ _ _ _
| vkEndCommandBuffer _ | vkQueueSubmit _ _ _ _ => true
| _ => false
end.

(** The commands recorded into a command buffer. *)
Definition is_recorded_command (c : call) : bool :=
match c with
| vkCmdBeginRenderPass _ _ _ | vkCmdClearAttachments _ _ _ _ _
| vkCmdEndRenderPass _ | vkCmdPipelineBarrier _ _ _ _ _ _ _ _
| vkCmdCopyImage _ _ _ _ _ _ _ => true
| _ => false
end.

(** The calls that take or signal a fence. *)
Definition is_fence_call (c : call) : bool :=
match c with
| vkCreateFence _ _ | vkQueueSubmit _ _ _ _ | vkWaitForFences _ _ _ _ => true
| _ => false
end.

(** The driver calls that allocate memory for [image] or bind memory to
    it. *)
Definition memory_of (image : handle) : handle :=
match image with
| write_image => write_image_memory
| _ => read_image_memory
end.

Definition is_allocation_for (image : handle) (c : call) : bool :=
match c with
| vkAllocateMemory _ pMemory => handle_eqb pMemory (memory_of image)
| vkBindImageMemory img _ _ => handle_eqb img image
| _ => false
end.

Definition is_exit (c : call) : bool :=
match c with exit _ => true | _ => false end.

(** The calls whose [VkResult] the C library hands back to the program. *)
Definition returns_VkResult (c : call) : bool :=
match c with
| vkEnumerateInstanceLayerProperties _
| vkCreateInstance _ _ | vkEnumeratePhysicalDevices _ _ _
| vkCreateDevice _ _ _ | vkCreateImage _ _ | vkAllocateMemory _ _
| vkBindImageMemory _ _ _ | vkCreateImageView _ _ | vkCreateRenderPass _ _
| vkCreateFramebuffer _ _ | vkCreateCommandPool _ _
| vkAllocateCommandBuffers _ _ | vkBeginCommandBuffer _ _
| vkEndCommandBuffer _ | vkCreateFence _ _ | vkQueueSubmit _ _ _ _
| vkWaitForFences _ _ _ _ | vkMapMemory _ _ _ _ => true
| _ => false
end.

(** What [check] prints and does when its condition is false. *)
Definition failure_report (description : string) : list call :=
[ printf (fmt "check condition failed: %s") [arg_str description];
  exit (-1) ].

(** ** A tracker of image layouts *)

(** The tracker follows a sequence of calls and keeps, for every image
    created so far, the layout the calls have established for it: the
    initial layout at creation, then the new layout of every barrier on
    the image, and the final layout of each attachment when a render pass
    ends.  It refuses a barrier whose old layout, or a copy whose source
    or destination layout, is not the layout it holds for that image. *)
Record tracker := {
  layouts : list (handle * VkImageLayout);
  view_images : list (handle * handle);
  pass_attachments : list (handle * list VkAttachmentDescription.t);
  framebuffer_views : list (handle * list handle);
  in_render_pass : option (handle * handle)
}.

Definition no_images : tracker :=
{| layouts := []; view_images := []; pass_attachments := [];
   framebuffer_views := []; in_render_pass := None |}.

Fixpoint lookup {A} (h : handle) (l : list (handle * A)) : option A :=
match l with
| [] => None
| (h', a) :: l' => if handle_eqb h h' then Some a else lookup h l'
end.

Definition tracked_layout (st : tracker) (image : handle) : option VkImageLayout :=
lookup image (layouts st).

Definition set_layout (st : tracker) (image : handle) (l : VkImageLayout) : tracker :=
{| layouts := (image, l) :: layouts st;
   view_images := view_images st;
   pass_attachments := pass_attachments st;
   framebuffer_views := framebuffer_views st;
   in_render_pass := in_render_pass st |}.

Definition holds_layout (st : tracker) (image : handle) (l : VkImageLayout) : bool :=
match tracked_layout st image with
| Some l' => VkImageLayout_eqb l l'
| None => false
end.

(** One image barrier: the declared old layout must be the tracked one. *)
Definition track_barrier (st : tracker) (b : VkImageMemoryBarrier.t) : option tracker :=
if holds_layout st (VkImageMemoryBarrier.image b) (VkImageMemoryBarrier.oldLayout b)
then Some (set_layout st (VkImageMemoryBarrier.image b)
                         (VkImageMemoryBarrier.newLayout b))
else None.

Fixpoint track_barriers (st : tracker) (bs : list VkImageMemoryBarrier.t)
  : option tracker :=
match bs with
| [] => Some st
| b :: bs' =>
    match track_barrier st b with
    | Some st' => track_barriers st' bs'
    | None => None
    end
end.

(** The end of a render pass leaves every attachment of the framebuffer
    in the final layout its description names. *)
Fixpoint finish_attachments (st : tracker)
  (descriptions : list VkAttachmentDescription.t) (views : list handle) : tracker :=
match descriptions, views with
| a :: descriptions', v :: views' =>
    let st' :=
      match lookup v (view_images st) with
      | Some image => set_layout st image (VkAttachmentDescription.finalLayout a)
      | None => st
      end in
    finish_attachments st' descriptions' views'
| _, _ => st
end.

Definition track_call (st : tracker) (c : call) : option tracker :=
match c with
| vkCreateImage args image =>
    Some (set_layout st image (VkImageCreateInfo.initialLayout args))
| vkCreateImageView args view =>
    Some {| layouts := layouts st;
            view_images := (view, VkImageViewCreateInfo.image args) :: view_images st;
            pass_attachments := pass_attachments st;
            framebuffer_views := framebuffer_views st;
            in_render_pass := in_render_pass st |}
| vkCreateRenderPass args pass =>
    Some {| layouts := layouts st;
            view_images := view_images st;
            pass_attachments :=
              (pass, VkRenderPassCreateInfo.pAttachments args) :: pass_attachments st;
            framebuffer_views := framebuffer_views st;
            in_render_pass := in_render_pass st |}
| vkCreateFramebuffer args fb =>
    Some {| layouts := layouts st;
            view_images := view_images st;
            pass_attachments := pass_attachments st;
            framebuffer_views :=
              (fb, VkFramebufferCreateInfo.pAttachments args) :: framebuffer_views st;
            in_render_pass := in_render_pass st |}
| vkCmdBeginRenderPass _ args _ =>
    Some {| layouts := layouts st;
            view_images := view_images st;
            pass_attachments := pass_attachments st;
            framebuffer_views := framebuffer_views st;
            in_render_pass :=
              Some (VkRenderPassBeginInfo.renderPass args,
                    VkRenderPassBeginInfo.framebuffer args) |}
| vkCmdEndRenderPass _ =>
    match in_render_pass st with
    | Some (pass, fb) =>
        match lookup pass (pass_attachments st), lookup fb (framebuffer_views st) with
        | Some descriptions, Some views =>
            let st' := finish_attachments st descriptions views in
            Some {| layouts := layouts st';
                    view_images := view_images st';
                    pass_attachments := pass_attachments st';
                    framebuffer_views := framebuffer_views st';
                    in_render_pass := None |}
        | _, _ => Some st
        end
    | None => Some st
    end
| vkCmdPipelineBarrier _ _ _ _ _ _ _ barriers => track_barriers st barriers
| vkCmdCopyImage _ src srcLayout dst dstLayout _ _ =>
    if holds_layout st src srcLayout && holds_layout st dst dstLayout
    then Some st else None
| _ => Some st
end.

Fixpoint track_calls (st : tracker) (cs : list call) : option tracker :=
match cs with
| [] => Some st
| c :: cs' =>
    match track_call st c with
    | Some st' => track_calls st' cs'
    | None => None
    end
end.

(** The layouts a call declares for an image it uses: the old layout
    of each of a barrier's transitions, and the two layouts of a copy. *)
Definition declared_layouts (c : call) : list (handle * VkImageLayout) :=
match c with
| vkCmdPipelineBarrier _ _ _ _ _ _ _ barriers =>
    map (fun b => (VkImageMemoryBarrier.image b, VkImageMemoryBarrier.oldLayout b))
        barriers
| vkCmdCopyImage _ src srcLayout dst dstLayout _ _ =>
    [(src, srcLayout); (dst, dstLayout)]
| _ => []
end.

(** ** The calls on the command buffer *)

Definition barrier_A : call :=
vkCmdPipelineBarrier command_buffer
  VK_PIPELINE_STAGE_COLOR_ATTACHMENT_OUTPUT_BIT VK_PIPELINE_STAGE_TRANSFER_BIT 0
  0 0 2 transfer_barriers.

Definition barrier_B : call :=
vkCmdPipelineBarrier command_buffer
  VK_PIPELINE_STAGE_TRANSFER_BIT VK_PIPELINE_STAGE_HOST_BIT 0
  0 0 1 host_barriers.

Definition the_copy : call :=
vkCmdCopyImage command_buffer
  write_image VK_IMAGE_LAYOUT_TRANSFER_SRC_OPTIMAL
  read_image VK_IMAGE_LAYOUT_TRANSFER_DST_OPTIMAL 1 [region].

Definition recorded_commands : list call :=
[ vkCmdBeginRenderPass command_buffer render_pass_begin_args
    VK_SUBPASS_CONTENTS_INLINE;
  vkCmdClearAttachments command_buffer 1 [clear_args] 1 [clear_rect];
  vkCmdEndRenderPass command_buffer;
  barrier_A;
  the_copy;
  barrier_B ].

Definition the_begin : call := vkBeginCommandBuffer command_buffer begin_args.
Definition the_end : call := vkEndCommandBuffer command_buffer.
Definition the_submit : call := vkQueueSubmit queue 1 [submit_args] fence.
Definition the_wait : call := vkWaitForFences 1 [fence] VK_TRUE UINT64_MAX.
Definition the_fence_creation : call := vkCreateFence fence_args fence.

(** ** The pixel *)

(** The word a little-endian host reads from four bytes in memory. *)
Definition little_endian_word (b0 b1 b2 b3 : Z) : Z :=
b0 + 2 ^ 8 * b1 + 2 ^ 16 * b2 + 2 ^ 24 * b3.

Definition is_byte (b : Z) : Prop := 0 <= b < 256.

(** ** Two drivers to run the program against *)

Definition sample_memory_properties : VkPhysicalDeviceMemoryProperties :=
{| memoryTypeCount := 2;
   memoryTypes :=
     {| propertyFlags := VK_MEMORY_PROPERTY_DEVICE_LOCAL_BIT; heapIndex := 0 |}
     :: {| propertyFlags :=
             Z.lor VK_MEMORY_PROPERTY_HOST_VISIBLE_BIT
                   VK_MEMORY_PROPERTY_HOST_COHERENT_BIT;
           heapIndex := 1 |}
     :: repeat zero_memory_type 30;
   memoryHeapCount := 2;
   memoryHeaps :=
     {| heap_size := 2 ^ 32; heap_flags := VK_MEMORY_HEAP_DEVICE_LOCAL_BIT |}
     :: {| heap_size := 2 ^ 33; heap_flags := 0 |}
     :: repeat zero_memory_heap 14 |}.

Definition sample_requirements : VkMemoryRequirements :=
{| size := 640000; alignment := 256; memoryTypeBits := 3 |}.

(** A driver on which every call succeeds and the copied pixel is the
    yellow the program cleared to. *)
Definition sample_driver : driver :=
{| status := fun _ => VK_SUCCESS;
   layerNames := ["VK_LAYER_LUNARG_standard_validation"];
   dprops := {| apiVersion := 4194304; driverVersion := 1; vendorID := 4318;
                deviceID := 7040; deviceName := "GPU" |};
   device_memory_properties := sample_memory_properties;
   qprops := [ {| queueFlags :=
                    Z.lor VK_QUEUE_GRAPHICS_BIT
                      (Z.lor VK_QUEUE_COMPUTE_BIT VK_QUEUE_TRANSFER_BIT);
                  queueCount := 16 |} ];
   image_memory_requirements := fun _ => sample_requirements;
   mapped_word := 0xFF00FFFF |}.

(** [sample_driver] with other answers in some places. *)
Definition with_status (d : driver) (f : call -> VkResult) : driver :=
{| status := f;
   layerNames := layerNames d;
   dprops := dprops d;
   device_memory_properties := device_memory_properties d;
   qprops := qprops d;
   image_memory_requirements := image_memory_requirements d;
   mapped_word := mapped_word d |}.

Definition with_queue_flags (d : driver) (flags : Z) : driver :=
{| status := status d;
   layerNames := layerNames d;
   dprops := dprops d;
   device_memory_properties := device_memory_properties d;
   qprops := [ {| queueFlags := flags; queueCount := 1 |} ];
   image_memory_requirements := image_memory_requirements d;
   mapped_word := mapped_word d |}.

Definition with_requirements (d : driver) (r : handle -> VkMemoryRequirements)
  : driver :=
{| status := status d;
   layerNames := layerNames d;
   dprops := dprops d;
   device_memory_properties := device_memory_properties d;
   qprops := qprops d;
   image_memory_requirements := r;
   mapped_word := mapped_word d |}.

Definition with_mapped_word (d : driver) (w : Z) : driver :=
{| status := status d;
   layerNames := layerNames d;
   dprops := dprops d;
   device_memory_properties := device_memory_properties d;
   qprops := qprops d;
   image_memory_requirements := image_memory_requirements d;
   mapped_word := w |}.

(** ** The program without its diagnostic output *)

(** What the program writes to the terminal apart from the report of a
    failed [check]. *)
Definition is_diagnostic (c : call) : bool :=
match c with
| puts _ => true
| printf format _ =>
    negb (String.eqb format (fmt "check condition failed: %s"))
| _ => false
end.

Definition essential (c : call) : bool := negb (is_diagnostic c).

(** A script is a list of calls to make and of conditions to check on
    the way; [play] makes the calls up to the first condition that is
    false, where it reports the failure and exits. *)
Inductive step :=
| does (c : call)
| checks (passes : bool) (description : string).

Fixpoint play (s : list step) : list call * bool :=
match s with
| [] => ([], true)
| does c :: s' => let (t, completed) := play s' in (c :: t, completed)
| checks true _ :: s' => play s'
| checks false description :: _ => (failure_report description, false)
end.

(** [m] makes, diagnostics aside, the calls of the script [s], and
    returns [a] if the script runs to its end. *)
Definition follows {A} (m : M A) (s : list step) (a : A) : Prop :=
filter essential (trace m) = fst (play s) /\
result m = if snd (play s) then Returned a else Exited (-1).

(** A driver call followed by the check of its status. *)
Definition checked (d : driver) (c : call) (description : string) : list step :=
[ does c; checks (status d c =? VK_SUCCESS) description ].

(** What the selection returns for [image]: the render target asks for
    device-local memory, the readback image for host-visible memory. *)
Definition desired_flags (image : handle) : Z :=
match image with
| write_image => VK_MEMORY_PROPERTY_DEVICE_LOCAL_BIT
| _ => VK_MEMORY_PROPERTY_HOST_VISIBLE_BIT
end.

Definition selection (d : driver) (image : handle) : Z * Z :=
find_appropriate_memory_type (device_memory_properties d)
  (image_memory_requirements d image) (desired_flags image) 0.

Definition view_of (image : handle) : handle :=
match image with
| write_image => write_image_view
| _ => read_image_view
end.

Definition bind_memory_script (d : driver) (image : handle)
  (d_find d_allocate d_bind d_view : string) : list step :=
[ does (vkGetImageMemoryRequirements image);
  checks (fst (selection d image) =? 0) d_find ]
++ checked d (vkAllocateMemory
                (allocate_args (image_memory_requirements d image)
                               (snd (selection d image)))
                (memory_of image)) d_allocate
++ checked d (vkBindImageMemory image (memory_of image) 0) d_bind
++ checked d (vkCreateImageView (color_view_args image) (view_of image)) d_view.

Definition queue_family_passes (d : driver) : bool :=
truthy (queue_family_condition
          (queueFlags (subscript zero_queue_family (qprops d) 0))).

Definition pixel_script (pixel : Z) : list step :=
[ checks (red_of pixel =? 0xff) "red == 0xff";
  checks (green_of pixel =? 0xff) "green == 0xff";
  checks (blue_of pixel =? 0) "blue == 0";
  checks (alpha_of pixel =? 0xff) "alpha == 0xff" ].

Definition the_mapping : call :=
vkMapMemory read_image_memory 0 VK_WHOLE_SIZE 0.

(** The whole of [main] as a script. *)
Definition main_script (d : driver) : list step :=
[ does (vkEnumerateInstanceLayerProperties NULL);
  does (vkEnumerateInstanceLayerProperties local_array) ]
++ checked d (vkCreateInstance instance_args instance) ""
++ checked d (vkEnumeratePhysicalDevices instance 1 physical_device) ""
++ [ does (vkGetPhysicalDeviceProperties physical_device);
     does (vkGetPhysicalDeviceMemoryProperties physical_device);
     does (vkGetPhysicalDeviceQueueFamilyProperties physical_device NULL);
     does (vkGetPhysicalDeviceQueueFamilyProperties physical_device local_array);
     checks (queue_family_passes d) "" ]
++ checked d (vkCreateDevice physical_device device_args device) "vkCreateDevice"
++ [ does (vkGetDeviceQueue 0 0 queue) ]
++ checked d (vkCreateImage write_image_args write_image)
     "vkCreateImage(write_image)"
++ bind_memory_script d write_image
     "find_appropriate_memory_type for write_image"
     "vkAllocateMemory(write_image)" "vkBindImageMemory(write_image)"
     "vkCreateImageView(write_image)"
++ checked d (vkCreateImage read_image_args read_image)
     "vkCreateImage(read_image)"
++ bind_memory_script d read_image
     "find_appropriate_memory_type for read_image"
     "vkAllocateMemory(read_image)" "vkBindImageMemory(read_image)"
     "vkCreateImageView(read_image)"
++ checked d (vkCreateRenderPass render_pass_args render_pass)
     "vkCreateRenderPass"
++ checked d (vkCreateFramebuffer framebuffer_args framebuffer)
     "vkFramebufferCreateInfo"
++ checked d (vkCreateCommandPool command_pool_args command_pool)
     "vkCommandPoolCreateInfo"
++ checked d (vkAllocateCommandBuffers command_buffer_args command_buffer)
     "vkAllocateCommandBuffers"
++ checked d the_begin "vkBeginCommandBuffer"
++ map does recorded_commands
++ checked d the_end "vkEndCommandBuffer"
++ checked d the_fence_creation "vkCreateFence"
++ checked d the_submit "vkQueueSubmit"
++ checked d the_wait "vkWaitForFence"
++ checked d the_mapping "vkMapMemory"
++ pixel_script (mapped_word d).

(** ** Calls whose status decides whether the program goes on *)

Definition is_layer_query (c : call) : bool :=
match c with
| vkEnumerateInstanceLayerProperties _ => true
| _ => false
end.

(** The calls that return a [VkResult] which the program passes to
    [check]: all of them but the two queries for the instance layers,
    whose result is dropped. *)
Definition status_is_checked (c : call) : bool :=
returns_VkResult c && negb (is_layer_query c).

(** [m] ends the process only through a failed [check], straight after
    its report; and a checked call that does not succeed is at once
    followed by the report and the exit. *)
Definition orderly {A} (d : driver) (m : M A) : Prop :=
(forall s, result m = Exited s ->
   s = -1 /\ exists pre description,
     trace m = pre ++ failure_report description) /\
(forall c, status_is_checked c = true -> status d c <> VK_SUCCESS ->
   In c (trace m) ->
   result m = Exited (-1) /\ exists pre description,
     trace m = pre ++ c :: failure_report description).

(** ** More drivers *)

(** A driver that counts the instance layers, then reports that the
    host is out of memory when asked to write them out, while everything
    else goes well. *)
Definition layer_query_fails_driver : driver :=
with_status sample_driver
  (fun c => match c with
            | vkEnumerateInstanceLayerProperties local_array =>
                VK_ERROR_OUT_OF_HOST_MEMORY
            | _ => VK_SUCCESS
            end).

(** A driver whose queue family 0 does transfers only. *)
Definition transfer_only_driver : driver :=
with_queue_flags sample_driver VK_QUEUE_TRANSFER_BIT.

(** A driver whose images can only live in memory type 1, which on
    [sample_memory_properties] is not device-local. *)
Definition host_only_driver : driver :=
with_requirements sample_driver
  (fun _ => {| size := 640000; alignment := 256; memoryTypeBits := 2 |}).

(** A driver that rejects the submission. *)
Definition lost_device_driver : driver :=
with_status sample_driver
  (fun c => match c with
            | vkQueueSubmit _ _ _ _ => VK_ERROR_DEVICE_LOST
            | _ => VK_SUCCESS
            end).

Definition is_pipeline_barrier (c : call) : bool :=
match c with
| vkCmdPipelineBarrier _ _ _ _ _ _ _ _ => true
| _ => false
end.

Definition is_device_creation (c : call) : bool :=
match c with
| vkCreateDevice _ _ _ => true
| _ => false
end.

(** ** Further notions: the channels in order, handles, completion *)

(** The channel comparisons in the order the program makes them, each
    with the value found, the value expected and the text of its
    check. *)
Definition channel_checks (pixel : Z) : list (Z * Z * string) :=
[ (red_of pixel, 0xff, "red == 0xff");
  (green_of pixel, 0xff, "green == 0xff");
  (blue_of pixel, 0, "blue == 0");
  (alpha_of pixel, 0xff, "alpha == 0xff") ].

(** The first comparison, in that order, that does not hold. *)
Definition first_mismatch (pixel : Z) : option (Z * Z * string) :=
find (fun '(found, expected, _) => negb (found =? expected))
     (channel_checks pixel).

Definition is_memory_allocation (c : call) : bool :=
match c with
| vkAllocateMemory _ _ => true
| _ => false
end.

(** The handle a call writes through its last pointer argument. *)
Definition written_handle (c : call) : option handle :=
match c with
| vkCreateInstance _ h | vkEnumeratePhysicalDevices _ _ h
| vkCreateDevice _ _ h | vkGetDeviceQueue _ _ h | vkCreateImage _ h
| vkAllocateMemory _ h | vkCreateImageView _ h | vkCreateRenderPass _ h
| vkCreateFramebuffer _ h | vkCreateCommandPool _ h
| vkAllocateCommandBuffers _ h | vkCreateFence _ h => Some h
| _ => None
end.

(** The handles a call leaves valid: the one it writes, provided the
    call succeeded when it returns a status. *)
Definition valid_after (d : driver) (c : call) : list handle :=
match written_handle c with
| Some h =>
    if returns_VkResult c
    then (if status d c =? VK_SUCCESS then [h] else [])
    else [h]
| None => []
end.

(** The handles a call reads.  In [main] every call on the device or
    on one of its objects passes the global [device] first; it is counted
    here although the recorded calls do not repeat it. *)
Definition uses (c : call) : list handle :=
match c with
| vkEnumeratePhysicalDevices inst _ _ => [inst]
| vkGetPhysicalDeviceProperties pd
| vkGetPhysicalDeviceMemoryProperties pd
| vkGetPhysicalDeviceQueueFamilyProperties pd _
| vkCreateDevice pd _ _ => [pd]
| vkGetDeviceQueue _ _ _ | vkCreateImage _ _ | vkAllocateMemory _ _
| vkCreateRenderPass _ _ | vkCreateCommandPool _ _ | vkCreateFence _ _ =>
    [device]
| vkGetImageMemoryRequirements image => [device; image]
| vkBindImageMemory image memory _ => [device; image; memory]
| vkCreateImageView args _ => [device; VkImageViewCreateInfo.image args]
| vkCreateFramebuffer args _ =>
    device :: VkFramebufferCreateInfo.renderPass args
           :: VkFramebufferCreateInfo.pAttachments args
| vkAllocateCommandBuffers args _ =>
    [device; VkCommandBufferAllocateInfo.commandPool args]
| vkBeginCommandBuffer cb _ | vkCmdClearAttachments cb _ _ _ _
| vkCmdEndRenderPass cb | vkEndCommandBuffer cb => [cb]
| vkCmdBeginRenderPass cb args _ =>
    [cb; VkRenderPassBeginInfo.renderPass args;
     VkRenderPassBeginInfo.framebuffer args]
| vkCmdPipelineBarrier cb _ _ _ _ _ _ barriers =>
    cb :: map VkImageMemoryBarrier.image barriers
| vkCmdCopyImage cb src _ dst _ _ _ => [cb; src; dst]
| vkQueueSubmit q _ submits f =>
    q :: f :: flat_map VkSubmitInfo.pCommandBuffers submits
| vkWaitForFences _ fences _ _ => device :: fences
| vkMapMemory memory _ _ _ => [device; memory]
| _ => []
end.

Definition is_valid (valid : list handle) (h : handle) : bool :=
existsb (handle_eqb h) valid.

(** Every call of the sequence reads only handles that an earlier call
    of the sequence left valid. *)
Fixpoint handles_in_order (d : driver) (valid : list handle) (cs : list call)
  : bool :=
match cs with
| [] => true
| c :: cs' =>
    forallb (is_valid valid) (uses c) &&
    handles_in_order d (valid_after d c ++ valid) cs'
end.

(** The four steps from the end of the recording to the readback. *)
Definition is_completion_step (c : call) : bool :=
match c with
| vkEndCommandBuffer _ | vkQueueSubmit _ _ _ _ | vkWaitForFences _ _ _ _
| vkMapMemory _ _ _ _ => true
| _ => false
end.

(** Two drivers that differ at most in what the program only prints:
    they return the same statuses, report the same number of memory types
    with the same property flags, the same size and memory-type bits for
    both images, the same flags for queue family 0, and leave the same
    first word in the mapped memory. *)
Definition same_but_diagnostics (d d' : driver) : Prop :=
(forall c, status d c = status d' c) /\
memoryTypeCount (device_memory_properties d) =
  memoryTypeCount (device_memory_properties d') /\
(forall i, 0 <= i < memoryTypeCount (device_memory_properties d) ->
   propertyFlags (subscript zero_memory_type
                    (memoryTypes (device_memory_properties d)) i) =
   propertyFlags (subscript zero_memory_type
                    (memoryTypes (device_memory_properties d')) i)) /\
(forall image, image = write_image \/ image = read_image ->
   size (image_memory_requirements d image) =
     size (image_memory_requirements d' image) /\
   memoryTypeBits (image_memory_requirements d image) =
     memoryTypeBits (image_memory_requirements d' image)) /\
queueFlags (subscript zero_queue_family (qprops d) 0) =
  queueFlags (subscript zero_queue_family (qprops d') 0) /\
mapped_word d = mapped_word d'.

(** A driver like [sample_driver] for the pipeline, with other layers,
    another device name, other heaps and a second queue family. *)
Definition chatty_driver : driver :=
{| status := fun _ => VK_SUCCESS;
   layerNames := ["VK_LAYER_A"; "VK_LAYER_B"; "VK_LAYER_C"];
   dprops := {| apiVersion := 4198400; driverVersion := 77; vendorID := 32902;
                deviceID := 1; deviceName := "another GPU" |};
   device_memory_properties :=
     {| memoryTypeCount := 2;
        memoryTypes :=
          {| propertyFlags := VK_MEMORY_PROPERTY_DEVICE_LOCAL_BIT;
             heapIndex := 1 |}
          :: {| propertyFlags :=
                  Z.lor VK_MEMORY_PROPERTY_HOST_VISIBLE_BIT
                        VK_MEMORY_PROPERTY_HOST_COHERENT_BIT;
                heapIndex := 0 |}
          :: repeat {| propertyFlags := 15; heapIndex := 3 |} 30;
        memoryHeapCount := 1;
        memoryHeaps :=
          {| heap_size := 2 ^ 30; heap_flags := 0 |}
          :: repeat zero_memory_heap 15 |};
   qprops := [ {| queueFlags :=
                    Z.lor VK_QUEUE_GRAPHICS_BIT
                      (Z.lor VK_QUEUE_COMPUTE_BIT VK_QUEUE_TRANSFER_BIT);
                  queueCount := 1 |};
               {| queueFlags := VK_QUEUE_TRANSFER_BIT; queueCount := 2 |} ];
   image_memory_requirements :=
     fun _ => {| size := 640000; alignment := 4096; memoryTypeBits := 3 |};
   mapped_word := 0xFF00FFFF |}.

(** A table with no memory type in use. *)
Definition empty_memory_properties : VkPhysicalDeviceMemoryProperties :=
{| memoryTypeCount := 0;
   memoryTypes := repeat zero_memory_type 32;
   memoryHeapCount := 0;
   memoryHeaps := repeat zero_memory_heap 16 |}.

(** ** Further notions: the construction of an image, the reports *)

Definition image_args (image : handle) : VkImageCreateInfo.t :=
match image with
| write_image => write_image_args
| _ => read_image_args
end.

(** The calls that build [image]: its creation, the query of its
    requirements, the allocation and binding of its memory, and the
    creation of its view. *)
Definition builds (image : handle) (c : call) : bool :=
match c with
| vkCreateImage _ h => handle_eqb h image
| vkGetImageMemoryRequirements h => handle_eqb h image
| vkAllocateMemory _ pMemory => handle_eqb pMemory (memory_of image)
| vkBindImageMemory h _ _ => handle_eqb h image
| vkCreateImageView args _ =>
    handle_eqb (VkImageViewCreateInfo.image args) image
| _ => false
end.

(** The script with its checks decided by their text: the check with
    the description [description] fails, every other check passes. *)
Definition failing_at (description : string) (s : list step) : list step :=
map (fun st =>
       match st with
       | checks _ text => checks (negb (String.eqb text description)) text
       | does c => does c
       end) s.

(** The C name of the function a call is made to. *)
Definition function_name (c : call) : string :=
match c with
| puts _ => "puts"
| printf _ _ => "printf"
| exit _ => "exit"
| vkEnumerateInstanceLayerProperties _ => "vkEnumerateInstanceLayerProperties"
| vkCreateInstance _ _ => "vkCreateInstance"
| vkEnumeratePhysicalDevices _ _ _ => "vkEnumeratePhysicalDevices"
| vkGetPhysicalDeviceProperties _ => "vkGetPhysicalDeviceProperties"
| vkGetPhysicalDeviceMemoryProperties _ =>
    "vkGetPhysicalDeviceMemoryProperties"
| vkGetPhysicalDeviceQueueFamilyProperties _ _ =>
    "vkGetPhysicalDeviceQueueFamilyProperties"
| vkCreateDevice _ _ _ => "vkCreateDevice"
| vkGetDeviceQueue _ _ _ => "vkGetDeviceQueue"
| vkCreateImage _ _ => "vkCreateImage"
| vkGetImageMemoryRequirements _ => "vkGetImageMemoryRequirements"
| vkAllocateMemory _ _ => "vkAllocateMemory"
| vkBindImageMemory _ _ _ => "vkBindImageMemory"
| vkCreateImageView _ _ => "vkCreateImageView"
| vkCreateRenderPass _ _ => "vkCreateRenderPass"
| vkCreateFramebuffer _ _ => "vkCreateFramebuffer"
| vkCreateCommandPool _ _ => "vkCreateCommandPool"
| vkAllocateCommandBuffers _ _ => "vkAllocateCommandBuffers"
| vkBeginCommandBuffer _ _ => "vkBeginCommandBuffer"
| vkCmdBeginRenderPass _ _ _ => "vkCmdBeginRenderPass"
| vkCmdClearAttachments _ _ _ _ _ => "vkCmdClearAttachments"
| vkCmdEndRenderPass _ => "vkCmdEndRenderPass"
| vkCmdPipelineBarrier _ _ _ _ _ _ _ _ => "vkCmdPipelineBarrier"
| vkCmdCopyImage _ _ _ _ _ _ _ => "vkCmdCopyImage"
| vkEndCommandBuffer _ => "vkEndCommandBuffer"
| vkCreateFence _ _ => "vkCreateFence"
| vkQueueSubmit _ _ _ _ => "vkQueueSubmit"
| vkWaitForFences _ _ _ _ => "vkWaitForFences"
| vkMapMemory _ _ _ _ => "vkMapMemory"
end.

(** The description in the report that ends a sequence of calls, if it
    ends with one. *)
Definition reported (t : list call) : option string :=
match rev t with
| exit _ :: printf _ [arg_str description] :: _ => Some description
| _ => None
end.

(** A sequence of calls without its last two. *)
Definition before_report (t : list call) : list call :=
removelast (removelast t).

(** The functions the program has called, diagnostics aside, when it
    reports the failure of the check with the given description: those
    of the run of its script in which that check is the one to fail. *)
Definition functions_before_report (description : string) : list string :=
map function_name
  (before_report
     (fst (play (failing_at description (main_script sample_driver))))).

(** The calls of a script, whether its checks pass or not. *)
Definition calls_of (s : list step) : list call :=
flat_map (fun st => match st with
                    | does c => [c]
                    | checks _ _ => []
                    end) s.

(** A driver whose first queue family can only compute. *)
Definition compute_only_driver : driver :=
with_queue_flags sample_driver VK_QUEUE_COMPUTE_BIT.

(** Two drivers that refuse to create the fence, each in its own way. *)
Definition no_fence_driver : driver :=
with_status sample_driver
  (fun c => match c with
            | vkCreateFence _ _ => VK_ERROR_DEVICE_LOST
            | _ => VK_SUCCESS
            end).

Definition chatty_no_fence_driver : driver :=
with_status chatty_driver
  (fun c => match c with
            | vkCreateFence _ _ => VK_ERROR_OUT_OF_HOST_MEMORY
            | _ => VK_SUCCESS
            end).

(* ================================================================== *)
(** * Facts about the integer operations *)
(* ================================================================== *)

Lemma to_uint32_to_int (z : Z) : to_uint32 (to_int z) = z mod 2 ^ 32.
Proof.
  unfold to_uint32, to_int.
  rewrite Zminus_mod_idemp_l.
  f_equal. lia.
Qed.

Lemma land_pow2_zero (t a : Z) :
  0 <= t -> (Z.land (2 ^ t) a =? 0) = negb (Z.testbit a t).
Proof.
  intros Ht.
  destruct (Z.testbit a t) eqn:Hbit; simpl.
  - apply Z.eqb_neq. intros Hz.
    assert (Hb : Z.testbit (Z.land (2 ^ t) a) t = true).
    { rewrite Z.land_spec, Z.pow2_bits_eqb, Z.eqb_refl, Hbit by assumption.
      reflexivity. }
    rewrite Hz, Z.bits_0 in Hb. discriminate.
  - apply Z.eqb_eq. apply Z.bits_inj'. intros n Hn.
    rewrite Z.land_spec, Z.bits_0, Z.pow2_bits_eqb by assumption.
    destruct (Z.eqb_spec t n) as [-> | _]; [now rewrite Hbit | reflexivity].
Qed.

(** Below 32, the mask test of the loop reads bit [type] of the mask. *)
Lemma type_is_compatible_testbit (reqs : VkMemoryRequirements) (type : Z) :
  0 <= type < 32 ->
  type_is_compatible reqs type = Z.testbit (memoryTypeBits reqs) type.
Proof.
  intros Ht. unfold type_is_compatible, truthy, shl_int.
  rewrite to_uint32_to_int, Z.shiftl_1_l.
  rewrite Z.mod_small.
  - rewrite land_pow2_zero by lia. apply negb_involutive.
  - split; [apply Z.pow_nonneg; lia | apply Z.pow_lt_mono_r; lia].
Qed.

(** The flag test of the loop is the superset relation on bits. *)
Lemma land_eq_superset (flags required : Z) :
  Z.land flags required = required <-> flags_superset flags required.
Proof.
  unfold flags_superset. split.
  - intros H n Hn Hr. rewrite <- H in Hr.
    rewrite Z.land_spec in Hr. apply andb_prop in Hr. tauto.
  - intros H. apply Z.bits_inj'. intros n Hn.
    rewrite Z.land_spec.
    destruct (Z.testbit required n) eqn:Hr.
    + rewrite (H n Hn Hr). reflexivity.
    + apply andb_false_r.
Qed.

Lemma accepts_suitable mp reqs props (j : Z) :
  0 <= j < 32 ->
  accepts mp reqs props j = true <-> suitable mp reqs props j.
Proof.
  intros Hj. unfold accepts, suitable, type_has_props.
  rewrite andb_true_iff, type_is_compatible_testbit, Z.eqb_eq by assumption.
  rewrite land_eq_superset. reflexivity.
Qed.

Lemma land_0xff (a : Z) : Z.land a 0xff = a mod 2 ^ 8.
Proof. exact (Z.land_ones a 8 ltac:(lia)). Qed.

Lemma red_of_eq (pixel : Z) : red_of pixel = pixel mod 256.
Proof.
  unfold red_of, to_uint8. rewrite land_0xff.
  change (2 ^ 8) with 256. apply Z.mod_mod. lia.
Qed.

Lemma green_of_eq (pixel : Z) : green_of pixel = (pixel / 2 ^ 8) mod 256.
Proof.
  unfold green_of, to_uint8, shr_uint32.
  rewrite land_0xff, Z.shiftr_div_pow2 by lia.
  change (2 ^ 8) with 256. apply Z.mod_mod. lia.
Qed.

Lemma blue_of_eq (pixel : Z) : blue_of pixel = (pixel / 2 ^ 16) mod 256.
Proof.
  unfold blue_of, to_uint8, shr_uint32.
  rewrite land_0xff, Z.shiftr_div_pow2 by lia.
  change (2 ^ 8) with 256. apply Z.mod_mod. lia.
Qed.

Lemma alpha_of_eq (pixel : Z) : alpha_of pixel = (pixel / 2 ^ 24) mod 256.
Proof.
  unfold alpha_of, to_uint8, shr_uint32.
  rewrite land_0xff, Z.shiftr_div_pow2 by lia.
  change (2 ^ 8) with 256. apply Z.mod_mod. lia.
Qed.

(** The channels are the four bytes of the word, lowest first. *)
Lemma channels_little_endian (pixel : Z) :
  is_uint32 pixel ->
  is_byte (red_of pixel) /\ is_byte (green_of pixel) /\
  is_byte (blue_of pixel) /\ is_byte (alpha_of pixel) /\
  pixel = little_endian_word (red_of pixel) (green_of pixel)
                             (blue_of pixel) (alpha_of pixel).
Proof.
  unfold is_uint32, UINT32_MAX, is_byte, little_endian_word. intros H.
  rewrite red_of_eq, green_of_eq, blue_of_eq, alpha_of_eq.
  change (2 ^ 8) with 256. change (2 ^ 16) with 65536.
  change (2 ^ 24) with 16777216. change (2 ^ 32 - 1) with 4294967295 in H.
  Z.div_mod_to_equations. lia.
Qed.

(* ================================================================== *)
(** * Memory-type selection: the loop *)
(* ================================================================== *)

(** What the loop returns when entered with [*type = t]: either 0, with
    [*type] the first index from [t] on that passes the test of the body,
    or -1, with [*type] at the count and no index from [t] on passing. *)
Lemma find_loop_spec mp reqs props (t : Z) :
  let '(r, out) := find_loop mp reqs props t in
  (r = 0 /\ t <= out < memoryTypeCount mp /\ accepts mp reqs props out = true /\
   forall j, t <= j < out -> accepts mp reqs props j = false)
  \/
  (r = -1 /\ out = Z.max t (memoryTypeCount mp) /\
   forall j, t <= j < memoryTypeCount mp -> accepts mp reqs props j = false).
Proof.
  funelim (find_loop mp reqs props t).
  - (* the condition of the loop holds *)
    assert (Hstep :
      accepts mp reqs props type = false ->
      let '(r, out) := find_loop mp reqs props (type + 1) in
      (r = 0 /\ type <= out < memoryTypeCount mp /\
       accepts mp reqs props out = true /\
       forall j, type <= j < out -> accepts mp reqs props j = false)
      \/
      (r = -1 /\ out = Z.max type (memoryTypeCount mp) /\
       forall j, type <= j < memoryTypeCount mp ->
                 accepts mp reqs props j = false)).
    { intros Hno. destruct (find_loop mp reqs props (type + 1)) as [r out].
      destruct H as [(Hr & Hout & Hacc & Hlow) | (Hr & Hout & Hnone)].
      - left. repeat split; try assumption; try lia.
        intros j Hj. destruct (Z.eq_dec j type) as [-> | Hne];
          [assumption | apply Hlow; lia].
      - right. repeat split; try assumption; try lia.
        intros j Hj. destruct (Z.eq_dec j type) as [-> | Hne];
          [assumption | apply Hnone; lia]. }
    destruct (type_is_compatible reqs type) eqn:Ec.
    + destruct (type_has_props mp props type) eqn:Ep.
      * left. repeat split; try lia.
        unfold accepts. now rewrite Ec, Ep.
      * apply Hstep. unfold accepts. now rewrite Ec, Ep.
    + apply Hstep. unfold accepts. now rewrite Ec.
  - (* the condition of the loop fails *)
    right. repeat split; lia.
Qed.

(** The whole loop on a table of at most 32 types: the test of the body
    is the suitability of the index. *)
Lemma find_loop_from_zero mp reqs props :
  0 <= memoryTypeCount mp <= 32 ->
  let '(r, out) := find_loop mp reqs props 0 in
  (r = 0 /\ 0 <= out < memoryTypeCount mp /\ suitable mp reqs props out /\
   forall j, 0 <= j < out -> ~ suitable mp reqs props j)
  \/
  (r = -1 /\ out = memoryTypeCount mp /\
   forall i, 0 <= i < memoryTypeCount mp -> ~ suitable mp reqs props i).
Proof.
  intros Hcount.
  pose proof (find_loop_spec mp reqs props 0) as H.
  destruct (find_loop mp reqs props 0) as [r out].
  destruct H as [(Hr & Hout & Hacc & Hlow) | (Hr & Hout & Hnone)].
  - left. split; [assumption|]. split; [assumption|]. split.
    + apply accepts_suitable; [lia | assumption].
    + intros j Hj Hs. apply accepts_suitable in Hs; [|lia].
      rewrite Hlow in Hs by lia. discriminate.
  - right. split; [assumption|]. split; [lia|].
    intros i Hi Hs. apply accepts_suitable in Hs; [|lia].
    rewrite Hnone in Hs by lia. discriminate.
Qed.

Lemma sample_memory_properties_wf : wf_memory_properties sample_memory_properties.
Proof.
  unfold wf_memory_properties. split; [|split].
  - cbn. unfold VK_MAX_MEMORY_TYPES. lia.
  - reflexivity.
  - cbn. repeat constructor; cbv; discriminate.
Qed.

Lemma sample_requirements_wf : wf_memory_requirements sample_requirements.
Proof. cbv. split; discriminate. Qed.

(** C1.  On a table of the shape the driver hands out, the selection
    returns 0 exactly when some index of the table has its bit set in the
    mask and flags that contain the required ones, and the index it then
    leaves in [*type] is the lowest such index; it returns -1 exactly
    when no index of the table has both, whatever weaker set of flags
    some index may have; and it returns nothing but 0 or -1. *)
Theorem find_appropriate_memory_type_lowest_suitable
  (mp : VkPhysicalDeviceMemoryProperties) (reqs : VkMemoryRequirements)
  (props prior : Z) :
  wf_memory_properties mp -> wf_memory_requirements reqs -> is_uint32 props ->
  let res := find_appropriate_memory_type mp reqs props prior in
  (fst res = 0 <->
     exists i, 0 <= i < memoryTypeCount mp /\ suitable mp reqs props i) /\
  (fst res = 0 ->
     0 <= snd res < memoryTypeCount mp /\
     suitable mp reqs props (snd res) /\
     forall j, 0 <= j < snd res -> ~ suitable mp reqs props j) /\
  (fst res = -1 <->
     forall i, 0 <= i < memoryTypeCount mp -> ~ suitable mp reqs props i) /\
  (fst res = 0 \/ fst res = -1).
Proof.
  intros (Hcount & _ & _) _ _. unfold VK_MAX_MEMORY_TYPES in Hcount.
  unfold find_appropriate_memory_type. cbv zeta.
  pose proof (find_loop_from_zero mp reqs props Hcount) as H.
  destruct (find_loop mp reqs props 0) as [r out]. simpl.
  destruct H as [(Hr & Hout & Hsuit & Hlow) | (Hr & Hout & Hnone)].
  - split; [|split; [|split]].
    + split; [intros _; exists out; split; assumption | intros _; assumption].
    + intros _. split; [assumption|]. split; assumption.
    + split; [intros Hm; lia|].
      intros Hno. exfalso. exact (Hno out Hout Hsuit).
    + left. assumption.
  - split; [|split; [|split]].
    + split; [intros H0; lia|].
      intros (i & Hi & Hs). exfalso. exact (Hnone i Hi Hs).
    + intros H0. lia.
    + split; [intros _; assumption | intros _; assumption].
    + right. assumption.
Qed.

Lemma find_appropriate_memory_type_lowest_suitable_witness :
  wf_memory_properties sample_memory_properties /\
  wf_memory_requirements sample_requirements /\
  is_uint32 VK_MEMORY_PROPERTY_HOST_VISIBLE_BIT /\
  let res := find_appropriate_memory_type sample_memory_properties
               sample_requirements VK_MEMORY_PROPERTY_HOST_VISIBLE_BIT 7 in
  fst res = 0 /\
  0 <= snd res < memoryTypeCount sample_memory_properties /\
  suitable sample_memory_properties sample_requirements
    VK_MEMORY_PROPERTY_HOST_VISIBLE_BIT (snd res).
Proof.
  assert (Hp : is_uint32 VK_MEMORY_PROPERTY_HOST_VISIBLE_BIT)
    by (cbv; split; discriminate).
  assert (Hone : 0 <= 1 < memoryTypeCount sample_memory_properties)
    by (cbn; lia).
  assert (Hs : suitable sample_memory_properties sample_requirements
                 VK_MEMORY_PROPERTY_HOST_VISIBLE_BIT 1)
    by (apply accepts_suitable; [lia | reflexivity]).
  split; [exact sample_memory_properties_wf|].
  split; [exact sample_requirements_wf|].
  split; [exact Hp|].
  destruct (find_appropriate_memory_type_lowest_suitable 7
              sample_memory_properties_wf sample_requirements_wf Hp)
    as (Hiff & Hlow & _).
  cbv zeta.
  pose proof (proj2 Hiff (ex_intro _ 1 (conj Hone Hs))) as H0.
  destruct (Hlow H0) as (Hout & Hsuit & _).
  split; [exact H0|]. split; [exact Hout | exact Hsuit].
Defined.

(** C10.  The selection writes [*type] whatever it held: what it returns
    and leaves there does not depend on the prior content; when it returns
    -1, [*type] holds [memoryTypeCount]; when it returns 0, [*type] holds
    the selected index, the lowest one passing both tests. *)
Theorem find_appropriate_memory_type_writes_type
  (mp : VkPhysicalDeviceMemoryProperties) (reqs : VkMemoryRequirements)
  (props prior : Z) :
  wf_memory_properties mp -> wf_memory_requirements reqs -> is_uint32 props ->
  let res := find_appropriate_memory_type mp reqs props prior in
  (forall other, find_appropriate_memory_type mp reqs props other = res) /\
  (fst res = -1 -> snd res = memoryTypeCount mp) /\
  (fst res = 0 ->
     0 <= snd res < memoryTypeCount mp /\
     suitable mp reqs props (snd res) /\
     forall j, 0 <= j < snd res -> ~ suitable mp reqs props j) /\
  (fst res = 0 \/ fst res = -1).
Proof.
  intros (Hcount & _ & _) _ _. unfold VK_MAX_MEMORY_TYPES in Hcount.
  cbv zeta. split; [reflexivity|].
  unfold find_appropriate_memory_type. cbv zeta.
  pose proof (find_loop_from_zero mp reqs props Hcount) as H.
  destruct (find_loop mp reqs props 0) as [r out]. simpl.
  destruct H as [(Hr & Hout & Hsuit & Hlow) | (Hr & Hout & Hnone)].
  - split; [intros H1; lia|]. split; [|left; assumption].
    intros _. split; [assumption|]. split; assumption.
  - split; [intros _; assumption|]. split; [intros H0; lia|].
    right. assumption.
Qed.

Lemma find_appropriate_memory_type_writes_type_witness :
  wf_memory_properties sample_memory_properties /\
  wf_memory_requirements sample_requirements /\
  is_uint32 (Z.lor VK_MEMORY_PROPERTY_DEVICE_LOCAL_BIT
                   VK_MEMORY_PROPERTY_HOST_VISIBLE_BIT) /\
  find_appropriate_memory_type sample_memory_properties sample_requirements
    (Z.lor VK_MEMORY_PROPERTY_DEVICE_LOCAL_BIT VK_MEMORY_PROPERTY_HOST_VISIBLE_BIT)
    77 = (-1, 2) /\
  snd (find_appropriate_memory_type sample_memory_properties sample_requirements
         (Z.lor VK_MEMORY_PROPERTY_DEVICE_LOCAL_BIT
                VK_MEMORY_PROPERTY_HOST_VISIBLE_BIT) 77)
  = memoryTypeCount sample_memory_properties.
Proof.
  assert (Hp : is_uint32 (Z.lor VK_MEMORY_PROPERTY_DEVICE_LOCAL_BIT
                                VK_MEMORY_PROPERTY_HOST_VISIBLE_BIT))
    by (cbv; split; discriminate).
  split; [exact sample_memory_properties_wf|].
  split; [exact sample_requirements_wf|].
  split; [exact Hp|].
  split; [vm_compute; reflexivity|].
  apply (find_appropriate_memory_type_writes_type 77
           sample_memory_properties_wf sample_requirements_wf Hp).
  vm_compute. reflexivity.
Defined.

(* ================================================================== *)
(** * Running computations *)
(* ================================================================== *)

Lemma trace_bind {A B} (m : M A) (k : A -> M B) :
  trace (bind m k) =
  trace m ++ match result m with
             | Returned a => trace (k a)
             | Exited _ => []
             end.
Proof.
  destruct m as [t [a | s]]; simpl.
  - destruct (k a); reflexivity.
  - now rewrite app_nil_r.
Qed.

Lemma result_bind {A B} (m : M A) (k : A -> M B) :
  result (bind m k) =
  match result m with
  | Returned a => result (k a)
  | Exited s => Exited s
  end.
Proof.
  destruct m as [t [a | s]]; simpl; [destruct (k a)|]; reflexivity.
Qed.

Lemma check_run (condition : Z) (description : string) :
  check condition description =
  if truthy condition then ret tt
  else (failure_report description, Exited (-1)).
Proof. unfold check. destruct (truthy condition); reflexivity. Qed.

Lemma truthy_c_eq (a b : Z) : truthy (c_eq a b) = (a =? b).
Proof. unfold truthy, c_eq. destruct (a =? b); reflexivity. Qed.

(* ================================================================== *)
(** * Validation of the pixel *)
(* ================================================================== *)

Lemma validate_pixel_result (pixel : Z) :
  result (validate_pixel pixel) =
  if (red_of pixel =? 0xff) && (green_of pixel =? 0xff) &&
     (blue_of pixel =? 0) && (alpha_of pixel =? 0xff)
  then Returned tt else Exited (-1).
Proof.
  unfold validate_pixel. cbv zeta.
  generalize (red_of pixel) (green_of pixel) (blue_of pixel) (alpha_of pixel).
  intros r g b a.
  rewrite !result_bind, !check_run, !truthy_c_eq.
  destruct (r =? 255); [|reflexivity].
  destruct (g =? 255); [|reflexivity].
  destruct (b =? 0); [|reflexivity].
  destruct (a =? 255); reflexivity.
Qed.

(** C2.  For every 32-bit word read at the mapped address: the four
    channels the validation compares are the bytes of the word in
    little-endian order, red first; the validation passes exactly when
    red, green, blue, alpha are 0xFF, 0xFF, 0x00, 0xFF, which is exactly
    when the word is 0xFF00FFFF; otherwise it ends the process through
    [exit(-1)]. *)
Theorem validate_pixel_iff_yellow (pixel : Z) :
  is_uint32 pixel ->
  (is_byte (red_of pixel) /\ is_byte (green_of pixel) /\
   is_byte (blue_of pixel) /\ is_byte (alpha_of pixel) /\
   pixel = little_endian_word (red_of pixel) (green_of pixel)
                              (blue_of pixel) (alpha_of pixel)) /\
  (result (validate_pixel pixel) = Returned tt <->
     red_of pixel = 0xFF /\ green_of pixel = 0xFF /\
     blue_of pixel = 0x00 /\ alpha_of pixel = 0xFF) /\
  (result (validate_pixel pixel) = Returned tt <-> pixel = 0xFF00FFFF) /\
  (result (validate_pixel pixel) <> Returned tt ->
     result (validate_pixel pixel) = Exited (-1)).
Proof.
  intros Hpixel.
  pose proof (channels_little_endian Hpixel) as Hle.
  assert (Hchannels :
    result (validate_pixel pixel) = Returned tt <->
    red_of pixel = 0xFF /\ green_of pixel = 0xFF /\
    blue_of pixel = 0x00 /\ alpha_of pixel = 0xFF).
  { rewrite validate_pixel_result.
    destruct (Z.eqb_spec (red_of pixel) 255) as [Hr | Hr];
    destruct (Z.eqb_spec (green_of pixel) 255) as [Hg | Hg];
    destruct (Z.eqb_spec (blue_of pixel) 0) as [Hb | Hb];
    destruct (Z.eqb_spec (alpha_of pixel) 255) as [Ha | Ha];
    cbn [andb]; split; intros H; try discriminate; tauto. }
  split; [exact Hle|]. split; [exact Hchannels|]. split.
  - rewrite Hchannels. destruct Hle as (_ & _ & _ & _ & Hword). split.
    + intros (Hr & Hg & Hb & Ha). rewrite Hword, Hr, Hg, Hb, Ha. reflexivity.
    + intros ->. repeat split; reflexivity.
  - rewrite validate_pixel_result.
    destruct ((red_of pixel =? 255) && (green_of pixel =? 255) &&
              (blue_of pixel =? 0) && (alpha_of pixel =? 255));
      [intros H; now contradiction H | reflexivity].
Qed.

Lemma validate_pixel_iff_yellow_witness :
  is_uint32 0xFF00FFFF /\
  (result (validate_pixel 0xFF00FFFF) = Returned tt <-> 0xFF00FFFF = 0xFF00FFFF).
Proof.
  assert (H : is_uint32 0xFF00FFFF) by (cbv; split; discriminate).
  split; [exact H|].
  exact (proj1 (proj2 (proj2 (validate_pixel_iff_yellow H)))).
Defined.

(* ================================================================== *)
(** * [main] follows its script *)
(* ================================================================== *)

Lemma play_app (s1 s2 : list step) :
  play (s1 ++ s2) =
  if snd (play s1) then (fst (play s1) ++ fst (play s2), snd (play s2))
  else play s1.
Proof.
  induction s1 as [| [c | [|] descr] s1 IH]; simpl.
  - now destruct (play s2).
  - rewrite IH. destruct (play s1) as [t [|]]; reflexivity.
  - exact IH.
  - reflexivity.
Qed.

Lemma follows_ret {A} (a : A) : follows (ret a) [] a.
Proof. split; reflexivity. Qed.

Lemma follows_bind {A B} (m : M A) (k : A -> M B)
  (s1 s2 : list step) (a : A) (b : B) :
  follows m s1 a -> follows (k a) s2 b -> follows (bind m k) (s1 ++ s2) b.
Proof.
  intros [Ht Hr] [Ht' Hr']. unfold follows.
  rewrite trace_bind, result_bind, filter_app, play_app, Hr, Ht.
  destruct (play s1) as [t1 [|]]; simpl.
  - now rewrite Ht', Hr'.
  - now rewrite app_nil_r.
Qed.

Lemma follows_perform (c : call) :
  essential c = true -> follows (perform c) [does c] tt.
Proof. intros H. split; simpl; [now rewrite H | reflexivity]. Qed.

Lemma follows_diagnostic (c : call) :
  essential c = false -> follows (perform c) [] tt.
Proof. intros H. split; simpl; [now rewrite H | reflexivity]. Qed.

Lemma follows_check (condition : Z) (description : string) :
  follows (check condition description)
          [checks (truthy condition) description] tt.
Proof.
  rewrite check_run. destruct (truthy condition); split; reflexivity.
Qed.

Lemma follows_perform_then {B} (c : call) (k : unit -> M B) s (b : B) :
  essential c = true -> follows (k tt) s b ->
  follows (bind (perform c) k) (does c :: s) b.
Proof.
  intros Hc Hk. exact (follows_bind _ (follows_perform _ Hc) Hk).
Qed.

Lemma follows_diagnostic_then {B} (c : call) (k : unit -> M B) s (b : B) :
  essential c = false -> follows (k tt) s b ->
  follows (bind (perform c) k) s b.
Proof.
  intros Hc Hk. exact (follows_bind _ (follows_diagnostic _ Hc) Hk).
Qed.

Lemma follows_invoke_then {B} d (c : call) (k : VkResult -> M B) s (b : B) :
  essential c = true -> follows (k (status d c)) s b ->
  follows (bind (invoke d c) k) (does c :: s) b.
Proof.
  intros Hc Hk.
  assert (Hi : follows (invoke d c) [does c] (status d c))
    by (split; simpl; [now rewrite Hc | reflexivity]).
  exact (follows_bind _ Hi Hk).
Qed.

Lemma follows_check_eq_then {B} (x y : Z) description (k : unit -> M B) s (b : B) :
  follows (k tt) s b ->
  follows (bind (check (c_eq x y) description) k)
          (checks (x =? y) description :: s) b.
Proof.
  intros Hk. rewrite <- truthy_c_eq.
  exact (follows_bind _ (follows_check _ _) Hk).
Qed.

Lemma follows_check_eq (x y : Z) description :
  follows (check (c_eq x y) description) [checks (x =? y) description] tt.
Proof. rewrite <- truthy_c_eq. apply follows_check. Qed.

Lemma follows_block_then {B} (m : M unit) (k : unit -> M B) s1 s2 (b : B) :
  follows m s1 tt -> follows (k tt) s2 b -> follows (bind m k) (s1 ++ s2) b.
Proof. apply follows_bind. Qed.

Lemma follows_for_uint32 (count : Z) (body : Z -> M unit) :
  (forall j, follows (body j) [] tt) -> follows (for_uint32 count body) [] tt.
Proof.
  intros Hbody. unfold for_uint32. generalize 0 as i.
  induction (Z.to_nat count) as [| n IH]; intros i; simpl.
  - apply follows_ret.
  - exact (follows_bind (s1 := []) (s2 := []) _ (Hbody i) (IH (i + 1))).
Qed.

Lemma follows_loop_then {B} count body (k : unit -> M B) s (b : B) :
  (forall j, follows (body j) [] tt) -> follows (k tt) s b ->
  follows (bind (for_uint32 count body) k) s b.
Proof.
  intros Hbody Hk.
  exact (follows_bind (s1 := []) _ (follows_for_uint32 count body Hbody) Hk).
Qed.

(** Step through a block: one lemma per statement. *)
Ltac follow :=
  repeat first
    [ apply follows_ret
    | apply follows_check_eq
    | apply follows_check
    | apply follows_perform; reflexivity
    | apply follows_diagnostic; reflexivity
    | apply follows_perform_then; [reflexivity | cbv beta]
    | apply follows_diagnostic_then; [reflexivity | cbv beta]
    | apply follows_invoke_then; [reflexivity | cbv beta]
    | apply follows_check_eq_then
    | apply follows_loop_then; [intros ? | cbv beta] ].

Lemma query_instance_layers_follows d :
  follows (query_instance_layers d)
    [ does (vkEnumerateInstanceLayerProperties NULL);
      does (vkEnumerateInstanceLayerProperties local_array) ] tt.
Proof. unfold query_instance_layers. cbv zeta. follow. Qed.

Lemma create_instance_follows d :
  follows (create_instance d)
    (checked d (vkCreateInstance instance_args instance) "") tt.
Proof. unfold create_instance, checked. cbv zeta. follow. Qed.

Lemma find_gpu_follows d :
  follows (find_gpu d)
    (checked d (vkEnumeratePhysicalDevices instance 1 physical_device) ""
     ++ [ does (vkGetPhysicalDeviceProperties physical_device);
          does (vkGetPhysicalDeviceMemoryProperties physical_device);
          does (vkGetPhysicalDeviceQueueFamilyProperties physical_device NULL);
          does (vkGetPhysicalDeviceQueueFamilyProperties physical_device
                  local_array);
          checks (queue_family_passes d) "" ]) tt.
Proof.
  unfold find_gpu, checked, print_memory_type, print_memory_heap,
    print_queue_family, queue_family_passes. cbv zeta. simpl app.
  follow.
Qed.

Lemma create_device_follows d :
  follows (create_device d)
    (checked d (vkCreateDevice physical_device device_args device)
       "vkCreateDevice"
     ++ [ does (vkGetDeviceQueue 0 0 queue) ]) tt.
Proof. unfold create_device, checked. cbv zeta. simpl app. follow. Qed.

Lemma create_write_image_follows d :
  follows (create_write_image d)
    (checked d (vkCreateImage write_image_args write_image)
       "vkCreateImage(write_image)") tt.
Proof. unfold create_write_image, checked. follow. Qed.

Lemma bind_write_image_memory_follows d :
  follows (bind_write_image_memory d)
    (bind_memory_script d write_image
       "find_appropriate_memory_type for write_image"
       "vkAllocateMemory(write_image)" "vkBindImageMemory(write_image)"
       "vkCreateImageView(write_image)") tt.
Proof.
  unfold bind_write_image_memory, bind_memory_script, checked, selection,
    memory_properties. cbv zeta. simpl app. simpl desired_flags.
  destruct (find_appropriate_memory_type _ _ _ _) as [res memory_type].
  simpl fst. simpl snd. follow.
Qed.

Lemma create_read_image_follows d :
  follows (create_read_image d)
    (checked d (vkCreateImage read_image_args read_image)
       "vkCreateImage(read_image)") tt.
Proof. unfold create_read_image, checked. follow. Qed.

Lemma bind_read_image_memory_follows d :
  follows (bind_read_image_memory d)
    (bind_memory_script d read_image
       "find_appropriate_memory_type for read_image"
       "vkAllocateMemory(read_image)" "vkBindImageMemory(read_image)"
       "vkCreateImageView(read_image)") tt.
Proof.
  unfold bind_read_image_memory, bind_memory_script, checked, selection,
    memory_properties. cbv zeta. simpl app. simpl desired_flags.
  destruct (find_appropriate_memory_type _ _ _ _) as [res memory_type].
  simpl fst. simpl snd. follow.
Qed.

Lemma create_render_pass_follows d :
  follows (create_render_pass d)
    (checked d (vkCreateRenderPass render_pass_args render_pass)
       "vkCreateRenderPass") tt.
Proof. unfold create_render_pass, checked. cbv zeta. follow. Qed.

Lemma create_framebuffer_follows d :
  follows (create_framebuffer d)
    (checked d (vkCreateFramebuffer framebuffer_args framebuffer)
       "vkFramebufferCreateInfo") tt.
Proof. unfold create_framebuffer, checked. cbv zeta. follow. Qed.

Lemma create_command_pool_follows d :
  follows (create_command_pool d)
    (checked d (vkCreateCommandPool command_pool_args command_pool)
       "vkCommandPoolCreateInfo") tt.
Proof. unfold create_command_pool, checked. cbv zeta. follow. Qed.

Lemma create_command_buffer_follows d :
  follows (create_command_buffer d)
    (checked d (vkAllocateCommandBuffers command_buffer_args command_buffer)
       "vkAllocateCommandBuffers") tt.
Proof. unfold create_command_buffer, checked. cbv zeta. follow. Qed.

Lemma commence_recording_follows d :
  follows (commence_recording d) (checked d the_begin "vkBeginCommandBuffer") tt.
Proof. unfold commence_recording, checked, the_begin. follow. Qed.

(** The five blocks between begin and end of the recording make the six
    recorded calls and check nothing. *)
Lemma recording_follows {B} (k : M B) s (b : B) :
  follows k s b ->
  follows (begin_rendering ;; clear_color_attachment ;;
           transition_for_transfer ;; copy_to_read_image ;;
           transition_for_reading ;; k)
          (map does recorded_commands ++ s) b.
Proof.
  intros Hk.
  unfold begin_rendering, clear_color_attachment, transition_for_transfer,
    copy_to_read_image, transition_for_reading, recorded_commands,
    barrier_A, barrier_B, the_copy.
  cbv zeta. simpl map. simpl app.
  apply follows_perform_then; [reflexivity|].
  eapply (follows_bind (s1 := [does _; does _]) (a := tt) _).
  { follow. }
  cbv beta.
  apply follows_perform_then; [reflexivity|].
  apply follows_perform_then; [reflexivity|].
  apply follows_perform_then; [reflexivity|].
  exact Hk.
Qed.

Lemma stop_recording_follows d :
  follows (stop_recording d) (checked d the_end "vkEndCommandBuffer") tt.
Proof. unfold stop_recording, checked, the_end. follow. Qed.

Lemma create_fence_follows d :
  follows (create_fence d) (checked d the_fence_creation "vkCreateFence") tt.
Proof. unfold create_fence, checked, the_fence_creation. follow. Qed.

Lemma submit_command_buffer_follows d :
  follows (submit_command_buffer d) (checked d the_submit "vkQueueSubmit") tt.
Proof. unfold submit_command_buffer, checked, the_submit. follow. Qed.

Lemma wait_for_completion_follows d :
  follows (wait_for_completion d) (checked d the_wait "vkWaitForFence") tt.
Proof. unfold wait_for_completion, checked, the_wait. follow. Qed.

Lemma validate_pixel_follows (pixel : Z) :
  follows (validate_pixel pixel) (pixel_script pixel) tt.
Proof.
  unfold validate_pixel, pixel_script. cbv zeta.
  generalize (red_of pixel) (green_of pixel) (blue_of pixel) (alpha_of pixel).
  intros r g b a. follow.
Qed.

Lemma read_back_follows d :
  follows (read_back d)
    (checked d the_mapping "vkMapMemory" ++ pixel_script (mapped_word d)) tt.
Proof.
  unfold read_back, checked, the_mapping. cbv zeta. simpl app.
  apply follows_invoke_then; [reflexivity|]. cbv beta.
  apply follows_check_eq_then. apply validate_pixel_follows.
Qed.

(** Diagnostics aside, [main] makes the calls of [main_script], and it
    returns 0 exactly when no check of the script fails. *)
Lemma main_follows d : follows (main d) (main_script d) 0.
Proof.
  assert (H : exists s, follows (main d) s 0 /\ s = main_script d).
  { eexists. split.
    - unfold main.
      eapply follows_block_then; [apply query_instance_layers_follows|].
      eapply follows_block_then; [apply create_instance_follows|].
      eapply follows_block_then; [apply find_gpu_follows|].
      eapply follows_block_then; [apply create_device_follows|].
      eapply follows_block_then; [apply create_write_image_follows|].
      eapply follows_block_then; [apply bind_write_image_memory_follows|].
      eapply follows_block_then; [apply create_read_image_follows|].
      eapply follows_block_then; [apply bind_read_image_memory_follows|].
      eapply follows_block_then; [apply create_render_pass_follows|].
      eapply follows_block_then; [apply create_framebuffer_follows|].
      eapply follows_block_then; [apply create_command_pool_follows|].
      eapply follows_block_then; [apply create_command_buffer_follows|].
      eapply follows_block_then; [apply commence_recording_follows|].
      apply recording_follows.
      eapply follows_block_then; [apply stop_recording_follows|].
      eapply follows_block_then; [apply create_fence_follows|].
      eapply follows_block_then; [apply submit_command_buffer_follows|].
      eapply follows_block_then; [apply wait_for_completion_follows|].
      eapply follows_block_then; [apply read_back_follows|].
      apply follows_ret.
    - unfold main_script, bind_memory_script.
      rewrite <- !app_assoc, ?app_nil_r. reflexivity. }
  destruct H as (s & H & ->). exact H.
Qed.

(* ================================================================== *)
(** * [main] stops at the first failure *)
(* ================================================================== *)

Lemma orderly_ret {A} d (a : A) : orderly d (ret a).
Proof. split; [discriminate | intros c _ _ []]. Qed.

Lemma orderly_perform d (c : call) :
  status_is_checked c = false -> orderly d (perform c).
Proof.
  intros Hc. split; [discriminate|].
  intros c' Hc' _ [<- | []]. congruence.
Qed.

Lemma orderly_check d (condition : Z) (description : string) :
  orderly d (check condition description).
Proof.
  rewrite check_run. destruct (truthy condition).
  - apply orderly_ret.
  - split.
    + intros s [= <-]. split; [reflexivity|]. now exists [], description.
    + intros c Hc _ [<- | [<- | []]]; discriminate.
Qed.

Lemma orderly_bind {A B} d (m : M A) (k : A -> M B) :
  orderly d m -> (forall a, orderly d (k a)) -> orderly d (bind m k).
Proof.
  intros [Hm1 Hm2] Hk. split.
  - intros s. rewrite result_bind, trace_bind.
    destruct (result m) as [a | s'] eqn:Hr.
    + intros Hs. destruct (proj1 (Hk a) s Hs) as (-> & pre & descr & Ht).
      split; [reflexivity|]. exists (trace m ++ pre), descr.
      now rewrite Ht, app_assoc.
    + intros [= <-]. destruct (Hm1 s' eq_refl) as (-> & pre & descr & Ht).
      split; [reflexivity|]. exists pre, descr. now rewrite app_nil_r.
  - intros c Hc Hs. rewrite result_bind, trace_bind. intros Hin.
    apply in_app_or in Hin. destruct Hin as [Hin | Hin].
    + destruct (Hm2 c Hc Hs Hin) as (Hr & pre & descr & Ht).
      rewrite Hr. split; [reflexivity|]. exists pre, descr.
      now rewrite app_nil_r.
    + destruct (result m) as [a | s']; [|destruct Hin].
      destruct (proj2 (Hk a) c Hc Hs Hin) as (Hr & pre & descr & Ht).
      split; [assumption|]. exists (trace m ++ pre), descr.
      now rewrite Ht, app_assoc.
Qed.

Lemma invoke_check_then_run {B} d (c : call) description (k : unit -> M B) :
  bind (invoke d c)
       (fun res => bind (check (c_eq res VK_SUCCESS) description) k) =
  if status d c =? VK_SUCCESS then (c :: trace (k tt), result (k tt))
  else (c :: failure_report description, Exited (-1)).
Proof.
  unfold invoke, bind at 1. rewrite check_run, truthy_c_eq.
  destruct (status d c =? VK_SUCCESS); simpl; [|reflexivity].
  destruct (k tt); reflexivity.
Qed.

Lemma orderly_invoke_check_then {B} d (c : call) description (k : unit -> M B) :
  orderly d (k tt) ->
  orderly d (bind (invoke d c)
                  (fun res => bind (check (c_eq res VK_SUCCESS) description) k)).
Proof.
  intros [Hk1 Hk2]. rewrite invoke_check_then_run.
  destruct (Z.eqb_spec (status d c) VK_SUCCESS) as [Hok | Hbad].
  - split; simpl.
    + intros s Hs. destruct (Hk1 s Hs) as (-> & pre & descr & Ht).
      split; [reflexivity|]. exists (c :: pre), descr. now rewrite Ht.
    + intros c' Hc' Hs [<- | Hin]; [contradiction|].
      destruct (Hk2 c' Hc' Hs Hin) as (Hr & pre & descr & Ht).
      split; [assumption|]. exists (c :: pre), descr. now rewrite Ht.
  - split; simpl.
    + intros s [= <-]. split; [reflexivity|]. now exists [c], description.
    + intros c' Hc' Hs [<- | Hin].
      * split; [reflexivity|]. now exists [], description.
      * destruct Hin as [<- | [<- | []]]; discriminate.
Qed.

Lemma orderly_invoke_check d (c : call) description :
  orderly d (bind (invoke d c)
                  (fun res => check (c_eq res VK_SUCCESS) description)).
Proof.
  assert (H : orderly d (bind (invoke d c)
             (fun res => bind (check (c_eq res VK_SUCCESS) description)
                              (fun _ => ret tt)))).
  { apply orderly_invoke_check_then, orderly_ret. }
  assert (E : forall m : M unit, bind m (fun _ => ret tt) = m).
  { intros [t [[] | s]]; simpl; [now rewrite app_nil_r | reflexivity]. }
  unfold invoke, bind at 1 in H. unfold invoke, bind at 1.
  now rewrite E in H.
Qed.

Lemma orderly_for_uint32 d (count : Z) (body : Z -> M unit) :
  (forall j, orderly d (body j)) -> orderly d (for_uint32 count body).
Proof.
  intros Hbody. unfold for_uint32. generalize 0 as i.
  induction (Z.to_nat count) as [| n IH]; intros i; simpl.
  - apply orderly_ret.
  - apply orderly_bind; [apply Hbody | intros _; apply IH].
Qed.

Ltac order :=
  repeat first
    [ apply orderly_ret
    | apply orderly_check
    | apply orderly_perform; reflexivity
    | apply orderly_invoke_check
    | apply orderly_invoke_check_then
    | apply orderly_for_uint32; intros ?
    | apply orderly_bind; [ | intros ? ] ].

Lemma bind_write_image_memory_orderly d : orderly d (bind_write_image_memory d).
Proof.
  unfold bind_write_image_memory. cbv zeta.
  destruct (find_appropriate_memory_type _ _ _ _) as [res memory_type].
  order.
Qed.

Lemma bind_read_image_memory_orderly d : orderly d (bind_read_image_memory d).
Proof.
  unfold bind_read_image_memory. cbv zeta.
  destruct (find_appropriate_memory_type _ _ _ _) as [res memory_type].
  order.
Qed.

Lemma validate_pixel_orderly d (pixel : Z) : orderly d (validate_pixel pixel).
Proof.
  unfold validate_pixel. cbv zeta.
  generalize (red_of pixel) (green_of pixel) (blue_of pixel) (alpha_of pixel).
  intros r g b a. order.
Qed.

(** However the driver answers, [main] leaves through [exit] only
    straight after the report of a failed check, and a checked call that
    fails is the last call before that report. *)
Lemma main_orderly d : orderly d (main d).
Proof.
  unfold main.
  repeat lazymatch goal with
         | |- orderly _ (bind _ _) => apply orderly_bind; [ | intros _ ]
         end.
  all: try apply orderly_ret.
  all: try apply bind_write_image_memory_orderly.
  all: try apply bind_read_image_memory_orderly.
  all: unfold query_instance_layers, create_instance, find_gpu,
         print_memory_type, print_memory_heap, print_queue_family,
         create_device, create_write_image, create_read_image,
         create_render_pass, create_framebuffer, create_command_pool,
         create_command_buffer, commence_recording, begin_rendering,
         clear_color_attachment, transition_for_transfer, copy_to_read_image,
         transition_for_reading, stop_recording, create_fence,
         submit_command_buffer, wait_for_completion, read_back;
       cbv zeta.
  all: order.
  all: apply validate_pixel_orderly.
Qed.

(* ================================================================== *)
(** * From the script to the trace *)
(* ================================================================== *)

Lemma filter_essential (p : call -> bool) (l : list call) :
  (forall c, p c = true -> essential c = true) ->
  filter p (filter essential l) = filter p l.
Proof.
  intros Hp. induction l as [| c l IH]; simpl; [reflexivity|].
  destruct (essential c) eqn:He; simpl.
  - now rewrite IH.
  - destruct (p c) eqn:Hc; [|assumption].
    apply Hp in Hc. congruence.
Qed.

(** A class of calls that holds no diagnostic output is found in the
    trace of [main] as it is found in the run of the script. *)
Lemma main_filter (p : call -> bool) d :
  (forall c, p c = true -> essential c = true) ->
  filter p (trace (main d)) = filter p (fst (play (main_script d))).
Proof.
  intros Hp. rewrite <- (proj1 (main_follows d)). symmetry.
  now apply filter_essential.
Qed.

Lemma main_result d :
  result (main d) =
  if snd (play (main_script d)) then Returned 0 else Exited (-1).
Proof. exact (proj2 (main_follows d)). Qed.

Lemma command_buffer_calls_essential (c : call) :
  is_command_buffer_call c = true -> essential c = true.
Proof. intros H; destruct c; try discriminate H; reflexivity. Qed.

Lemma recorded_commands_essential (c : call) :
  is_recorded_command c = true -> essential c = true.
Proof. intros H; destruct c; try discriminate H; reflexivity. Qed.

Lemma fence_calls_essential (c : call) :
  is_fence_call c = true -> essential c = true.
Proof. intros H; destruct c; try discriminate H; reflexivity. Qed.

Lemma allocations_essential image (c : call) :
  is_allocation_for image c = true -> essential c = true.
Proof. intros H; destruct c; try discriminate H; reflexivity. Qed.

Lemma exits_essential (c : call) : is_exit c = true -> essential c = true.
Proof. intros H; destruct c; try discriminate H; reflexivity. Qed.

Lemma play_nil_inv t ok : play [] = (t, ok) -> t = [] /\ ok = true.
Proof. intros [= <- <-]. auto. Qed.

Lemma play_does_inv c s t ok :
  play (does c :: s) = (t, ok) -> exists t', t = c :: t' /\ play s = (t', ok).
Proof.
  simpl. destruct (play s) as [t' ok']. intros [= <- <-]. now exists t'.
Qed.

Lemma play_checks_inv b description s t ok :
  play (checks b description :: s) = (t, ok) ->
  (b = true /\ play s = (t, ok)) \/
  (b = false /\ t = failure_report description /\ ok = false).
Proof.
  simpl. destruct b; [now left|]. intros [= <- <-]. now right.
Qed.

(** Walk a script whose run is described by [H : play s = (t, ok)]: one
    goal for each check at which the run can stop, and one for the run
    that passes them all. *)
Ltac walk H :=
  repeat
    (let t' := fresh "t" in
     let E := fresh "E" in
     first
       [ apply play_nil_inv in H; destruct H as [-> ->]
       | apply play_does_inv in H; destruct H as (t' & -> & H)
       | apply play_checks_inv in H;
         destruct H as [[E H] | (E & -> & ->)] ]).

(** Name the run of the script of [main] and lay the script out. *)
Ltac lay_out d t ok H :=
  destruct (play (main_script d)) as [t ok] eqn:H;
  unfold main_script, bind_memory_script, checked, pixel_script in H;
  cbn [app map recorded_commands] in H;
  cbn [fst snd].

Ltac classify :=
  cbn [filter is_command_buffer_call is_recorded_command is_fence_call
       is_allocation_for is_exit is_pipeline_barrier is_device_creation
       handle_eqb memory_of
       failure_report the_begin the_end the_submit recorded_commands
       barrier_A barrier_B the_copy the_wait the_fence_creation the_mapping
       app].

Lemma sample_driver_wf : wf_driver sample_driver.
Proof.
  unfold wf_driver. split; [exact sample_memory_properties_wf|].
  split; [exact sample_requirements_wf|].
  split; [exact sample_requirements_wf|].
  split; [discriminate|].
  split; cbv; split; discriminate.
Qed.

(** Three runs.  On the sample driver the program returns 0; when the
    copied pixel is white the blue channel fails its check; when the
    driver rejects the submission the program stops there. *)
Example sample_run_returns : result (main sample_driver) = Returned 0.
Proof. vm_compute. reflexivity. Qed.

Example white_pixel_run :
  result (main (with_mapped_word sample_driver 0xFFFFFFFF)) = Exited (-1) /\
  exists pre,
    trace (main (with_mapped_word sample_driver 0xFFFFFFFF)) =
    pre ++ failure_report "blue == 0".
Proof.
  split; [vm_compute; reflexivity|].
  eexists (firstn 79 (trace (main (with_mapped_word sample_driver 0xFFFFFFFF)))).
  vm_compute. reflexivity.
Qed.

Example lost_device_run :
  result (main lost_device_driver) = Exited (-1) /\
  exists pre,
    trace (main lost_device_driver) =
    pre ++ the_submit :: failure_report "vkQueueSubmit".
Proof.
  split; [vm_compute; reflexivity|].
  eexists (firstn 75 (trace (main lost_device_driver))).
  vm_compute. reflexivity.
Qed.

(* ================================================================== *)
(** * The recorded commands *)
(* ================================================================== *)

(** C3.  In every run the calls on the command buffer are, in this
    order: one begin with the one-time-submit flag, the six recorded
    commands (begin render pass over 400x400, clear of colour attachment 0
    to (1, 1, 0, 1) over 400x400, end render pass, barrier A, the copy of
    400x400x1 from the render target to the readback image, barrier B),
    one end, one submission; a run that stops early makes none of them,
    or the begin alone, or all up to the end; a run that returns 0 makes
    them all, each once. *)
Theorem command_buffer_sequence (d : driver) :
  wf_driver d ->
  let cb := filter is_command_buffer_call (trace (main d)) in
  (cb = [] \/ cb = [the_begin] \/
   cb = the_begin :: recorded_commands ++ [the_end] \/
   cb = the_begin :: recorded_commands ++ [the_end; the_submit]) /\
  (result (main d) = Returned 0 ->
   cb = the_begin :: recorded_commands ++ [the_end; the_submit]) /\
  the_begin =
    vkBeginCommandBuffer command_buffer
      {| VkCommandBufferBeginInfo.flags :=
           VK_COMMAND_BUFFER_USAGE_ONE_TIME_SUBMIT_BIT |} /\
  recorded_commands =
    [ vkCmdBeginRenderPass command_buffer
        {| VkRenderPassBeginInfo.renderPass := render_pass;
           VkRenderPassBeginInfo.framebuffer := framebuffer;
           VkRenderPassBeginInfo.renderArea :=
             {| VkRect2D.offset := {| VkOffset2D.x := 0; VkOffset2D.y := 0 |};
                VkRect2D.extent :=
                  {| VkExtent2D.width := 400; VkExtent2D.height := 400 |} |};
           VkRenderPassBeginInfo.clearValueCount := 0 |}
        VK_SUBPASS_CONTENTS_INLINE;
      vkCmdClearAttachments command_buffer
        1 [ {| VkClearAttachment.aspectMask := VK_IMAGE_ASPECT_COLOR_BIT;
               VkClearAttachment.colorAttachment := 0;
               VkClearAttachment.clearValue_color_float32 :=
                 [1%Q; 1%Q; 0%Q; 1%Q] |} ]
        1 [ {| VkClearRect.rect :=
                 {| VkRect2D.offset := {| VkOffset2D.x := 0; VkOffset2D.y := 0 |};
                    VkRect2D.extent :=
                      {| VkExtent2D.width := 400; VkExtent2D.height := 400 |} |};
               VkClearRect.baseArrayLayer := 0;
               VkClearRect.layerCount := 1 |} ];
      vkCmdEndRenderPass command_buffer;
      barrier_A;
      vkCmdCopyImage command_buffer
        write_image VK_IMAGE_LAYOUT_TRANSFER_SRC_OPTIMAL
        read_image VK_IMAGE_LAYOUT_TRANSFER_DST_OPTIMAL
        1 [ {| VkImageCopy.srcSubresource := color_layer;
               VkImageCopy.srcOffset := offset_0_0_0;
               VkImageCopy.dstSubresource := color_layer;
               VkImageCopy.dstOffset := offset_0_0_0;
               VkImageCopy.extent :=
                 {| VkExtent3D.width := 400; VkExtent3D.height := 400;
                    VkExtent3D.depth := 1 |} |} ];
      barrier_B ] /\
  the_submit =
    vkQueueSubmit queue 1
      [ {| VkSubmitInfo.waitSemaphoreCount := 0;
           VkSubmitInfo.commandBufferCount := 1;
           VkSubmitInfo.pCommandBuffers := [command_buffer];
           VkSubmitInfo.signalSemaphoreCount := 0 |} ] fence.
Proof.
  intros _. cbv zeta.
  rewrite (main_filter _ d command_buffer_calls_essential), main_result.
  split; [|split; [|repeat split]].
  - lay_out d t ok Hplay. walk Hplay; classify; auto.
  - lay_out d t ok Hplay. walk Hplay; try discriminate.
    intros _. reflexivity.
Qed.

Lemma command_buffer_sequence_witness :
  wf_driver sample_driver /\
  filter is_command_buffer_call (trace (main sample_driver)) =
  the_begin :: recorded_commands ++ [the_end; the_submit].
Proof.
  split; [exact sample_driver_wf|].
  apply (command_buffer_sequence sample_driver_wf).
  vm_compute. reflexivity.
Defined.

(** C5.  Barrier A is one call, from the colour-attachment-output stage
    to the transfer stage, with exactly two image transitions: the
    readback image from undefined to transfer-destination (access none to
    transfer-write), and the render target from colour-attachment-optimal
    to transfer-source (access colour-attachment-write to transfer-read).
    A run records either nothing or the whole sequence, in which barrier A
    comes straight before the copy and no other barrier comes before
    it. *)
Theorem barrier_A_precedes_copy (d : driver) :
  wf_driver d ->
  let recorded := filter is_recorded_command (trace (main d)) in
  (recorded = [] \/ recorded = recorded_commands) /\
  (result (main d) = Returned 0 -> recorded = recorded_commands) /\
  (exists before after,
     recorded_commands = before ++ barrier_A :: the_copy :: after /\
     filter is_pipeline_barrier before = [] /\
     filter is_pipeline_barrier (barrier_A :: the_copy :: after) =
       [barrier_A; barrier_B]) /\
  barrier_A =
    vkCmdPipelineBarrier command_buffer
      VK_PIPELINE_STAGE_COLOR_ATTACHMENT_OUTPUT_BIT
      VK_PIPELINE_STAGE_TRANSFER_BIT
      0 0 0 2
      [ {| VkImageMemoryBarrier.srcAccessMask := 0;
           VkImageMemoryBarrier.dstAccessMask := VK_ACCESS_TRANSFER_WRITE_BIT;
           VkImageMemoryBarrier.oldLayout := VK_IMAGE_LAYOUT_UNDEFINED;
           VkImageMemoryBarrier.newLayout :=
             VK_IMAGE_LAYOUT_TRANSFER_DST_OPTIMAL;
           VkImageMemoryBarrier.srcQueueFamilyIndex := 0;
           VkImageMemoryBarrier.dstQueueFamilyIndex := 0;
           VkImageMemoryBarrier.image := read_image;
           VkImageMemoryBarrier.subresourceRange := whole_color_range |};
        {| VkImageMemoryBarrier.srcAccessMask :=
             VK_ACCESS_COLOR_ATTACHMENT_WRITE_BIT;
           VkImageMemoryBarrier.dstAccessMask := VK_ACCESS_TRANSFER_READ_BIT;
           VkImageMemoryBarrier.oldLayout :=
             VK_IMAGE_LAYOUT_COLOR_ATTACHMENT_OPTIMAL;
           VkImageMemoryBarrier.newLayout :=
             VK_IMAGE_LAYOUT_TRANSFER_SRC_OPTIMAL;
           VkImageMemoryBarrier.srcQueueFamilyIndex := 0;
           VkImageMemoryBarrier.dstQueueFamilyIndex := 0;
           VkImageMemoryBarrier.image := write_image;
           VkImageMemoryBarrier.subresourceRange := whole_color_range |} ] /\
  the_copy =
    vkCmdCopyImage command_buffer
      write_image VK_IMAGE_LAYOUT_TRANSFER_SRC_OPTIMAL
      read_image VK_IMAGE_LAYOUT_TRANSFER_DST_OPTIMAL 1 [region].
Proof.
  intros _. cbv zeta.
  rewrite (main_filter _ d recorded_commands_essential), main_result.
  split; [|split; [|split; [|split; reflexivity]]].
  - lay_out d t ok Hplay. walk Hplay; classify; auto.
  - lay_out d t ok Hplay. walk Hplay; try discriminate.
    intros _. reflexivity.
  - exists (firstn 3 recorded_commands), [barrier_B].
    repeat split; reflexivity.
Qed.

Lemma barrier_A_precedes_copy_witness :
  wf_driver sample_driver /\
  filter is_recorded_command (trace (main sample_driver)) = recorded_commands.
Proof.
  split; [exact sample_driver_wf|].
  apply (barrier_A_precedes_copy sample_driver_wf).
  vm_compute. reflexivity.
Defined.

(* ================================================================== *)
(** * Failure of the selection *)
(* ================================================================== *)

Lemma host_only_driver_wf : wf_driver host_only_driver.
Proof.
  unfold wf_driver. split; [exact sample_memory_properties_wf|].
  split; [cbv; split; discriminate|].
  split; [cbv; split; discriminate|].
  split; [discriminate|].
  split; cbv; split; discriminate.
Qed.

(** C6.  For the render target, for which the selection is asked for
    device-local memory, and for the readback image, for which it is
    asked for host-visible memory: when the selection does not return 0,
    the run makes no [vkAllocateMemory] and no [vkBindImageMemory] call
    for that image, and the process ends through [exit(-1)], with a
    status that is not zero. *)
Theorem selection_failure_aborts (d : driver) (prior : Z) :
  wf_driver d ->
  (fst (find_appropriate_memory_type (device_memory_properties d)
          (image_memory_requirements d write_image)
          VK_MEMORY_PROPERTY_DEVICE_LOCAL_BIT prior) <> 0 ->
   filter (is_allocation_for write_image) (trace (main d)) = [] /\
   result (main d) = Exited (-1) /\
   exit_status (result (main d)) <> 0) /\
  (fst (find_appropriate_memory_type (device_memory_properties d)
          (image_memory_requirements d read_image)
          VK_MEMORY_PROPERTY_HOST_VISIBLE_BIT prior) <> 0 ->
   filter (is_allocation_for read_image) (trace (main d)) = [] /\
   result (main d) = Exited (-1) /\
   exit_status (result (main d)) <> 0).
Proof.
  intros _.
  change (find_appropriate_memory_type (device_memory_properties d)
            (image_memory_requirements d write_image)
            VK_MEMORY_PROPERTY_DEVICE_LOCAL_BIT prior)
    with (selection d write_image).
  change (find_appropriate_memory_type (device_memory_properties d)
            (image_memory_requirements d read_image)
            VK_MEMORY_PROPERTY_HOST_VISIBLE_BIT prior)
    with (selection d read_image).
  rewrite (main_filter _ d (allocations_essential write_image)).
  rewrite (main_filter _ d (allocations_essential read_image)).
  rewrite main_result.
  split; intros Hfail; apply Z.eqb_neq in Hfail;
    lay_out d t ok Hplay; walk Hplay; classify;
    first [ rewrite Hfail in *; discriminate
          | split; [reflexivity | split; [reflexivity | discriminate]] ].
Qed.

Lemma selection_failure_aborts_witness :
  wf_driver host_only_driver /\
  fst (find_appropriate_memory_type (device_memory_properties host_only_driver)
         (image_memory_requirements host_only_driver write_image)
         VK_MEMORY_PROPERTY_DEVICE_LOCAL_BIT 0) <> 0 /\
  filter (is_allocation_for write_image) (trace (main host_only_driver)) = [] /\
  result (main host_only_driver) = Exited (-1) /\
  exit_status (result (main host_only_driver)) <> 0.
Proof.
  assert (H : fst (find_appropriate_memory_type
                     (device_memory_properties host_only_driver)
                     (image_memory_requirements host_only_driver write_image)
                     VK_MEMORY_PROPERTY_DEVICE_LOCAL_BIT 0) <> 0)
    by (vm_compute; discriminate).
  split; [exact host_only_driver_wf|]. split; [exact H|].
  exact (proj1 (selection_failure_aborts 0 host_only_driver_wf) H).
Defined.

(* ================================================================== *)
(** * The fence *)
(* ================================================================== *)

(** C7.  The fence is created with no flag set, that is unsignaled; it
    is the fence argument of the one submission; it is waited on by one
    call, with the timeout [UINT64_MAX].  The three calls come in this
    order and none is made twice.  When the submission is made and does
    not succeed, or the wait is made and does not succeed, the process
    ends through [exit(-1)] and that call is the last one before the
    report of the failed check: nothing is submitted or waited for
    again. *)
Theorem fence_used_once (d : driver) :
  wf_driver d ->
  let fc := filter is_fence_call (trace (main d)) in
  (fc = [] \/ fc = [the_fence_creation] \/
   fc = [the_fence_creation; the_submit] \/
   fc = [the_fence_creation; the_submit; the_wait]) /\
  (result (main d) = Returned 0 ->
   fc = [the_fence_creation; the_submit; the_wait]) /\
  the_fence_creation =
    vkCreateFence {| VkFenceCreateInfo.flags := 0 |} fence /\
  the_submit = vkQueueSubmit queue 1 [submit_args] fence /\
  the_wait = vkWaitForFences 1 [fence] VK_TRUE UINT64_MAX /\
  UINT64_MAX = 18446744073709551615 /\
  (status d the_submit <> VK_SUCCESS -> In the_submit (trace (main d)) ->
   result (main d) = Exited (-1) /\
   fc = [the_fence_creation; the_submit] /\
   exists pre description,
     trace (main d) = pre ++ the_submit :: failure_report description) /\
  (status d the_wait <> VK_SUCCESS -> In the_wait (trace (main d)) ->
   result (main d) = Exited (-1) /\
   fc = [the_fence_creation; the_submit; the_wait] /\
   exists pre description,
     trace (main d) = pre ++ the_wait :: failure_report description).
Proof.
  intros _. cbv zeta.
  assert (Hmem : forall c, is_fence_call c = true ->
            In c (trace (main d)) ->
            In c (filter is_fence_call (trace (main d))))
    by (intros c Hc Hin; apply filter_In; auto).
  assert (Hshape :
    filter is_fence_call (trace (main d)) = [] \/
    filter is_fence_call (trace (main d)) = [the_fence_creation] \/
    filter is_fence_call (trace (main d)) =
      [the_fence_creation; the_submit] \/
    (filter is_fence_call (trace (main d)) =
       [the_fence_creation; the_submit; the_wait] /\
     status d the_submit = VK_SUCCESS)).
  { rewrite (main_filter _ d fence_calls_essential).
    lay_out d t ok Hplay. walk Hplay; classify;
      first [ left; reflexivity
            | right; left; reflexivity
            | right; right; left; reflexivity
            | right; right; right; split;
              [reflexivity | apply Z.eqb_eq; assumption] ]. }
  split; [|split; [|split; [|split; [|split; [|split; [|split]]]]]];
    try reflexivity.
  - destruct Hshape as [H | [H | [H | [H _]]]]; auto.
  - rewrite (main_filter _ d fence_calls_essential), main_result.
    lay_out d t ok Hplay. walk Hplay; try discriminate.
    intros _. reflexivity.
  - intros Hbad Hin.
    destruct (proj2 (main_orderly d) the_submit eq_refl Hbad Hin) as [Hr He].
    split; [assumption|]. split; [|assumption].
    apply (Hmem the_submit eq_refl) in Hin.
    destruct Hshape as [H | [H | [H | [_ H]]]];
      [ rewrite H in Hin; destruct Hin
      | rewrite H in Hin; destruct Hin as [[=] | []]
      | assumption
      | contradiction ].
  - intros Hbad Hin.
    destruct (proj2 (main_orderly d) the_wait eq_refl Hbad Hin) as [Hr He].
    split; [assumption|]. split; [|assumption].
    apply (Hmem the_wait eq_refl) in Hin.
    destruct Hshape as [H | [H | [H | [H _]]]];
      [ rewrite H in Hin; destruct Hin
      | rewrite H in Hin; destruct Hin as [[=] | []]
      | rewrite H in Hin; destruct Hin as [[=] | [[=] | []]]
      | assumption ].
Qed.

Lemma fence_used_once_witness :
  wf_driver sample_driver /\
  filter is_fence_call (trace (main sample_driver)) =
  [the_fence_creation; the_submit; the_wait].
Proof.
  split; [exact sample_driver_wf|].
  apply (proj1 (proj2 (fence_used_once sample_driver_wf))).
  vm_compute. reflexivity.
Defined.

(* ================================================================== *)
(** * How the process ends *)
(* ================================================================== *)

Lemma layer_query_fails_driver_wf : wf_driver layer_query_fails_driver.
Proof. exact sample_driver_wf. Qed.

(** The run ends in one of two ways, and passes through [exit] at most
    once. *)
Lemma main_exits_once d :
  (result (main d) = Returned 0 /\ filter is_exit (trace (main d)) = []) \/
  (result (main d) = Exited (-1) /\
   filter is_exit (trace (main d)) = [exit (-1)]).
Proof.
  rewrite (main_filter _ d exits_essential), main_result.
  lay_out d t ok Hplay. walk Hplay; classify;
    first [ left; split; reflexivity | right; split; reflexivity ].
Qed.

(** When [main] returns, every condition it checked held. *)
Lemma main_returns_checks_passed d :
  result (main d) = Returned 0 ->
  queue_family_passes d = true /\
  fst (selection d write_image) = 0 /\
  fst (selection d read_image) = 0 /\
  red_of (mapped_word d) = 0xFF /\ green_of (mapped_word d) = 0xFF /\
  blue_of (mapped_word d) = 0x00 /\ alpha_of (mapped_word d) = 0xFF.
Proof.
  rewrite main_result.
  lay_out d t ok Hplay. walk Hplay; try discriminate.
  intros _. repeat split; try assumption; apply Z.eqb_eq; assumption.
Qed.

(** When every condition [main] checks holds, it returns. *)
Lemma main_checks_passed_returns d :
  (forall c, status_is_checked c = true -> status d c = VK_SUCCESS) ->
  queue_family_passes d = true ->
  fst (selection d write_image) = 0 ->
  fst (selection d read_image) = 0 ->
  red_of (mapped_word d) = 0xFF -> green_of (mapped_word d) = 0xFF ->
  blue_of (mapped_word d) = 0x00 -> alpha_of (mapped_word d) = 0xFF ->
  result (main d) = Returned 0.
Proof.
  intros Hs Hq Hw Hr Hred Hgreen Hblue Halpha.
  rewrite <- Z.eqb_eq in Hw, Hr, Hred, Hgreen, Hblue, Halpha.
  rewrite main_result.
  lay_out d t ok Hplay. walk Hplay; try reflexivity; exfalso.
  all: match goal with
       | E : ?b = false, H : ?b = true |- _ => rewrite H in E; discriminate E
       | E : (status _ ?c =? VK_SUCCESS) = false |- _ =>
           rewrite (Hs c eq_refl) in E; discriminate E
       end.
Qed.

Lemma suffix_cons {A} (a : A) (l suffix : list A) :
  (exists pre, l = pre ++ suffix) -> exists pre, a :: l = pre ++ suffix.
Proof. intros (pre & ->). exists (a :: pre). reflexivity. Qed.

Ltac find_suffix :=
  repeat first [ (exists []; reflexivity) | apply suffix_cons ].

(** The end of a run whose last call before the report is [c]. *)
Ltac ends_after_call :=
  split; [reflexivity|];
  match goal with
  | |- exists pre description, ?l = pre ++ ?c :: failure_report description =>
      cut (exists description pre, l = pre ++ c :: failure_report description);
      [ let pre := fresh "pre" in
        let description := fresh "description" in
        let H := fresh "H" in
        intros (description & pre & H); exists pre, description; exact H
      | eexists; find_suffix ]
  end.

Ltac not_reached H :=
  exfalso;
  cbn [In failure_report the_begin the_end the_submit the_wait
       the_fence_creation the_mapping barrier_A barrier_B the_copy] in H;
  repeat (destruct H as [H | H]; [discriminate H|]); exact H.

(** A selection that fails is reported straight after the query for the
    requirements of the image: nothing is allocated in between. *)
Lemma failed_selection_reported_at_once d (image : handle) :
  image = write_image \/ image = read_image ->
  fst (selection d image) <> 0 ->
  In (vkGetImageMemoryRequirements image) (trace (main d)) ->
  result (main d) = Exited (-1) /\
  exists pre description,
    filter essential (trace (main d)) =
    pre ++ vkGetImageMemoryRequirements image :: failure_report description.
Proof.
  intros Himage Hsel Hin.
  assert (Hin' : In (vkGetImageMemoryRequirements image)
                    (filter essential (trace (main d))))
    by (apply filter_In; split; [assumption | reflexivity]).
  clear Hin. revert Hin'. rewrite (proj1 (main_follows d)), main_result.
  destruct Himage as [-> | ->];
    lay_out d t ok Hplay; walk Hplay; intros Hin;
    first [ exfalso; apply Hsel; apply Z.eqb_eq; assumption
          | not_reached Hin
          | ends_after_call ].
Qed.

(** A queue family that is refused is reported straight after the query
    for the queue families: no device is created in between. *)
Lemma failed_queue_check_reported_at_once d :
  queue_family_passes d = false ->
  In (vkGetPhysicalDeviceQueueFamilyProperties physical_device local_array)
     (trace (main d)) ->
  result (main d) = Exited (-1) /\
  exists pre description,
    filter essential (trace (main d)) =
    pre ++ vkGetPhysicalDeviceQueueFamilyProperties physical_device
             local_array
        :: failure_report description.
Proof.
  intros Hq Hin.
  assert (Hin' : In (vkGetPhysicalDeviceQueueFamilyProperties
                       physical_device local_array)
                    (filter essential (trace (main d))))
    by (apply filter_In; split; [assumption | reflexivity]).
  clear Hin. revert Hin'. rewrite (proj1 (main_follows d)), main_result.
  lay_out d t ok Hplay; walk Hplay; intros Hin;
    first [ exfalso;
            match goal with
            | E : queue_family_passes d = true |- _ =>
                rewrite Hq in E; discriminate E
            end
          | not_reached Hin
          | ends_after_call ].
Qed.

(** A pixel that is not the expected one is reported straight after the
    mapping of the memory it is read from. *)
Lemma failed_validation_reported_at_once d :
  ~ (red_of (mapped_word d) = 0xFF /\ green_of (mapped_word d) = 0xFF /\
     blue_of (mapped_word d) = 0x00 /\ alpha_of (mapped_word d) = 0xFF) ->
  In the_mapping (trace (main d)) ->
  result (main d) = Exited (-1) /\
  exists pre description,
    filter essential (trace (main d)) =
    pre ++ the_mapping :: failure_report description.
Proof.
  intros Hbad Hin.
  assert (Hin' : In the_mapping (filter essential (trace (main d))))
    by (apply filter_In; split; [assumption | reflexivity]).
  clear Hin. revert Hin'. rewrite (proj1 (main_follows d)), main_result.
  lay_out d t ok Hplay; walk Hplay; intros Hin;
    first [ exfalso; apply Hbad; repeat split; apply Z.eqb_eq; assumption
          | not_reached Hin
          | ends_after_call ].
Qed.

(** On a driver whose images fit no device-local memory type, the run
    ends straight after the query for the requirements of the render
    target, with the report of the failed selection. *)
Example failed_selection_run :
  fst (selection host_only_driver write_image) <> 0 /\
  exists pre,
    filter essential (trace (main host_only_driver)) =
    pre ++ vkGetImageMemoryRequirements write_image
        :: failure_report "find_appropriate_memory_type for write_image".
Proof.
  split; [vm_compute; discriminate|].
  exists (firstn
            (List.length (filter essential (trace (main host_only_driver)))
             - 3)
            (filter essential (trace (main host_only_driver)))).
  vm_compute. reflexivity.
Qed.

(** C8, amended.  The process ends with status 0 exactly when [main]
    returns 0.  It does so only when every driver call whose status the
    program checks succeeded (all calls that return one except the two
    queries for the instance layers, whose status is dropped), the queue
    family passed its check, both selections returned 0 and the four
    channels are 0xFF, 0xFF, 0x00, 0xFF; and it does so whenever all these
    hold.  Otherwise the process ends through [exit(-1)], status 255: the
    last two things it does are to print the description of the failed
    check and to exit, and it does not pass through [exit] before.  Every
    failed check is reported at once: a checked driver call that does not
    succeed is followed by the report directly; and, output of
    diagnostics aside, the report follows directly the query for the
    queue families when family 0 is refused, the query for the
    requirements of an image when the selection for it fails, with no
    allocation in between, and the mapping of the readback memory when
    the pixel is not the expected one. *)
Theorem exit_zero_only_when_checks_pass (d : driver) :
  wf_driver d ->
  (exit_status (result (main d)) = 0 <-> result (main d) = Returned 0) /\
  (result (main d) = Returned 0 ->
     (forall c, In c (trace (main d)) -> status_is_checked c = true ->
                status d c = VK_SUCCESS) /\
     queue_family_passes d = true /\
     fst (selection d write_image) = 0 /\
     fst (selection d read_image) = 0 /\
     red_of (mapped_word d) = 0xFF /\ green_of (mapped_word d) = 0xFF /\
     blue_of (mapped_word d) = 0x00 /\ alpha_of (mapped_word d) = 0xFF) /\
  ((forall c, status_is_checked c = true -> status d c = VK_SUCCESS) ->
   queue_family_passes d = true ->
   fst (selection d write_image) = 0 ->
   fst (selection d read_image) = 0 ->
   red_of (mapped_word d) = 0xFF -> green_of (mapped_word d) = 0xFF ->
   blue_of (mapped_word d) = 0x00 -> alpha_of (mapped_word d) = 0xFF ->
   result (main d) = Returned 0) /\
  (result (main d) <> Returned 0 ->
     result (main d) = Exited (-1) /\
     exit_status (result (main d)) = 255 /\
     exists pre description,
       trace (main d) = pre ++ failure_report description /\
       filter is_exit pre = []) /\
  (forall c, status_is_checked c = true -> status d c <> VK_SUCCESS ->
     In c (trace (main d)) ->
     result (main d) = Exited (-1) /\
     exists pre description,
       trace (main d) = pre ++ c :: failure_report description) /\
  (queue_family_passes d = false ->
   In (vkGetPhysicalDeviceQueueFamilyProperties physical_device local_array)
      (trace (main d)) ->
   result (main d) = Exited (-1) /\
   exists pre description,
     filter essential (trace (main d)) =
     pre ++ vkGetPhysicalDeviceQueueFamilyProperties physical_device
              local_array
         :: failure_report description) /\
  (forall image, image = write_image \/ image = read_image ->
   fst (selection d image) <> 0 ->
   In (vkGetImageMemoryRequirements image) (trace (main d)) ->
   result (main d) = Exited (-1) /\
   exists pre description,
     filter essential (trace (main d)) =
     pre ++ vkGetImageMemoryRequirements image
         :: failure_report description) /\
  (~ (red_of (mapped_word d) = 0xFF /\ green_of (mapped_word d) = 0xFF /\
      blue_of (mapped_word d) = 0x00 /\ alpha_of (mapped_word d) = 0xFF) ->
   In the_mapping (trace (main d)) ->
   result (main d) = Exited (-1) /\
   exists pre description,
     filter essential (trace (main d)) =
     pre ++ the_mapping :: failure_report description).
Proof.
  intros _.
  pose proof (main_orderly d) as [Hexit Hcall].
  split; [|split; [|split; [|split; [|split; [|split; [|split]]]]]].
  - destruct (main_exits_once d) as [[-> _] | [-> _]]; split;
      intros H; try reflexivity; discriminate H.
  - intros Hret. split; [|now apply main_returns_checks_passed].
    intros c Hin Hc.
    destruct (Z.eq_dec (status d c) VK_SUCCESS) as [|Hbad]; [assumption|].
    destruct (Hcall c Hc Hbad Hin) as [Hr _]. rewrite Hr in Hret.
    discriminate Hret.
  - apply main_checks_passed_returns.
  - intros Hnot.
    destruct (main_exits_once d) as [[Hr _] | [Hr Hone]]; [contradiction|].
    split; [assumption|]. split; [now rewrite Hr|].
    destruct (Hexit _ Hr) as (_ & pre & descr & Ht).
    exists pre, descr. split; [assumption|].
    rewrite Ht, filter_app in Hone.
    change (filter is_exit (failure_report descr)) with ([] ++ [exit (-1)])
      in Hone.
    change [exit (-1)] with ([] ++ [exit (-1)]) in Hone at 2.
    rewrite app_assoc in Hone. apply app_inv_tail in Hone.
    apply app_eq_nil in Hone. tauto.
  - exact Hcall.
  - apply failed_queue_check_reported_at_once.
  - intros image. apply failed_selection_reported_at_once.
  - apply failed_validation_reported_at_once.
Qed.

Lemma exit_zero_only_when_checks_pass_witness :
  wf_driver sample_driver /\
  (exit_status (result (main sample_driver)) = 0 <->
   result (main sample_driver) = Returned 0).
Proof.
  split; [exact sample_driver_wf|].
  exact (proj1 (exit_zero_only_when_checks_pass sample_driver_wf)).
Defined.

(** C8 as it was stated fails on a driver whose query for the instance
    layers reports an error: the program drops that status, goes on, and
    ends with status 0 although a driver call did not succeed. *)
Lemma unchecked_layer_query_exits_zero :
  wf_driver layer_query_fails_driver /\
  In (vkEnumerateInstanceLayerProperties local_array)
     (trace (main layer_query_fails_driver)) /\
  returns_VkResult (vkEnumerateInstanceLayerProperties local_array) = true /\
  status layer_query_fails_driver
    (vkEnumerateInstanceLayerProperties local_array)
    = VK_ERROR_OUT_OF_HOST_MEMORY /\
  VK_ERROR_OUT_OF_HOST_MEMORY <> VK_SUCCESS /\
  result (main layer_query_fails_driver) = Returned 0 /\
  exit_status (result (main layer_query_fails_driver)) = 0.
Proof.
  split; [exact layer_query_fails_driver_wf|].
  split; [vm_compute; right; left; reflexivity|].
  split; [reflexivity|]. split; [reflexivity|].
  split; [discriminate|].
  split; vm_compute; reflexivity.
Qed.

(* ================================================================== *)
(** * The check on the queue family *)
(* ================================================================== *)

Lemma device_creation_essential (c : call) :
  is_device_creation c = true -> essential c = true.
Proof. intros H; destruct c; try discriminate H; reflexivity. Qed.

(** The [int] that [check] receives for the queue family is zero
    exactly when the masked flags are. *)
Lemma queue_family_condition_zero (flags : Z) :
  queue_family_condition flags = 0 <->
  Z.land flags (Z.lor VK_QUEUE_GRAPHICS_BIT VK_QUEUE_TRANSFER_BIT) = 0.
Proof.
  unfold queue_family_condition, to_int.
  change (Z.lor VK_QUEUE_GRAPHICS_BIT VK_QUEUE_TRANSFER_BIT) with 5.
  assert (Hsmall : 0 <= Z.land flags 5 < 8).
  { replace (Z.land flags 5) with (Z.land (Z.land flags 5) (Z.ones 3)).
    - rewrite Z.land_ones by lia. apply Z.mod_pos_bound. lia.
    - rewrite <- Z.land_assoc. reflexivity. }
  change (2 ^ 31) with 2147483648. change (2 ^ 32) with 4294967296.
  rewrite Z.mod_small by lia. lia.
Qed.

Lemma transfer_only_driver_wf : wf_driver transfer_only_driver.
Proof.
  unfold wf_driver. split; [exact sample_memory_properties_wf|].
  split; [exact sample_requirements_wf|].
  split; [exact sample_requirements_wf|].
  split; [discriminate|].
  split; cbv; split; discriminate.
Qed.

(** C9.  The check on queue family 0 passes exactly when its flags meet
    the union of the graphics bit and the transfer bit, that is when the
    family has the graphics bit or the transfer bit; once the instance
    and the physical device are there, the program goes on to create the
    device exactly in that case.  On a driver whose family 0 has the
    transfer bit and not the graphics bit, the program runs to its end:
    it creates its command pool on family 0 and records the render pass
    commands there. *)
Theorem queue_family_check_accepts_either_bit (d : driver) :
  wf_driver d ->
  let flags :=
    queueFlags (subscript zero_queue_family (qprops d) queue_family_index) in
  (queue_family_passes d = true <->
   Z.land flags (Z.lor VK_QUEUE_GRAPHICS_BIT VK_QUEUE_TRANSFER_BIT) <> 0) /\
  (queue_family_passes d = true <->
   Z.land flags VK_QUEUE_GRAPHICS_BIT <> 0 \/
   Z.land flags VK_QUEUE_TRANSFER_BIT <> 0) /\
  (status d (vkCreateInstance instance_args instance) = VK_SUCCESS ->
   status d (vkEnumeratePhysicalDevices instance 1 physical_device)
     = VK_SUCCESS ->
   (In (vkCreateDevice physical_device device_args device) (trace (main d))
    <-> queue_family_passes d = true)) /\
  (exists d',
     wf_driver d' /\
     queueFlags (subscript zero_queue_family (qprops d') queue_family_index)
       = VK_QUEUE_TRANSFER_BIT /\
     Z.land VK_QUEUE_TRANSFER_BIT VK_QUEUE_GRAPHICS_BIT = 0 /\
     result (main d') = Returned 0 /\
     In (vkCreateCommandPool
           {| VkCommandPoolCreateInfo.queueFamilyIndex := 0 |} command_pool)
        (trace (main d')) /\
     filter is_recorded_command (trace (main d')) = recorded_commands).
Proof.
  intros _. cbv zeta.
  assert (Hpass :
    queue_family_passes d = true <->
    Z.land (queueFlags (subscript zero_queue_family (qprops d)
                          queue_family_index))
           (Z.lor VK_QUEUE_GRAPHICS_BIT VK_QUEUE_TRANSFER_BIT) <> 0).
  { unfold queue_family_passes, truthy, queue_family_index.
    rewrite negb_true_iff, Z.eqb_neq, queue_family_condition_zero.
    reflexivity. }
  split; [exact Hpass|]. split; [|split].
  - rewrite Hpass, Z.land_lor_distr_r, Z.lor_eq_0_iff.
    destruct (Z.eq_dec (Z.land (queueFlags (subscript zero_queue_family
                 (qprops d) queue_family_index)) VK_QUEUE_GRAPHICS_BIT) 0);
    destruct (Z.eq_dec (Z.land (queueFlags (subscript zero_queue_family
                 (qprops d) queue_family_index)) VK_QUEUE_TRANSFER_BIT) 0);
    tauto.
  - intros Hi Hp. apply Z.eqb_eq in Hi, Hp.
    assert (Hin :
      In (vkCreateDevice physical_device device_args device) (trace (main d))
      <-> In (vkCreateDevice physical_device device_args device)
             (filter is_device_creation (trace (main d)))).
    { rewrite filter_In. split; [intros H; now split | tauto]. }
    rewrite Hin, (main_filter _ d device_creation_essential). clear Hin Hpass.
    lay_out d t ok Hplay. walk Hplay; classify;
      try match goal with
          | E : ?b = false, H : ?b = true |- _ =>
              rewrite H in E; discriminate E
          end.
    all: split; intros H;
      first [ assumption | left; reflexivity
            | match goal with
              | E : queue_family_passes _ = false |- _ =>
                  rewrite E in H; discriminate H
              end
            | exact (False_ind _ H) ].
  - exists transfer_only_driver.
    split; [exact transfer_only_driver_wf|].
    split; [reflexivity|]. split; [reflexivity|].
    split; [vm_compute; reflexivity|].
    split; [|vm_compute; reflexivity].
    vm_compute. tauto.
Qed.

Lemma queue_family_check_accepts_either_bit_witness :
  wf_driver transfer_only_driver /\
  queue_family_passes transfer_only_driver = true /\
  Z.land (queueFlags (subscript zero_queue_family
                        (qprops transfer_only_driver) queue_family_index))
         VK_QUEUE_GRAPHICS_BIT = 0.
Proof.
  split; [exact transfer_only_driver_wf|]. split; [|reflexivity].
  apply (proj1 (queue_family_check_accepts_either_bit transfer_only_driver_wf)).
  vm_compute. discriminate.
Defined.

(* ================================================================== *)
(** * The layouts *)
(* ================================================================== *)

Lemma track_calls_app st (l1 l2 : list call) :
  track_calls st (l1 ++ l2) =
  match track_calls st l1 with
  | Some st' => track_calls st' l2
  | None => None
  end.
Proof.
  revert st. induction l1 as [| c l1 IH]; intros st; simpl; [reflexivity|].
  destruct (track_call st c); [apply IH | reflexivity].
Qed.

(** The tracker does not look at diagnostic output. *)
Lemma track_calls_essential st (l : list call) :
  track_calls st (filter essential l) = track_calls st l.
Proof.
  revert st. induction l as [| c l IH]; intros st; simpl; [reflexivity|].
  destruct (essential c) eqn:He; simpl.
  - destruct (track_call st c); [apply IH | reflexivity].
  - destruct c; try discriminate He; simpl; apply IH.
Qed.

Lemma VkImageLayout_eqb_eq (a b : VkImageLayout) :
  VkImageLayout_eqb a b = true -> a = b.
Proof. destruct a, b; simpl; intros H; try discriminate H; reflexivity. Qed.

Lemma holds_layout_tracked st image l :
  holds_layout st image l = true -> tracked_layout st image = Some l.
Proof.
  unfold holds_layout. destruct (tracked_layout st image) as [l'|];
    [|discriminate].
  intros H. f_equal. symmetry. exact (VkImageLayout_eqb_eq _ _ H).
Qed.

(** A sequence the tracker accepts was accepted up to each of its calls,
    and that call was accepted in the state reached there. *)
Lemma track_calls_split st (pre post : list call) (c : call) st' :
  track_calls st (pre ++ c :: post) = Some st' ->
  exists st1 st2,
    track_calls st pre = Some st1 /\ track_call st1 c = Some st2.
Proof.
  rewrite track_calls_app.
  destruct (track_calls st pre) as [st1|]; [|discriminate]. simpl.
  destruct (track_call st1 c) as [st2|] eqn:Hc; [|discriminate].
  intros _. exists st1, st2. split; [reflexivity | exact Hc].
Qed.

(** The tracker refuses a copy made before the barrier that prepares
    it: the images are still in the layout they were created with. *)
Example tracker_refuses_copy_without_barrier :
  track_calls no_images
    [ vkCreateImage write_image_args write_image;
      vkCreateImage read_image_args read_image;
      the_copy ] = None.
Proof. reflexivity. Qed.

(** Whatever the driver answers, the tracker accepts the calls of
    [main]. *)
Lemma main_layouts_accepted d :
  exists st, track_calls no_images (trace (main d)) = Some st.
Proof.
  rewrite <- track_calls_essential, (proj1 (main_follows d)).
  lay_out d t ok Hplay. walk Hplay; eexists; reflexivity.
Qed.

Lemma recorded_command_in_sequence d (c : call) :
  is_recorded_command c = true -> In c (trace (main d)) ->
  In c recorded_commands.
Proof.
  intros Hc Hin.
  assert (Hin' : In c (filter is_recorded_command (trace (main d))))
    by (apply filter_In; auto).
  revert Hin'. rewrite (main_filter _ d recorded_commands_essential).
  lay_out d t ok Hplay. walk Hplay; classify; intros H;
    first [ exact (False_ind _ H) | exact H ].
Qed.

(** C4.  The layout tracker accepts the calls of every run: starting
    from the undefined layout each image is created with, and taking the
    final layout of the render pass as a transition of the render target
    to colour-attachment-optimal, every barrier names as old layout, and
    the copy names as source and destination layouts, the layout tracked
    for that image at that point.  So at barrier A the readback image is
    tracked as undefined and the render target as
    colour-attachment-optimal; at the copy the render target is tracked as
    transfer-source and the readback image as transfer-destination, the
    layouts the copy names; at barrier B the readback image is tracked as
    transfer-destination, the old layout barrier B names.  No other call
    of a run names a layout, and a run that returns leaves the readback
    image in the general layout. *)
Theorem layouts_follow_transitions (d : driver) :
  wf_driver d ->
  (exists st, track_calls no_images (trace (main d)) = Some st) /\
  (forall pre post, trace (main d) = pre ++ barrier_A :: post ->
     exists st, track_calls no_images pre = Some st /\
       tracked_layout st read_image = Some VK_IMAGE_LAYOUT_UNDEFINED /\
       tracked_layout st write_image =
         Some VK_IMAGE_LAYOUT_COLOR_ATTACHMENT_OPTIMAL) /\
  (forall pre post, trace (main d) = pre ++ the_copy :: post ->
     exists st, track_calls no_images pre = Some st /\
       tracked_layout st write_image =
         Some VK_IMAGE_LAYOUT_TRANSFER_SRC_OPTIMAL /\
       tracked_layout st read_image =
         Some VK_IMAGE_LAYOUT_TRANSFER_DST_OPTIMAL) /\
  (forall pre post, trace (main d) = pre ++ barrier_B :: post ->
     exists st, track_calls no_images pre = Some st /\
       tracked_layout st read_image =
         Some VK_IMAGE_LAYOUT_TRANSFER_DST_OPTIMAL) /\
  declared_layouts barrier_A =
    [ (read_image, VK_IMAGE_LAYOUT_UNDEFINED);
      (write_image, VK_IMAGE_LAYOUT_COLOR_ATTACHMENT_OPTIMAL) ] /\
  declared_layouts the_copy =
    [ (write_image, VK_IMAGE_LAYOUT_TRANSFER_SRC_OPTIMAL);
      (read_image, VK_IMAGE_LAYOUT_TRANSFER_DST_OPTIMAL) ] /\
  declared_layouts barrier_B =
    [ (read_image, VK_IMAGE_LAYOUT_TRANSFER_DST_OPTIMAL) ] /\
  (forall c, In c (trace (main d)) -> declared_layouts c <> [] ->
     c = barrier_A \/ c = the_copy \/ c = barrier_B) /\
  (result (main d) = Returned 0 ->
     In barrier_A (trace (main d)) /\ In the_copy (trace (main d)) /\
     In barrier_B (trace (main d)) /\
     exists st, track_calls no_images (trace (main d)) = Some st /\
       tracked_layout st read_image = Some VK_IMAGE_LAYOUT_GENERAL /\
       tracked_layout st write_image =
         Some VK_IMAGE_LAYOUT_TRANSFER_SRC_OPTIMAL).
Proof.
  intros _.
  destruct (main_layouts_accepted d) as [st Hst].
  split; [now exists st|].
  split; [|split; [|split; [|split; [|split; [|split; [|split]]]]]];
    try reflexivity.
  - intros pre post Ht. rewrite Ht in Hst.
    apply track_calls_split in Hst. destruct Hst as (st1 & st2 & Hpre & Hc).
    exists st1. split; [assumption|].
    unfold barrier_A, transfer_barriers in Hc. cbn [track_call track_barriers] in Hc.
    unfold track_barrier at 1 in Hc.
    cbn [VkImageMemoryBarrier.image VkImageMemoryBarrier.oldLayout
         VkImageMemoryBarrier.newLayout] in Hc.
    destruct (holds_layout st1 read_image VK_IMAGE_LAYOUT_UNDEFINED) eqn:Hread;
      [|discriminate].
    unfold track_barrier in Hc.
    cbn [VkImageMemoryBarrier.image VkImageMemoryBarrier.oldLayout
         VkImageMemoryBarrier.newLayout] in Hc.
    destruct (holds_layout _ write_image _) eqn:Hwrite; [|discriminate].
    split; apply holds_layout_tracked; assumption.
  - intros pre post Ht. rewrite Ht in Hst.
    apply track_calls_split in Hst. destruct Hst as (st1 & st2 & Hpre & Hc).
    exists st1. split; [assumption|].
    unfold the_copy in Hc. cbn [track_call] in Hc.
    destruct (holds_layout st1 write_image _) eqn:Hwrite; [|discriminate].
    destruct (holds_layout st1 read_image _) eqn:Hread; [|discriminate].
    split; apply holds_layout_tracked; assumption.
  - intros pre post Ht. rewrite Ht in Hst.
    apply track_calls_split in Hst. destruct Hst as (st1 & st2 & Hpre & Hc).
    exists st1. split; [assumption|].
    unfold barrier_B, host_barriers in Hc.
    cbn [track_call track_barriers] in Hc. unfold track_barrier in Hc.
    cbn [VkImageMemoryBarrier.image VkImageMemoryBarrier.oldLayout
         VkImageMemoryBarrier.newLayout] in Hc.
    destruct (holds_layout st1 read_image _) eqn:Hread; [|discriminate].
    apply holds_layout_tracked; assumption.
  - intros c Hin Hdecl.
    assert (Hc : is_recorded_command c = true)
      by (destruct c; try reflexivity; now contradiction Hdecl).
    pose proof (recorded_command_in_sequence d c Hc Hin) as H.
    unfold recorded_commands in H. simpl in H.
    destruct H as [<- | [<- | [<- | [<- | [<- | [<- | []]]]]]];
      auto; now contradiction Hdecl.
  - intros Hret. clear st Hst. revert Hret.
    assert (Hin : forall c, essential c = true ->
              In c (filter essential (trace (main d))) ->
              In c (trace (main d)))
      by (intros c _ H; apply filter_In in H; tauto).
    pose proof (Hin barrier_A eq_refl) as HA.
    pose proof (Hin the_copy eq_refl) as HC.
    pose proof (Hin barrier_B eq_refl) as HB.
    clear Hin. revert HA HC HB.
    rewrite <- (track_calls_essential no_images (trace (main d))).
    rewrite (proj1 (main_follows d)), main_result.
    lay_out d t ok Hplay. walk Hplay; intros HA HC HB Hret;
      try discriminate Hret.
    split; [apply HA; simpl; tauto|].
    split; [apply HC; simpl; tauto|].
    split; [apply HB; simpl; tauto|].
    eexists. split; [reflexivity|]. split; reflexivity.
Qed.

Lemma layouts_follow_transitions_witness :
  wf_driver sample_driver /\
  exists st, track_calls no_images (trace (main sample_driver)) = Some st.
Proof.
  split; [exact sample_driver_wf|].
  exact (proj1 (layouts_follow_transitions sample_driver_wf)).
Defined.


(* ================================================================== *)
(** * More on the selection *)
(* ================================================================== *)

(** What the loop leaves is fixed by which indices pass the test of its
    body: two loops whose tests agree from [t] up to the count end
    alike. *)
Lemma find_loop_ext mp reqs props mp' reqs' props' (t : Z) :
  memoryTypeCount mp = memoryTypeCount mp' ->
  (forall j, t <= j < memoryTypeCount mp ->
     accepts mp reqs props j = accepts mp' reqs' props' j) ->
  find_loop mp reqs props t = find_loop mp' reqs' props' t.
Proof.
  intros Hcount Hsame.
  pose proof (find_loop_spec mp reqs props t) as H.
  pose proof (find_loop_spec mp' reqs' props' t) as H'.
  destruct (find_loop mp reqs props t) as [r out].
  destruct (find_loop mp' reqs' props' t) as [r' out'].
  rewrite <- Hcount in H'.
  destruct H as [(-> & Hout & Hacc & Hlow) | (-> & -> & Hnone)];
  destruct H' as [(-> & Hout' & Hacc' & Hlow') | (-> & -> & Hnone')].
  - f_equal.
    destruct (Z.lt_trichotomy out out') as [Hlt | [Heq | Hgt]];
      [exfalso | assumption | exfalso].
    + rewrite Hsame, Hlow' in Hacc by lia. discriminate.
    + rewrite <- Hsame, Hlow in Hacc' by lia. discriminate.
  - exfalso. rewrite Hsame, Hnone' in Hacc by lia. discriminate.
  - exfalso. rewrite <- Hsame, Hnone in Hacc' by lia. discriminate.
  - reflexivity.
Qed.

(** X1.  On a table with no memory type in use, or for requirements
    whose mask has no bit set, the selection returns -1 and leaves
    [memoryTypeCount] in [*type], whatever flags are asked for. *)
Theorem find_appropriate_memory_type_nothing_to_choose
  (mp : VkPhysicalDeviceMemoryProperties) (reqs : VkMemoryRequirements)
  (props prior : Z) :
  0 <= memoryTypeCount mp ->
  memoryTypeCount mp = 0 \/ memoryTypeBits reqs = 0 ->
  find_appropriate_memory_type mp reqs props prior = (-1, memoryTypeCount mp).
Proof.
  intros Hcount Hempty. unfold find_appropriate_memory_type. cbv zeta.
  pose proof (find_loop_spec mp reqs props 0) as H.
  destruct (find_loop mp reqs props 0) as [r out].
  destruct H as [(_ & Hout & Hacc & _) | (-> & -> & _)].
  - exfalso. destruct Hempty as [H0 | H0]; [lia|].
    unfold accepts, type_is_compatible, truthy in Hacc.
    rewrite H0, Z.land_0_r in Hacc. discriminate.
  - f_equal. lia.
Qed.

Lemma find_appropriate_memory_type_nothing_to_choose_witness :
  0 <= memoryTypeCount empty_memory_properties /\
  find_appropriate_memory_type empty_memory_properties sample_requirements
    VK_MEMORY_PROPERTY_HOST_VISIBLE_BIT 5 = (-1, 0).
Proof.
  assert (H : 0 <= memoryTypeCount empty_memory_properties) by (simpl; lia).
  split; [exact H|].
  exact (@find_appropriate_memory_type_nothing_to_choose
           empty_memory_properties sample_requirements
           VK_MEMORY_PROPERTY_HOST_VISIBLE_BIT 5 H (or_introl eq_refl)).
Defined.

(** X2.  Asked for no property flag at all, the selection returns the
    lowest index of the table whose bit is set in the mask, whatever the
    flags of that memory type; it fails only when the mask has no bit set
    below [memoryTypeCount]. *)
Theorem find_appropriate_memory_type_no_flags
  (mp : VkPhysicalDeviceMemoryProperties) (reqs : VkMemoryRequirements)
  (prior : Z) :
  wf_memory_properties mp ->
  let res := find_appropriate_memory_type mp reqs 0 prior in
  (fst res = 0 /\ 0 <= snd res < memoryTypeCount mp /\
   Z.testbit (memoryTypeBits reqs) (snd res) = true /\
   forall j, 0 <= j < snd res -> Z.testbit (memoryTypeBits reqs) j = false)
  \/
  (fst res = -1 /\
   forall i, 0 <= i < memoryTypeCount mp ->
     Z.testbit (memoryTypeBits reqs) i = false).
Proof.
  intros (Hcount & _ & _). unfold VK_MAX_MEMORY_TYPES in Hcount.
  assert (Hany : forall i, suitable mp reqs 0 i <->
                           Z.testbit (memoryTypeBits reqs) i = true).
  { intros i. unfold suitable, flags_superset. split; [tauto|].
    intros Hbit. split; [assumption|].
    intros n _ Hn. rewrite Z.bits_0 in Hn. discriminate. }
  cbv zeta. unfold find_appropriate_memory_type. cbv zeta.
  pose proof (find_loop_from_zero mp reqs 0 Hcount) as H.
  destruct (find_loop mp reqs 0 0) as [r out]. simpl.
  destruct H as [(Hr & Hout & Hsuit & Hlow) | (Hr & Hout & Hnone)].
  - left. split; [assumption|]. split; [assumption|].
    split; [exact (proj1 (Hany out) Hsuit)|].
    intros j Hj. destruct (Z.testbit (memoryTypeBits reqs) j) eqn:Hb;
      [|reflexivity].
    exfalso. exact (Hlow j Hj (proj2 (Hany j) Hb)).
  - right. split; [assumption|].
    intros i Hi. destruct (Z.testbit (memoryTypeBits reqs) i) eqn:Hb;
      [|reflexivity].
    exfalso. exact (Hnone i Hi (proj2 (Hany i) Hb)).
Qed.

Lemma find_appropriate_memory_type_no_flags_witness :
  wf_memory_properties sample_memory_properties /\
  find_appropriate_memory_type sample_memory_properties
    {| size := 1; alignment := 1; memoryTypeBits := 2 |} 0 9 = (0, 1) /\
  Z.testbit 2 1 = true.
Proof.
  split; [exact sample_memory_properties_wf|].
  split; [vm_compute; reflexivity|].
  destruct (@find_appropriate_memory_type_no_flags
              sample_memory_properties
              {| size := 1; alignment := 1; memoryTypeBits := 2 |} 9
              sample_memory_properties_wf)
    as [(_ & _ & Hbit & _) | (Hfail & _)].
  - exact Hbit.
  - vm_compute in Hfail. discriminate Hfail.
Defined.

(** X3.  Asking for less never loses a match and never moves it up: when
    the selection succeeds with index [i], it also succeeds for any
    subset of the required flags and any mask with at least the same
    bits, with an index that is not above [i]. *)
Theorem find_appropriate_memory_type_monotone
  (mp : VkPhysicalDeviceMemoryProperties) (reqs reqs' : VkMemoryRequirements)
  (props props' prior prior' i : Z) :
  wf_memory_properties mp ->
  flags_superset props props' ->
  flags_superset (memoryTypeBits reqs') (memoryTypeBits reqs) ->
  find_appropriate_memory_type mp reqs props prior = (0, i) ->
  exists i',
    find_appropriate_memory_type mp reqs' props' prior' = (0, i') /\
    0 <= i' <= i.
Proof.
  intros (Hcount & _ & _) Hprops Hmask. unfold VK_MAX_MEMORY_TYPES in Hcount.
  unfold find_appropriate_memory_type. cbv zeta.
  pose proof (find_loop_from_zero mp reqs props Hcount) as H.
  pose proof (find_loop_from_zero mp reqs' props' Hcount) as H'.
  destruct (find_loop mp reqs props 0) as [r out].
  destruct (find_loop mp reqs' props' 0) as [r' out'].
  intros [= -> ->].
  destruct H as [(_ & Hout & Hsuit & _) | (Hr & _)]; [|discriminate Hr].
  assert (Hsuit' : suitable mp reqs' props' i).
  { destruct Hsuit as [Hbit Hflags]. split.
    - apply Hmask; [lia | assumption].
    - intros n Hn Hreq. apply Hflags; [assumption|]. now apply Hprops. }
  destruct H' as [(-> & Hout' & _ & Hlow') | (_ & _ & Hnone')].
  - exists out'. split; [reflexivity|].
    destruct (Z_le_gt_dec out' i) as [Hle | Hgt]; [lia|].
    exfalso. apply (Hlow' i); [lia | assumption].
  - exfalso. exact (Hnone' i Hout Hsuit').
Qed.

Lemma find_appropriate_memory_type_monotone_witness :
  wf_memory_properties sample_memory_properties /\
  find_appropriate_memory_type sample_memory_properties sample_requirements
    VK_MEMORY_PROPERTY_HOST_VISIBLE_BIT 0 = (0, 1) /\
  exists i',
    find_appropriate_memory_type sample_memory_properties sample_requirements
      0 0 = (0, i') /\ 0 <= i' <= 1.
Proof.
  assert (H : find_appropriate_memory_type sample_memory_properties
                sample_requirements VK_MEMORY_PROPERTY_HOST_VISIBLE_BIT 0
              = (0, 1)) by (vm_compute; reflexivity).
  split; [exact sample_memory_properties_wf|]. split; [exact H|].
  refine (@find_appropriate_memory_type_monotone
            sample_memory_properties sample_requirements sample_requirements
            VK_MEMORY_PROPERTY_HOST_VISIBLE_BIT 0 0 0 1
            sample_memory_properties_wf _ _ H).
  - intros n _ Hn. rewrite Z.bits_0 in Hn. discriminate Hn.
  - intros n _ Hn. exact Hn.
Defined.

(** X4.  The selection reads nothing but the count, the property flags
    of the memory types below the count, and the bits of the mask below
    the count: two tables and two requirements that agree on these give
    the same result, whatever their heap indices, their entries and bits
    from the count on, and the prior content of [*type]. *)
Theorem find_appropriate_memory_type_reads_below_count
  (mp mp' : VkPhysicalDeviceMemoryProperties)
  (reqs reqs' : VkMemoryRequirements) (props prior prior' : Z) :
  wf_memory_properties mp ->
  memoryTypeCount mp = memoryTypeCount mp' ->
  (forall i, 0 <= i < memoryTypeCount mp ->
     propertyFlags (subscript zero_memory_type (memoryTypes mp) i) =
     propertyFlags (subscript zero_memory_type (memoryTypes mp') i)) ->
  (forall i, 0 <= i < memoryTypeCount mp ->
     Z.testbit (memoryTypeBits reqs) i = Z.testbit (memoryTypeBits reqs') i) ->
  find_appropriate_memory_type mp reqs props prior =
  find_appropriate_memory_type mp' reqs' props prior'.
Proof.
  intros (Hcount & _ & _) Hsame Hflags Hbits.
  unfold VK_MAX_MEMORY_TYPES in Hcount.
  unfold find_appropriate_memory_type. cbv zeta.
  apply find_loop_ext; [assumption|].
  intros j Hj. unfold accepts, type_has_props.
  rewrite !type_is_compatible_testbit by lia.
  rewrite Hbits, Hflags by lia. reflexivity.
Qed.

Lemma find_appropriate_memory_type_reads_below_count_witness :
  wf_memory_properties sample_memory_properties /\
  find_appropriate_memory_type sample_memory_properties sample_requirements
    VK_MEMORY_PROPERTY_HOST_VISIBLE_BIT 0 =
  find_appropriate_memory_type (device_memory_properties chatty_driver)
    {| size := 8; alignment := 2; memoryTypeBits := 3 + 2 ^ 20 |}
    VK_MEMORY_PROPERTY_HOST_VISIBLE_BIT 31.
Proof.
  split; [exact sample_memory_properties_wf|].
  apply (@find_appropriate_memory_type_reads_below_count
           sample_memory_properties (device_memory_properties chatty_driver)
           sample_requirements
           {| size := 8; alignment := 2; memoryTypeBits := 3 + 2 ^ 20 |}
           VK_MEMORY_PROPERTY_HOST_VISIBLE_BIT 0 31
           sample_memory_properties_wf eq_refl).
  - intros i Hi. simpl in Hi.
    assert (Hc : i = 0 \/ i = 1) by lia. destruct Hc as [-> | ->]; reflexivity.
  - intros i Hi. simpl in Hi.
    assert (Hc : i = 0 \/ i = 1) by lia. destruct Hc as [-> | ->]; reflexivity.
Defined.


(* ================================================================== *)
(** * More on the validation *)
(* ================================================================== *)

(** X5.  The validation first prints the four channels, then reports
    one failure at most: the first comparison, in the order red, green,
    blue, alpha, that does not hold.  Channels after it are not compared,
    and when all four hold nothing more is printed. *)
Theorem validate_pixel_reports_first_mismatch (pixel : Z) :
  trace (validate_pixel pixel) =
    printf (fmt "r = %#x, g = %#x, b = %#x, a = %#x")
      [ arg_int (red_of pixel); arg_int (green_of pixel);
        arg_int (blue_of pixel); arg_int (alpha_of pixel) ]
    :: match first_mismatch pixel with
       | Some (_, _, description) => failure_report description
       | None => []
       end /\
  result (validate_pixel pixel) =
    match first_mismatch pixel with
    | Some _ => Exited (-1)
    | None => Returned tt
    end /\
  (forall found expected description,
     first_mismatch pixel = Some (found, expected, description) ->
     found <> expected /\
     In (found, expected, description) (channel_checks pixel)).
Proof.
  unfold validate_pixel, first_mismatch, channel_checks. cbv zeta.
  generalize (red_of pixel) (green_of pixel) (blue_of pixel) (alpha_of pixel).
  intros r g b a.
  rewrite !trace_bind, !result_bind, !check_run, !truthy_c_eq.
  cbn [find trace result perform ret fst snd app].
  destruct (Z.eqb_spec r 255) as [Hr | Hr]; cbn [negb];
    [destruct (Z.eqb_spec g 255) as [Hg | Hg]; cbn [negb];
       [destruct (Z.eqb_spec b 0) as [Hb | Hb]; cbn [negb];
          [destruct (Z.eqb_spec a 255) as [Ha | Ha]; cbn [negb] | ] | ] | ];
    (split; [reflexivity|]; split; [reflexivity|]);
    intros found expected description [= <- <- <-];
    (split; [assumption | simpl; tauto]).
Qed.


(* ================================================================== *)
(** * More on the runs of [main] *)
(* ================================================================== *)

Lemma memory_allocations_essential (c : call) :
  is_memory_allocation c = true -> essential c = true.
Proof. intros H; destruct c; try discriminate H; reflexivity. Qed.

Lemma completion_steps_essential (c : call) :
  is_completion_step c = true -> essential c = true.
Proof. intros H; destruct c; try discriminate H; reflexivity. Qed.

(** When the selection made for an image returns 0, the index it leaves
    is the lowest suitable one of the device's table. *)
Lemma selection_zero_suitable d image :
  wf_memory_properties (device_memory_properties d) ->
  fst (selection d image) = 0 ->
  0 <= snd (selection d image) < memoryTypeCount (device_memory_properties d) /\
  suitable (device_memory_properties d) (image_memory_requirements d image)
           (desired_flags image) (snd (selection d image)) /\
  forall j, 0 <= j < snd (selection d image) ->
    ~ suitable (device_memory_properties d)
        (image_memory_requirements d image) (desired_flags image) j.
Proof.
  intros (Hcount & _ & _). unfold VK_MAX_MEMORY_TYPES in Hcount.
  unfold selection, find_appropriate_memory_type. cbv zeta.
  pose proof (find_loop_from_zero (device_memory_properties d)
                (image_memory_requirements d image) (desired_flags image)
                Hcount) as H.
  destruct (find_loop _ _ _ 0) as [r out]. simpl.
  destruct H as [(_ & Hout & Hsuit & Hlow) | (-> & _)]; [|discriminate].
  intros _. split; [assumption|]. split; assumption.
Qed.

(** X6.  Memory is only ever allocated with what the driver asked for
    and the selection chose: every [vkAllocateMemory] call of a run is for
    the render target or the readback image, has the size the driver
    reported for that image, and names a memory type that exists in the
    table, is allowed by the image's mask and has the flag wanted for the
    image (device-local for the render target, host-visible for the
    readback image), namely the lowest such type. *)
Theorem allocation_uses_selected_type (d : driver)
  (args : VkMemoryAllocateInfo.t) (pMemory : handle) :
  wf_driver d ->
  In (vkAllocateMemory args pMemory) (trace (main d)) ->
  exists image,
    (image = write_image /\
     desired_flags image = VK_MEMORY_PROPERTY_DEVICE_LOCAL_BIT \/
     image = read_image /\
     desired_flags image = VK_MEMORY_PROPERTY_HOST_VISIBLE_BIT) /\
    pMemory = memory_of image /\
    VkMemoryAllocateInfo.allocationSize args =
      size (image_memory_requirements d image) /\
    0 <= VkMemoryAllocateInfo.memoryTypeIndex args
      < memoryTypeCount (device_memory_properties d) /\
    suitable (device_memory_properties d) (image_memory_requirements d image)
      (desired_flags image) (VkMemoryAllocateInfo.memoryTypeIndex args) /\
    forall j, 0 <= j < VkMemoryAllocateInfo.memoryTypeIndex args ->
      ~ suitable (device_memory_properties d)
          (image_memory_requirements d image) (desired_flags image) j.
Proof.
  intros (Hmp & _) Hin.
  assert (Hin' : In (vkAllocateMemory args pMemory)
                    (filter is_memory_allocation (trace (main d))))
    by (apply filter_In; auto).
  clear Hin. revert Hin'.
  rewrite (main_filter _ d memory_allocations_essential).
  assert (Hcase : forall image,
    image = write_image \/ image = read_image ->
    (fst (selection d image) =? 0) = true ->
    vkAllocateMemory
      (allocate_args (image_memory_requirements d image)
                     (snd (selection d image))) (memory_of image)
    = vkAllocateMemory args pMemory ->
    exists image,
      (image = write_image /\
       desired_flags image = VK_MEMORY_PROPERTY_DEVICE_LOCAL_BIT \/
       image = read_image /\
       desired_flags image = VK_MEMORY_PROPERTY_HOST_VISIBLE_BIT) /\
      pMemory = memory_of image /\
      VkMemoryAllocateInfo.allocationSize args =
        size (image_memory_requirements d image) /\
      0 <= VkMemoryAllocateInfo.memoryTypeIndex args
        < memoryTypeCount (device_memory_properties d) /\
      suitable (device_memory_properties d)
        (image_memory_requirements d image)
        (desired_flags image) (VkMemoryAllocateInfo.memoryTypeIndex args) /\
      forall j, 0 <= j < VkMemoryAllocateInfo.memoryTypeIndex args ->
        ~ suitable (device_memory_properties d)
            (image_memory_requirements d image) (desired_flags image) j).
  { intros image Himage Hsel [= <- <-]. apply Z.eqb_eq in Hsel.
    exists image. split.
    - destruct Himage as [-> | ->]; [left | right]; split; reflexivity.
    - split; [reflexivity|]. split; [reflexivity|].
      exact (selection_zero_suitable d image Hmp Hsel). }
  lay_out d t ok Hplay. walk Hplay;
    cbn [filter is_memory_allocation failure_report the_begin the_end
         the_submit the_wait the_fence_creation the_mapping barrier_A
         barrier_B the_copy app In];
    intros Hin;
    repeat match goal with
           | H : _ \/ _ |- _ => destruct H as [H | H]
           | H : False |- _ => destruct H
           end;
    first [ apply (Hcase write_image (or_introl eq_refl)); assumption
          | apply (Hcase read_image (or_intror eq_refl)); assumption ].
Qed.

Lemma allocation_uses_selected_type_witness :
  wf_driver sample_driver /\
  In (vkAllocateMemory (allocate_args sample_requirements 1) read_image_memory)
     (trace (main sample_driver)) /\
  exists image,
    read_image_memory = memory_of image /\
    suitable (device_memory_properties sample_driver)
      (image_memory_requirements sample_driver image) (desired_flags image) 1.
Proof.
  assert (Hin : In (vkAllocateMemory (allocate_args sample_requirements 1)
                      read_image_memory) (trace (main sample_driver)))
    by (vm_compute; tauto).
  split; [exact sample_driver_wf|]. split; [exact Hin|].
  destruct (@allocation_uses_selected_type sample_driver _ _
              sample_driver_wf Hin)
    as (image & _ & Hmem & _ & _ & Hsuit & _).
  exists image. split; [exact Hmem | exact Hsuit].
Defined.

(** The order of the handles is not disturbed by diagnostic output. *)
Lemma handles_in_order_essential d valid (l : list call) :
  handles_in_order d valid (filter essential l) = handles_in_order d valid l.
Proof.
  revert valid. induction l as [| c l IH]; intros valid; simpl;
    [reflexivity|].
  destruct (essential c) eqn:He; simpl.
  - now rewrite IH.
  - destruct c; try discriminate He; simpl; apply IH.
Qed.

(** The order is refused when an image is created before the device. *)
Example handles_out_of_order d :
  handles_in_order d [] [vkCreateImage write_image_args write_image] = false.
Proof. reflexivity. Qed.

(** X7.  No call of a run reads a handle before the call that writes it
    has been made and, where it returns a status, has succeeded: the
    instance before the physical device is asked for, the device before
    anything is created on it, each image before its memory is bound and
    its view created, the view and the render pass before the framebuffer,
    the pool before the command buffer, the command buffer before
    anything is recorded, the fence and the queue before the
    submission. *)
Theorem handles_written_before_read (d : driver) :
  wf_driver d ->
  handles_in_order d [] (trace (main d)) = true.
Proof.
  intros _.
  rewrite <- handles_in_order_essential, (proj1 (main_follows d)).
  lay_out d t ok Hplay. walk Hplay;
    cbn [handles_in_order valid_after written_handle returns_VkResult uses
         failure_report the_begin the_end the_submit the_wait
         the_fence_creation the_mapping barrier_A barrier_B the_copy];
    repeat match goal with
           | E : (status _ _ =? VK_SUCCESS) = _ |- _ => rewrite E; clear E
           end;
    reflexivity.
Qed.

Lemma handles_written_before_read_witness :
  wf_driver lost_device_driver /\
  handles_in_order lost_device_driver [] (trace (main lost_device_driver))
  = true.
Proof.
  assert (Hwf : wf_driver lost_device_driver) by exact sample_driver_wf.
  split; [exact Hwf|].
  exact (@handles_written_before_read lost_device_driver Hwf).
Defined.

(** X8.  The end of the recording, the submission, the wait for the
    fence and the mapping of the readback memory are made in this order,
    each at most once, and each only after the one before it has returned
    [VK_SUCCESS]: the memory is never mapped unless the wait for the fence
    succeeded, and nothing is submitted unless the recording ended
    well. *)
Theorem readback_follows_completion (d : driver) :
  wf_driver d ->
  let steps := filter is_completion_step (trace (main d)) in
  (steps = [] \/ steps = [the_end] \/ steps = [the_end; the_submit] \/
   steps = [the_end; the_submit; the_wait] \/
   steps = [the_end; the_submit; the_wait; the_mapping]) /\
  (In the_submit (trace (main d)) -> status d the_end = VK_SUCCESS) /\
  (In the_wait (trace (main d)) ->
     status d the_end = VK_SUCCESS /\ status d the_submit = VK_SUCCESS) /\
  (In the_mapping (trace (main d)) ->
     status d the_end = VK_SUCCESS /\ status d the_submit = VK_SUCCESS /\
     status d the_wait = VK_SUCCESS) /\
  (result (main d) = Returned 0 ->
     steps = [the_end; the_submit; the_wait; the_mapping] /\
     status d the_mapping = VK_SUCCESS).
Proof.
  intros _. cbv zeta.
  assert (Hmem : forall c, is_completion_step c = true ->
            In c (trace (main d)) ->
            In c (filter is_completion_step (trace (main d))))
    by (intros c Hc Hin; apply filter_In; auto).
  pose proof (Hmem the_submit eq_refl) as Hs.
  pose proof (Hmem the_wait eq_refl) as Hw.
  pose proof (Hmem the_mapping eq_refl) as Hm.
  clear Hmem. revert Hs Hw Hm.
  rewrite (main_filter _ d completion_steps_essential), main_result.
  lay_out d t ok Hplay. walk Hplay;
    cbn [filter is_completion_step failure_report the_end the_submit
         the_wait the_mapping barrier_A barrier_B the_copy the_begin
         the_fence_creation];
    intros Hs Hw Hm;
    (split; [tauto|]);
    repeat match goal with
           | E : (status _ _ =? VK_SUCCESS) = true |- _ =>
               apply Z.eqb_eq in E
           end;
    (split; [intros H; try assumption; apply Hs in H; simpl in H;
             repeat (destruct H as [H | H]; try discriminate H);
             destruct H |]);
    (split; [intros H; try (split; assumption); apply Hw in H; simpl in H;
             repeat (destruct H as [H | H]; try discriminate H);
             destruct H |]);
    (split; [intros H; try (repeat split; assumption); apply Hm in H;
             simpl in H;
             repeat (destruct H as [H | H]; try discriminate H);
             destruct H |]);
    intros H; try discriminate H; split; [reflexivity | assumption].
Qed.

Lemma readback_follows_completion_witness :
  wf_driver lost_device_driver /\
  filter is_completion_step (trace (main lost_device_driver)) =
    [the_end; the_submit] /\
  ~ In the_mapping (trace (main lost_device_driver)).
Proof.
  assert (Hwf : wf_driver lost_device_driver) by exact sample_driver_wf.
  split; [exact Hwf|]. split; [vm_compute; reflexivity|].
  intros Hin.
  destruct (proj1 (proj2 (proj2 (proj2
              (@readback_follows_completion lost_device_driver Hwf)))) Hin)
    as (_ & Hsubmit & _).
  vm_compute in Hsubmit. discriminate Hsubmit.
Defined.


Lemma chatty_driver_wf : wf_driver chatty_driver.
Proof.
  unfold wf_driver. split; [|split; [|split; [|split; [|split]]]].
  - unfold wf_memory_properties. split; [|split].
    + cbn. unfold VK_MAX_MEMORY_TYPES. lia.
    + reflexivity.
    + cbn. repeat constructor; cbv; discriminate.
  - cbv. split; discriminate.
  - cbv. split; discriminate.
  - discriminate.
  - cbv. split; discriminate.
  - cbv. split; discriminate.
Qed.

Lemma same_but_diagnostics_selection d d' image :
  wf_driver d -> same_but_diagnostics d d' ->
  image = write_image \/ image = read_image ->
  selection d image = selection d' image.
Proof.
  intros (Hmp & _) (_ & Hcount & Hflags & Hreqs & _) Himage.
  destruct Hmp as (Hbound & _ & _). unfold VK_MAX_MEMORY_TYPES in Hbound.
  unfold selection, find_appropriate_memory_type. cbv zeta.
  apply find_loop_ext; [assumption|].
  intros j Hj. unfold accepts, type_has_props.
  rewrite !type_is_compatible_testbit by lia.
  rewrite (proj2 (Hreqs image Himage)), Hflags by lia. reflexivity.
Qed.

(** X9.  What the program only prints does not steer it: on two drivers
    that return the same statuses and agree on the property flags of the
    memory types in use, on the size and memory-type bits reported for
    the two images, on the flags of queue family 0 and on the first
    mapped word, the program makes the same calls with the same
    arguments, diagnostics aside, and ends the same way, whatever the
    layers, the device properties, the memory heaps, the heap indices,
    the alignments and the other queue families are. *)
Theorem diagnostics_do_not_steer (d d' : driver) :
  wf_driver d -> same_but_diagnostics d d' ->
  filter essential (trace (main d)) = filter essential (trace (main d')) /\
  result (main d) = result (main d').
Proof.
  intros Hwf Hsame.
  pose proof (same_but_diagnostics_selection Hwf Hsame
                (or_introl eq_refl)) as Hw.
  pose proof (same_but_diagnostics_selection Hwf Hsame
                (or_intror eq_refl)) as Hr.
  destruct Hsame as (Hstatus & _ & _ & Hreqs & Hqueue & Hword).
  assert (Hscript : main_script d = main_script d').
  { unfold main_script, bind_memory_script, checked, queue_family_passes,
      allocate_args.
    rewrite Hw, Hr, Hqueue, Hword.
    rewrite (proj1 (Hreqs write_image (or_introl eq_refl))).
    rewrite (proj1 (Hreqs read_image (or_intror eq_refl))).
    rewrite !Hstatus. reflexivity. }
  rewrite (proj1 (main_follows d)), (proj1 (main_follows d')).
  rewrite (proj2 (main_follows d)), (proj2 (main_follows d')).
  rewrite Hscript. split; reflexivity.
Qed.

Lemma diagnostics_do_not_steer_witness :
  wf_driver sample_driver /\ same_but_diagnostics sample_driver chatty_driver /\
  layerNames sample_driver <> layerNames chatty_driver /\
  filter essential (trace (main sample_driver)) =
    filter essential (trace (main chatty_driver)) /\
  result (main sample_driver) = result (main chatty_driver).
Proof.
  assert (Hsame : same_but_diagnostics sample_driver chatty_driver).
  { unfold same_but_diagnostics.
    split; [reflexivity|]. split; [reflexivity|]. split.
    - intros i Hi. simpl in Hi.
      assert (Hc : i = 0 \/ i = 1) by lia.
      destruct Hc as [-> | ->]; reflexivity.
    - split; [intros image _; split; reflexivity|].
      split; reflexivity. }
  split; [exact sample_driver_wf|]. split; [exact Hsame|].
  split; [discriminate|].
  exact (@diagnostics_do_not_steer sample_driver chatty_driver
           sample_driver_wf Hsame).
Defined.

(* ================================================================== *)
(** * The reports of failed checks *)
(* ================================================================== *)

Lemma reported_report (l : list call) (description : string) :
  reported (l ++ failure_report description) = Some description.
Proof. unfold reported. rewrite rev_app_distr. reflexivity. Qed.

Lemma before_report_report (l : list call) (description : string) :
  before_report (l ++ failure_report description) = l.
Proof.
  unfold before_report, failure_report.
  change (l ++ [?a; ?b]) with (l ++ [a] ++ [b]).
  rewrite app_assoc, !removelast_last. reflexivity.
Qed.

(** A run that ends with a report is, diagnostics aside, a run of the
    script that ends with the same report. *)
Lemma report_in_script d (pre : list call) (description : string) :
  trace (main d) = pre ++ failure_report description ->
  fst (play (main_script d)) =
  filter essential pre ++ failure_report description.
Proof.
  intros Ht. rewrite <- (proj1 (main_follows d)), Ht, filter_app.
  reflexivity.
Qed.

Ltac read_report H :=
  let Hd := fresh "Hd" in
  pose proof (f_equal reported H) as Hd;
  rewrite reported_report in Hd;
  cbn [reported rev app failure_report the_begin the_end the_submit the_wait
       the_fence_creation the_mapping barrier_A barrier_B the_copy] in Hd;
  first [ discriminate Hd | injection Hd as Hd ].

(** X10.  A run that ends with the report of a failed check carries an
    empty description in exactly three cases: the instance could not be
    created, the physical device could not be enumerated, or the first
    queue family was refused.  Every other failed check is reported with
    a description of its own. *)
Theorem empty_description_cases (d : driver) (pre : list call)
  (description : string) :
  wf_driver d ->
  trace (main d) = pre ++ failure_report description ->
  (description = "" <->
   status d (vkCreateInstance instance_args instance) <> VK_SUCCESS \/
   status d (vkEnumeratePhysicalDevices instance 1 physical_device)
     <> VK_SUCCESS \/
   queue_family_passes d = false).
Proof.
  intros _ Ht. apply report_in_script in Ht. revert Ht.
  generalize (filter essential pre) as calls. intros calls.
  lay_out d t ok Hplay. walk Hplay; intros Ht; symmetry in Ht;
    read_report Ht; subst description; clear Ht;
    repeat match goal with
           | E : (_ =? _) = true |- _ => apply Z.eqb_eq in E
           | E : (_ =? _) = false |- _ => apply Z.eqb_neq in E
           end;
    (split;
     [ intros Hd; first [ discriminate Hd | tauto ]
     | intros [Hc | [Hc | Hc]];
       first [ reflexivity
             | exfalso; tauto
             | exfalso;
               match goal with
               | E : queue_family_passes d = true |- _ =>
                   rewrite E in Hc; discriminate Hc
               end ] ]).
Qed.

Lemma compute_only_driver_wf : wf_driver compute_only_driver.
Proof.
  unfold wf_driver. split; [exact sample_memory_properties_wf|].
  split; [exact sample_requirements_wf|].
  split; [exact sample_requirements_wf|].
  split; [discriminate|].
  split; cbv; split; discriminate.
Qed.

Lemma empty_description_cases_witness :
  wf_driver compute_only_driver /\
  (exists pre, trace (main compute_only_driver) = pre ++ failure_report "") /\
  queue_family_passes compute_only_driver = false.
Proof.
  assert (Ht : trace (main compute_only_driver) =
               firstn (List.length (trace (main compute_only_driver)) - 2)
                      (trace (main compute_only_driver))
               ++ failure_report "") by (vm_compute; reflexivity).
  split; [exact compute_only_driver_wf|]. split; [eexists; exact Ht|].
  pose proof (proj1 (@empty_description_cases compute_only_driver _ ""
                       compute_only_driver_wf Ht) eq_refl)
    as [Hc | [Hc | Hc]].
  - exfalso. apply Hc. reflexivity.
  - exfalso. apply Hc. reflexivity.
  - exact Hc.
Defined.

(** The functions called before a report, diagnostics aside, are
    those the script calls before the check with that description. *)
Lemma functions_called_before_report d (pre : list call)
  (description : string) :
  trace (main d) = pre ++ failure_report description ->
  description <> "" ->
  map function_name (filter essential pre) =
  functions_before_report description.
Proof.
  intros Ht Hne. apply report_in_script in Ht. revert Ht.
  generalize (filter essential pre) as calls. intros calls.
  lay_out d t ok Hplay. walk Hplay; intros Ht; symmetry in Ht;
    read_report Ht; subst description;
    try (exfalso; apply Hne; reflexivity);
    apply (f_equal before_report) in Ht;
    rewrite before_report_report in Ht;
    cbn [before_report removelast failure_report] in Ht;
    rewrite Ht;
    cbn [map function_name the_begin the_end the_submit the_wait
         the_fence_creation the_mapping barrier_A barrier_B the_copy];
    vm_compute; reflexivity.
Qed.

(** X11.  A non-empty description names the check that failed: two
    runs, on any two drivers, that end with the report of the same
    non-empty description have called the same functions in the same
    order before it, diagnostics aside. *)
Theorem description_names_the_check (d1 d2 : driver)
  (pre1 pre2 : list call) (description : string) :
  description <> "" ->
  trace (main d1) = pre1 ++ failure_report description ->
  trace (main d2) = pre2 ++ failure_report description ->
  map function_name (filter essential pre1) =
  map function_name (filter essential pre2).
Proof.
  intros Hne H1 H2.
  rewrite (functions_called_before_report d1 pre1 H1 Hne).
  rewrite (functions_called_before_report d2 pre2 H2 Hne).
  reflexivity.
Qed.

Lemma description_names_the_check_witness :
  "vkCreateFence" <> "" /\
  exists pre1 pre2,
    trace (main no_fence_driver) = pre1 ++ failure_report "vkCreateFence" /\
    trace (main chatty_no_fence_driver) =
      pre2 ++ failure_report "vkCreateFence" /\
    List.length pre1 <> List.length pre2 /\
    map function_name (filter essential pre1) =
    map function_name (filter essential pre2).
Proof.
  assert (H1 : trace (main no_fence_driver) =
               firstn (List.length (trace (main no_fence_driver)) - 2)
                      (trace (main no_fence_driver))
               ++ failure_report "vkCreateFence") by (vm_compute; reflexivity).
  assert (H2 : trace (main chatty_no_fence_driver) =
               firstn (List.length (trace (main chatty_no_fence_driver)) - 2)
                      (trace (main chatty_no_fence_driver))
               ++ failure_report "vkCreateFence") by (vm_compute; reflexivity).
  assert (Hne : "vkCreateFence" <> "") by discriminate.
  split; [exact Hne|].
  eexists; eexists. split; [exact H1|]. split; [exact H2|].
  split; [vm_compute; discriminate|].
  exact (@description_names_the_check no_fence_driver chatty_no_fence_driver
           _ _ _ Hne H1 H2).
Defined.

(* ================================================================== *)
(** * The construction of the two images *)
(* ================================================================== *)

Lemma builds_essential (image : handle) (c : call) :
  builds image c = true -> essential c = true.
Proof. intros H; destruct c; try discriminate H; reflexivity. Qed.

(** X12.  Each of the two images is built by at most five calls, in the
    order of the source and none of them twice: the image is created,
    its requirements are asked for, memory of the reported size and the
    selected type is allocated, that memory is bound to the image at
    offset 0, and a view of the image is created.  Each step is only
    taken when the one before it went well, and a run that returns has
    taken all five. *)
Theorem image_built_in_order (d : driver) (image : handle) :
  wf_driver d ->
  image = write_image \/ image = read_image ->
  let create := vkCreateImage (image_args image) image in
  let query := vkGetImageMemoryRequirements image in
  let allocate :=
    vkAllocateMemory
      (allocate_args (image_memory_requirements d image)
                     (snd (selection d image))) (memory_of image) in
  let bind := vkBindImageMemory image (memory_of image) 0 in
  let view := vkCreateImageView (color_view_args image) (view_of image) in
  let steps := filter (builds image) (trace (main d)) in
  (steps = [] \/
   steps = [create] /\ status d create <> VK_SUCCESS \/
   steps = [create; query] /\ status d create = VK_SUCCESS /\
     fst (selection d image) <> 0 \/
   steps = [create; query; allocate] /\ fst (selection d image) = 0 /\
     status d allocate <> VK_SUCCESS \/
   steps = [create; query; allocate; bind] /\
     status d allocate = VK_SUCCESS /\ status d bind <> VK_SUCCESS \/
   steps = [create; query; allocate; bind; view] /\
     status d bind = VK_SUCCESS) /\
  (result (main d) = Returned 0 ->
   steps = [create; query; allocate; bind; view] /\
   status d view = VK_SUCCESS).
Proof.
  intros _ Himage. cbv zeta.
  rewrite (main_filter _ d (builds_essential image)), main_result.
  destruct Himage as [-> | ->];
    lay_out d t ok Hplay; walk Hplay;
    cbn [filter builds handle_eqb failure_report the_end the_submit
         the_wait the_mapping barrier_A barrier_B the_copy the_begin
         the_fence_creation];
    repeat match goal with
           | E : (_ =? _) = true |- _ => apply Z.eqb_eq in E
           | E : (_ =? _) = false |- _ => apply Z.eqb_neq in E
           end;
    (split;
     [ first
         [ left; reflexivity
         | right; left; split; [reflexivity | assumption]
         | right; right; left; split; [reflexivity | split; assumption]
         | right; right; right; left;
           split; [reflexivity | split; assumption]
         | right; right; right; right; left;
           split; [reflexivity | split; assumption]
         | right; right; right; right; right;
           split; [reflexivity | assumption] ]
     | intros H; first [ discriminate H
                       | split; [reflexivity | assumption] ] ]).
Qed.

Lemma image_built_in_order_witness :
  wf_driver host_only_driver /\
  filter (builds write_image) (trace (main host_only_driver)) =
    [vkCreateImage write_image_args write_image;
     vkGetImageMemoryRequirements write_image] /\
  fst (selection host_only_driver write_image) <> 0.
Proof.
  split; [exact host_only_driver_wf|].
  split; [vm_compute; reflexivity|].
  destruct (proj1 (@image_built_in_order host_only_driver write_image
                     host_only_driver_wf (or_introl eq_refl)))
    as [H | [[H _] | [[_ [_ H]] | [[H _] | [[H _] | [H _]]]]]];
    try exact H; exfalso; vm_compute in H; discriminate H.
Defined.

(* ================================================================== *)
(** * Calls made twice *)
(* ================================================================== *)

Lemma NoDup_app_remove_middle {A} (a b c : list A) :
  NoDup (a ++ b ++ c) -> NoDup (a ++ c).
Proof.
  induction b as [| x b IH]; [trivial|].
  intros H. apply IH. exact (NoDup_remove_1 a (b ++ c) x H).
Qed.

(** What a script plays is a prefix of its calls, followed by the
    report of the check that failed, if one did. *)
Lemma play_calls (s : list step) :
  exists k, fst (play s) = firstn k (calls_of s) \/
    exists description,
      fst (play s) = firstn k (calls_of s) ++ failure_report description.
Proof.
  induction s as [| [c | [|] description] s IH].
  - exists 0%nat. left. reflexivity.
  - destruct IH as [k IH]. exists (S k). cbn [play calls_of flat_map app].
    fold (calls_of s). destruct (play s) as [t ok]. cbn [fst] in *.
    destruct IH as [-> | [description ->]];
      [left | right; exists description]; reflexivity.
  - exact IH.
  - exists 0%nat. right. exists description. reflexivity.
Qed.

Lemma main_script_calls_distinct d (description : string) :
  NoDup (calls_of (main_script d) ++ failure_report description).
Proof.
  unfold main_script, bind_memory_script, checked, pixel_script.
  cbn [app map recorded_commands calls_of flat_map failure_report
       the_begin the_end the_submit the_wait the_fence_creation the_mapping
       barrier_A barrier_B the_copy memory_of view_of].
  repeat (constructor;
          [ let H := fresh "H" in
            intros H; cbn [In] in H;
            repeat (destruct H as [H | H]; [discriminate H|]); exact H |]).
  constructor.
Qed.

(** X14.  Diagnostic output aside, no call is made twice in a run: no
    object is created, no memory allocated or bound, no command recorded
    and nothing submitted or waited for a second time, so that the status
    of a call can be given by the call alone. *)
Theorem no_call_made_twice (d : driver) :
  NoDup (filter essential (trace (main d))).
Proof.
  rewrite (proj1 (main_follows d)).
  destruct (play_calls (main_script d)) as [k [-> | [description ->]]].
  - pose proof (main_script_calls_distinct d "") as H.
    rewrite <- (firstn_skipn k (calls_of (main_script d))) in H.
    rewrite <- app_assoc in H.
    exact (NoDup_app_remove_r _ _ H).
  - pose proof (main_script_calls_distinct d description) as H.
    rewrite <- (firstn_skipn k (calls_of (main_script d))) in H.
    rewrite <- app_assoc in H.
    exact (NoDup_app_remove_middle _ _ _ H).
Qed.
